(** * WebSocketHandler: a shallow embedding of the message server

    The development follows [WebSocketHandler.js].  The handler object, the
    per-connection [clientData] objects, the sockets, the timers and the
    promises it creates are one explicit state that every method threads
    through; each method of the class is a function of the same name.

    Conventions of the embedding
    - A JavaScript value decoded by [JSON.parse] is a [JSValue].  Numbers are
      integers; [String] renders a number with all its digits, which is what
      JavaScript does for the safe integers ([safe_numbers]).  A character of
      a string stands for the UTF-16 code unit of the same number, so the
      strings of the model are those whose code units are below 256; of the
      white space that [trim] removes, these are the ASCII white space and
      the no-break space.
    - [Map] and [Set] compare primitive keys by value and objects by identity.
      A key is therefore either a primitive or a reference allocated when the
      object is first stored ([Key]).
    - The properties the handler reads by name ([type], [topic], [data], ...)
      are own properties: no decoded value inherits a member of one of these
      names.  Inherited members appear where the code uses them: the calls of
      [hasOwnProperty] and [toString], which an own property of that name
      turns into an exception, and the access [data[field]] by a configured
      name ([inherited_blank]).
    - Logging and the renderer channel only produce output and are left out;
      [emit] is a log of the emitted events: the event loop follows the
      handler with log lines and listeners that return.  A log line or a
      listener of the manager that renders a value of a message in a template
      literal throws when the value has no string form; the statements that
      depend on such a line are stated for values that have one, and what
      the close listener does when a listener throws is followed separately
      ([Listening._handleClientDisconnection]).
      [broadcastToAll] and [getStatus] are not needed below and are left out.
    - Time is the millisecond clock [Date.now()], passed to every entry point.
    - The state is followed by a trace of the effects on the outside world
      (messages sent, sockets closed, calls of the store, promises settled),
      in the order in which they happen. *)

From Stdlib Require Import Ascii String ZArith.
From stdpp Require Import gmap strings list fin_maps pretty.

Open Scope string_scope.
Open Scope Z_scope.
Open Scope list_scope.

(* [set_solver] clears hypotheses it has already consumed. *)
Set Warnings "-clear-no-such-hyp".

(** ** JavaScript values *)

Inductive Prim :=
  | PUndef
  | PNull
  | PBool (b : bool)
  | PNum (n : Z)
  | PStr (s : string).

#[warnings="-register-all"]
Inductive JSValue :=
  | JPrim (p : Prim)
  | JArr (elems : list JSValue)
  | JObj (fields : list (string * JSValue)).

Coercion JPrim : Prim >-> JSValue.

Abbreviation JUndef := (JPrim PUndef).
Abbreviation JNull := (JPrim PNull).
Abbreviation JStr s := (JPrim (PStr s)).
Abbreviation JNum n := (JPrim (PNum n)).
Abbreviation JBool b := (JPrim (PBool b)).

#[global] Instance Prim_eq_dec : EqDecision Prim.
Proof. solve_decision. Defined.

Definition Prim_to_sum (p : Prim) : unit + unit + bool + Z + string :=
  match p with
  | PUndef => inl (inl (inl (inl tt)))
  | PNull => inl (inl (inl (inr tt)))
  | PBool b => inl (inl (inr b))
  | PNum n => inl (inr n)
  | PStr s => inr s
  end.

Definition Prim_of_sum (x : unit + unit + bool + Z + string) : Prim :=
  match x with
  | inl (inl (inl (inl _))) => PUndef
  | inl (inl (inl (inr _))) => PNull
  | inl (inl (inr b)) => PBool b
  | inl (inr n) => PNum n
  | inr s => PStr s
  end.

#[global] Instance Prim_countable : Countable Prim.
Proof.
  apply (inj_countable' Prim_to_sum Prim_of_sum).
  by intros [].
Defined.

(** Keys of a [Map] or members of a [Set]. *)
Inductive Key :=
  | KPrim (p : Prim)
  | KRef (r : nat).

#[global] Instance Key_eq_dec : EqDecision Key.
Proof. solve_decision. Defined.

#[global] Instance Key_countable : Countable Key.
Proof.
  apply (inj_countable'
    (λ k, match k with KPrim p => inl p | KRef r => inr r end)
    (λ x, match x with inl p => KPrim p | inr r => KRef r end)).
  by intros [].
Defined.

(** The key under which a value already stored can be found: an object
    decoded from a new message is a new object and is never found. *)
Definition find_key (v : JSValue) : option Key :=
  match v with
  | JPrim p => Some (KPrim p)
  | _ => None
  end.

(** The key under which a value is stored; [r] is the next free reference. *)
Definition store_key (v : JSValue) (r : nat) : Key :=
  match v with
  | JPrim p => KPrim p
  | _ => KRef r
  end.

(** Truthiness, as used by [||], [!] and [if]. *)
Definition truthy (v : JSValue) : bool :=
  match v with
  | JPrim PUndef | JPrim PNull => false
  | JPrim (PBool b) => b
  | JPrim (PNum n) => negb (n =? 0)%Z
  | JPrim (PStr s) => negb (String.eqb s "")
  | JArr _ | JObj _ => true
  end.

(** [a || b] *)
Definition js_or (a b : JSValue) : JSValue := if truthy a then a else b.

(** [typeof v === 'object'] *)
Definition typeof_object (v : JSValue) : bool :=
  match v with
  | JPrim PNull | JArr _ | JObj _ => true
  | _ => false
  end.

(** [a === s] for a string [s]. *)
Definition strict_eq_str (a : JSValue) (s : string) : bool :=
  match a with
  | JPrim (PStr t) => String.eqb t s
  | _ => false
  end.

(** Canonical array indices: ["0"], ["1"], ..., without leading zeros. *)
Definition digit_of (a : ascii) : option nat :=
  let n := nat_of_ascii a in
  if ((48 <=? n) && (n <=? 57))%nat then Some (n - 48)%nat else None.

Fixpoint parse_digits (s : string) (acc : nat) : option nat :=
  match s with
  | EmptyString => Some acc
  | String a s' =>
      match digit_of a with
      | Some d => parse_digits s' (10 * acc + d)%nat
      | None => None
      end
  end.

Definition parse_index (s : string) : option nat :=
  match s with
  | EmptyString => None
  | String a EmptyString => digit_of a
  | String a _ => if Ascii.eqb a "0"%char then None else parse_digits s 0%nat
  end.

Fixpoint assoc (f : string) (l : list (string * JSValue)) : option JSValue :=
  match l with
  | [] => None
  | (k, v) :: l' => if String.eqb k f then Some v else assoc f l'
  end.

Fixpoint chars (s : string) : list JSValue :=
  match s with
  | EmptyString => []
  | String a s' => JStr (String a EmptyString) :: chars s'
  end.

(** Own property of a value that is neither [null] nor [undefined]. *)
Definition get_own (v : JSValue) (f : string) : option JSValue :=
  match v with
  | JObj l => assoc f l
  | JArr l =>
      if String.eqb f "length" then Some (JNum (Z.of_nat (length l)))
      else i ← parse_index f; l !! i
  | JPrim (PStr s) =>
      if String.eqb f "length" then Some (JNum (Z.of_nat (String.length s)))
      else i ← parse_index f; chars s !! i
  | _ => None
  end.

(** [v[f]] where [v] is neither [null] nor [undefined]. *)
Definition js_get (v : JSValue) (f : string) : JSValue :=
  default JUndef (get_own v f).

(** [v.f] in general: reading a property of [null] or [undefined] throws. *)
Definition js_get_checked (v : JSValue) (f : string) : option JSValue :=
  match v with
  | JPrim PUndef | JPrim PNull => None
  | _ => Some (js_get v f)
  end.

(** [v.hasOwnProperty(f)]: [None] when the call throws because an own
    property of that name (never a function in decoded data) shadows the
    inherited method. *)
Definition hasOwnProperty (v : JSValue) (f : string) : option bool :=
  match v with
  | JObj l =>
      match assoc "hasOwnProperty" l with
      | Some _ => None
      | None => Some (bool_decide (is_Some (assoc f l)))
      end
  | _ => Some (bool_decide (is_Some (get_own v f)))
  end.

Fixpoint join (sep : string) (l : list string) : string :=
  match l with
  | [] => ""
  | [s] => s
  | s :: l' => s +:+ sep +:+ join sep l'
  end.

(** The integers that every operation of JavaScript treats exactly. *)
Definition safe_integer (n : Z) : bool := (Z.abs n <? 2 ^ 53)%Z.

(** Every number inside the value is a safe integer. *)
Fixpoint safe_numbers (v : JSValue) : bool :=
  match v with
  | JPrim (PNum n) => safe_integer n
  | JPrim _ => true
  | JArr l => forallb safe_numbers l
  | JObj l => forallb (λ kv, safe_numbers kv.2) l
  end.

(** [String(v)]; [None] when the conversion throws.  A number is rendered
    with all its digits, as JavaScript renders the safe integers (a number
    from [10^21] on is rendered with an exponent there). *)
Fixpoint js_String (v : JSValue) : option string :=
  match v with
  | JPrim PUndef => Some "undefined"
  | JPrim PNull => Some "null"
  | JPrim (PBool true) => Some "true"
  | JPrim (PBool false) => Some "false"
  | JPrim (PNum n) => Some (pretty n)
  | JPrim (PStr s) => Some s
  | JArr l =>
      let fix elems (l : list JSValue) : option (list string) :=
        match l with
        | [] => Some []
        | e :: l' =>
            s ← match e with
                | JPrim PUndef | JPrim PNull => Some ""
                | _ => js_String e
                end;
            r ← elems l';
            Some (s :: r)
        end in
      join "," <$> elems l
  | JObj l =>
      match assoc "toString" l with
      | Some _ => None
      | None => Some "[object Object]"
      end
  end.

(** [s.trim()]: the white space and line terminators of JavaScript below
    U+0100 are U+0009 to U+000D, the space U+0020 and the no-break space
    U+00A0. *)
Definition is_white_space (a : ascii) : bool :=
  let n := nat_of_ascii a in
  ((n =? 32) || ((9 <=? n) && (n <=? 13)) || (n =? 160))%nat.

Fixpoint trimStart (s : string) : string :=
  match s with
  | EmptyString => EmptyString
  | String a s' => if is_white_space a then trimStart s' else s
  end.

Definition trimEnd (s : string) : string :=
  String.rev (trimStart (String.rev s)).

Definition trim (s : string) : string := trimStart (trimEnd s).

(** Own enumerable properties copied by the spread [{...v}]. *)
Fixpoint indexed (i : nat) (l : list JSValue) : list (string * JSValue) :=
  match l with
  | [] => []
  | e :: l' => (pretty i, e) :: indexed (S i) l'
  end.

Definition spread (v : JSValue) : list (string * JSValue) :=
  match v with
  | JObj l => l
  | JArr l => indexed 0 l
  | JPrim (PStr s) => indexed 0 (chars s)
  | _ => []
  end.

(** [o[f] = v] on an object literal under construction. *)
Fixpoint obj_set (f : string) (v : JSValue) (l : list (string * JSValue))
  : list (string * JSValue) :=
  match l with
  | [] => [(f, v)]
  | (k, w) :: l' => if String.eqb k f then (k, v) :: l' else (k, w) :: obj_set f v l'
  end.

(** ** Sockets, messages and the objects of the handler *)

Definition socket := nat.
Definition time := Z.

(** A timestamp rendered by [toISOString()] is represented by the instant. *)
Definition toISOString (t : time) : JSValue := JNum t.

Inductive ReadyState := CONNECTING | OPEN | CLOSING | CLOSED.

#[global] Instance ReadyState_eq_dec : EqDecision ReadyState.
Proof. solve_decision. Defined.

(** Messages the server sends, one constructor per [type]; the last
    argument is the [timestamp] field.  Fields that only repeat the
    configuration or a constant ([serverCapabilities], [serverVersion], ...)
    are not carried. *)
Inductive OutMsg :=
  | welcome (clientId : string) (authRequired : bool) (ts : time)
  | error (message : string) (ts : time)
  | handshake_response (clientId : string) (ts : time)
  | auth_response (success : bool) (message : string) (ts : time)
  | data_response (success : bool) (message : option string)
      (insertId : option JSValue) (requestId : JSValue) (ts : time)
  | response (requestId : JSValue) (success : bool) (data error : JSValue) (ts : time)
  | subscribe_response (topic : JSValue) (ts : time)
  | unsubscribe_response (topic : JSValue) (ts : time)
  | publish_response (topic : JSValue) (ts : time)
  | publish_msg (topic data : JSValue) (ts : time)
  | rpc_response (requestId : JSValue) (success : bool) (data error : JSValue) (ts : time)
  | stream_start_response (streamId : JSValue) (ts : time)
  | stream_end_response (streamId : JSValue) (ts : time)
  | heartbeat_response (ts : time)
  | pong (ts : time)
  | request_msg (requestId : string) (endpoint data : JSValue) (ts : time)
  | data_msg (data : JSValue) (ts : time)
  | stream_start_msg (streamId streamType : JSValue) (ts : time)
  | stream_data_msg (streamId data sequenceNumber : JSValue) (ts : time)
  | stream_end_msg (streamId : JSValue) (ts : time).

(** How a promise is settled: the argument of [resolve] or the message of
    the [Error] given to [reject]. *)
Inductive Settlement :=
  | Resolved (v : JSValue)
  | Rejected (msg : string).

(** Everything the handler does to the outside, in the order it does it. *)
Inductive Effect :=
  | Send (ws : socket) (m : OutMsg)              (* ws.send(JSON.stringify(m)) *)
  | Close (ws : socket) (code : Z) (reason : string)  (* ws.close(code, reason) *)
  | Ping (ws : socket)                           (* ws.ping() *)
  | ServerListen                                 (* new WebSocket.Server(...) *)
  | ServerClose                                  (* this.server.close(...) *)
  | PostData (table : string) (record : JSValue) (* this.db.postData(...) *)
  | Invoke (method : Key) (params : JSValue)     (* rpcMethod(params, clientData) *)
  | Settle (promise : nat) (s : Settlement)      (* resolve(...) / reject(...) *)
  | Emit (name : string) (fields : list (string * JSValue)). (* this.emit(...) *)

Record Config := {
  enableAuthentication : bool;
  authToken : string;
  dbTableName : string;
  requiredFields : list string;
  fieldsToEncrypt : list string;
  enableHeartbeat : bool;
  heartbeatInterval : Z;
  maxConnections : Z;
  enableDataValidation : bool;
  enableRequestResponse : bool;
  enablePubSub : bool;
  enableRPC : bool;
  enableStreaming : bool;
  requestTimeout : Z;
  enableBinaryData : bool;
  clientTypes : list string
}.

(** The store: [encrypt] is optional and may throw ([None]). *)
Record Db := {
  encrypt : option (string → option JSValue)
}.

Record ClientData := {
  cd_id : string;
  ip : string;
  userAgent : string;
  connectedAt : time;
  lastHeartbeat : time;
  isAuthenticated : bool;
  dataReceived : nat;
  lastDataTime : option time;
  clientType : string;
  cd_subscriptions : gset Key;
  capabilities : gset Key
}.

(** An entry of [this.pendingRequests]: the [resolve]/[reject] pair of
    promise [pr_promise] and the handle returned by [setTimeout]. *)
Record PendingRequest := {
  pr_promise : nat;
  pr_timeout : nat
}.

Record Stream := {
  s_clientId : string;
  s_ws : socket;
  streamType : JSValue;
  startedAt : time
}.

(** Callbacks given to [setTimeout] / [setInterval], with their delay. *)
Inductive Timer :=
  | RequestTimeout (requestId : string) (promise : nat) (delay : Z)
  | AuthClose (ws : socket) (delay : Z)
  | Heartbeat (ws : socket) (interval : Z).

(** Code waiting for a promise of a collaborator: the rest of
    [_saveToDatabase] after [await], and the [then]/[catch] pair of an
    asynchronous RPC result. *)
Inductive Awaiting :=
  | AwaitPostData (ws : socket) (data : JSValue) (requestId : JSValue)
  | AwaitRPC (ws : socket) (requestId : JSValue).

(** What an RPC method gives back. *)
Inductive RpcResult :=
  | RpcReturn (v : JSValue)
  | RpcThrow (message : JSValue)
  | RpcPromise.

(** What the closures of the built-in RPC methods read from [this]. *)
Record ServerView := {
  v_config : Config;
  v_isRunning : bool;
  v_connectionCount : Z;
  v_streams : list (JSValue * Stream);
  v_topics : list JSValue;
  v_pendingRequests : nat
}.

Definition RpcHandler := ServerView → JSValue → ClientData → RpcResult.

Record Server := {
  (* fields of the handler object *)
  config : Config;
  db : option Db;
  server : bool;
  isRunning : bool;
  connectionCount : Z;
  clients : gset socket;
  pendingRequests : gmap Key PendingRequest;
  subscriptions : gmap Key (gset socket);
  rpcMethods : gmap Key RpcHandler;
  streams : gmap Key Stream;
  (* the objects and resources it refers to *)
  clientData : gmap socket ClientData;
  readyState : gmap socket ReadyState;
  timers : gmap nat Timer;
  nextTimer : nat;
  awaiting : gmap nat Awaiting;
  nextPromise : nat;
  refs : list JSValue;
  trace : list Effect
}.

(** Field updates ([this.x = v]). *)
Definition with_server (v : bool) (st : Server) : Server :=
  {| config := config st; db := db st; server := v;
     isRunning := isRunning st; connectionCount := connectionCount st;
     clients := clients st; pendingRequests := pendingRequests st;
     subscriptions := subscriptions st; rpcMethods := rpcMethods st;
     streams := streams st; clientData := clientData st;
     readyState := readyState st; timers := timers st;
     nextTimer := nextTimer st; awaiting := awaiting st;
     nextPromise := nextPromise st; refs := refs st; trace := trace st |}.

Definition with_isRunning (v : bool) (st : Server) : Server :=
  {| config := config st; db := db st; server := server st; isRunning := v;
     connectionCount := connectionCount st; clients := clients st;
     pendingRequests := pendingRequests st;
     subscriptions := subscriptions st; rpcMethods := rpcMethods st;
     streams := streams st; clientData := clientData st;
     readyState := readyState st; timers := timers st;
     nextTimer := nextTimer st; awaiting := awaiting st;
     nextPromise := nextPromise st; refs := refs st; trace := trace st |}.

Definition with_connectionCount (v : Z) (st : Server) : Server :=
  {| config := config st; db := db st; server := server st;
     isRunning := isRunning st; connectionCount := v; clients := clients st;
     pendingRequests := pendingRequests st;
     subscriptions := subscriptions st; rpcMethods := rpcMethods st;
     streams := streams st; clientData := clientData st;
     readyState := readyState st; timers := timers st;
     nextTimer := nextTimer st; awaiting := awaiting st;
     nextPromise := nextPromise st; refs := refs st; trace := trace st |}.

Definition with_clients (v : gset socket) (st : Server) : Server :=
  {| config := config st; db := db st; server := server st;
     isRunning := isRunning st; connectionCount := connectionCount st;
     clients := v; pendingRequests := pendingRequests st;
     subscriptions := subscriptions st; rpcMethods := rpcMethods st;
     streams := streams st; clientData := clientData st;
     readyState := readyState st; timers := timers st;
     nextTimer := nextTimer st; awaiting := awaiting st;
     nextPromise := nextPromise st; refs := refs st; trace := trace st |}.

Definition with_pendingRequests (v : gmap Key PendingRequest) (st : Server) : Server :=
  {| config := config st; db := db st; server := server st;
     isRunning := isRunning st; connectionCount := connectionCount st;
     clients := clients st; pendingRequests := v;
     subscriptions := subscriptions st; rpcMethods := rpcMethods st;
     streams := streams st; clientData := clientData st;
     readyState := readyState st; timers := timers st;
     nextTimer := nextTimer st; awaiting := awaiting st;
     nextPromise := nextPromise st; refs := refs st; trace := trace st |}.

Definition with_subscriptions (v : gmap Key (gset socket)) (st : Server) : Server :=
  {| config := config st; db := db st; server := server st;
     isRunning := isRunning st; connectionCount := connectionCount st;
     clients := clients st; pendingRequests := pendingRequests st;
     subscriptions := v; rpcMethods := rpcMethods st; streams := streams st;
     clientData := clientData st; readyState := readyState st;
     timers := timers st; nextTimer := nextTimer st; awaiting := awaiting st;
     nextPromise := nextPromise st; refs := refs st; trace := trace st |}.

Definition with_rpcMethods (v : gmap Key RpcHandler) (st : Server) : Server :=
  {| config := config st; db := db st; server := server st;
     isRunning := isRunning st; connectionCount := connectionCount st;
     clients := clients st; pendingRequests := pendingRequests st;
     subscriptions := subscriptions st; rpcMethods := v;
     streams := streams st; clientData := clientData st;
     readyState := readyState st; timers := timers st;
     nextTimer := nextTimer st; awaiting := awaiting st;
     nextPromise := nextPromise st; refs := refs st; trace := trace st |}.

Definition with_streams (v : gmap Key Stream) (st : Server) : Server :=
  {| config := config st; db := db st; server := server st;
     isRunning := isRunning st; connectionCount := connectionCount st;
     clients := clients st; pendingRequests := pendingRequests st;
     subscriptions := subscriptions st; rpcMethods := rpcMethods st;
     streams := v; clientData := clientData st; readyState := readyState st;
     timers := timers st; nextTimer := nextTimer st; awaiting := awaiting st;
     nextPromise := nextPromise st; refs := refs st; trace := trace st |}.

Definition with_clientData (v : gmap socket ClientData) (st : Server) : Server :=
  {| config := config st; db := db st; server := server st;
     isRunning := isRunning st; connectionCount := connectionCount st;
     clients := clients st; pendingRequests := pendingRequests st;
     subscriptions := subscriptions st; rpcMethods := rpcMethods st;
     streams := streams st; clientData := v; readyState := readyState st;
     timers := timers st; nextTimer := nextTimer st; awaiting := awaiting st;
     nextPromise := nextPromise st; refs := refs st; trace := trace st |}.

Definition with_readyState (v : gmap socket ReadyState) (st : Server) : Server :=
  {| config := config st; db := db st; server := server st;
     isRunning := isRunning st; connectionCount := connectionCount st;
     clients := clients st; pendingRequests := pendingRequests st;
     subscriptions := subscriptions st; rpcMethods := rpcMethods st;
     streams := streams st; clientData := clientData st; readyState := v;
     timers := timers st; nextTimer := nextTimer st; awaiting := awaiting st;
     nextPromise := nextPromise st; refs := refs st; trace := trace st |}.

Definition with_timers (v : gmap nat Timer) (st : Server) : Server :=
  {| config := config st; db := db st; server := server st;
     isRunning := isRunning st; connectionCount := connectionCount st;
     clients := clients st; pendingRequests := pendingRequests st;
     subscriptions := subscriptions st; rpcMethods := rpcMethods st;
     streams := streams st; clientData := clientData st;
     readyState := readyState st; timers := v; nextTimer := nextTimer st;
     awaiting := awaiting st; nextPromise := nextPromise st; refs := refs st;
     trace := trace st |}.

Definition with_nextTimer (v : nat) (st : Server) : Server :=
  {| config := config st; db := db st; server := server st;
     isRunning := isRunning st; connectionCount := connectionCount st;
     clients := clients st; pendingRequests := pendingRequests st;
     subscriptions := subscriptions st; rpcMethods := rpcMethods st;
     streams := streams st; clientData := clientData st;
     readyState := readyState st; timers := timers st; nextTimer := v;
     awaiting := awaiting st; nextPromise := nextPromise st; refs := refs st;
     trace := trace st |}.

Definition with_awaiting (v : gmap nat Awaiting) (st : Server) : Server :=
  {| config := config st; db := db st; server := server st;
     isRunning := isRunning st; connectionCount := connectionCount st;
     clients := clients st; pendingRequests := pendingRequests st;
     subscriptions := subscriptions st; rpcMethods := rpcMethods st;
     streams := streams st; clientData := clientData st;
     readyState := readyState st; timers := timers st;
     nextTimer := nextTimer st; awaiting := v; nextPromise := nextPromise st;
     refs := refs st; trace := trace st |}.

Definition with_nextPromise (v : nat) (st : Server) : Server :=
  {| config := config st; db := db st; server := server st;
     isRunning := isRunning st; connectionCount := connectionCount st;
     clients := clients st; pendingRequests := pendingRequests st;
     subscriptions := subscriptions st; rpcMethods := rpcMethods st;
     streams := streams st; clientData := clientData st;
     readyState := readyState st; timers := timers st;
     nextTimer := nextTimer st; awaiting := awaiting st; nextPromise := v;
     refs := refs st; trace := trace st |}.

Definition with_refs (v : list JSValue) (st : Server) : Server :=
  {| config := config st; db := db st; server := server st;
     isRunning := isRunning st; connectionCount := connectionCount st;
     clients := clients st; pendingRequests := pendingRequests st;
     subscriptions := subscriptions st; rpcMethods := rpcMethods st;
     streams := streams st; clientData := clientData st;
     readyState := readyState st; timers := timers st;
     nextTimer := nextTimer st; awaiting := awaiting st;
     nextPromise := nextPromise st; refs := v; trace := trace st |}.

Definition with_trace (v : list Effect) (st : Server) : Server :=
  {| config := config st; db := db st; server := server st;
     isRunning := isRunning st; connectionCount := connectionCount st;
     clients := clients st; pendingRequests := pendingRequests st;
     subscriptions := subscriptions st; rpcMethods := rpcMethods st;
     streams := streams st; clientData := clientData st;
     readyState := readyState st; timers := timers st;
     nextTimer := nextTimer st; awaiting := awaiting st;
     nextPromise := nextPromise st; refs := refs st; trace := v |}.

Definition cd_with_lastHeartbeat (v : time) (cd : ClientData) : ClientData :=
  {| cd_id := cd_id cd; ip := ip cd; userAgent := userAgent cd;
     connectedAt := connectedAt cd; lastHeartbeat := v;
     isAuthenticated := isAuthenticated cd; dataReceived := dataReceived cd;
     lastDataTime := lastDataTime cd; clientType := clientType cd;
     cd_subscriptions := cd_subscriptions cd;
     capabilities := capabilities cd |}.

Definition cd_with_isAuthenticated (v : bool) (cd : ClientData) : ClientData :=
  {| cd_id := cd_id cd; ip := ip cd; userAgent := userAgent cd;
     connectedAt := connectedAt cd; lastHeartbeat := lastHeartbeat cd;
     isAuthenticated := v; dataReceived := dataReceived cd;
     lastDataTime := lastDataTime cd; clientType := clientType cd;
     cd_subscriptions := cd_subscriptions cd;
     capabilities := capabilities cd |}.

Definition cd_with_dataReceived (v : nat) (cd : ClientData) : ClientData :=
  {| cd_id := cd_id cd; ip := ip cd; userAgent := userAgent cd;
     connectedAt := connectedAt cd; lastHeartbeat := lastHeartbeat cd;
     isAuthenticated := isAuthenticated cd; dataReceived := v;
     lastDataTime := lastDataTime cd; clientType := clientType cd;
     cd_subscriptions := cd_subscriptions cd;
     capabilities := capabilities cd |}.

Definition cd_with_lastDataTime (v : option time) (cd : ClientData) : ClientData :=
  {| cd_id := cd_id cd; ip := ip cd; userAgent := userAgent cd;
     connectedAt := connectedAt cd; lastHeartbeat := lastHeartbeat cd;
     isAuthenticated := isAuthenticated cd; dataReceived := dataReceived cd;
     lastDataTime := v; clientType := clientType cd;
     cd_subscriptions := cd_subscriptions cd;
     capabilities := capabilities cd |}.

Definition cd_with_clientType (v : string) (cd : ClientData) : ClientData :=
  {| cd_id := cd_id cd; ip := ip cd; userAgent := userAgent cd;
     connectedAt := connectedAt cd; lastHeartbeat := lastHeartbeat cd;
     isAuthenticated := isAuthenticated cd; dataReceived := dataReceived cd;
     lastDataTime := lastDataTime cd; clientType := v;
     cd_subscriptions := cd_subscriptions cd;
     capabilities := capabilities cd |}.

Definition cd_with_cd_subscriptions (v : gset Key) (cd : ClientData) : ClientData :=
  {| cd_id := cd_id cd; ip := ip cd; userAgent := userAgent cd;
     connectedAt := connectedAt cd; lastHeartbeat := lastHeartbeat cd;
     isAuthenticated := isAuthenticated cd; dataReceived := dataReceived cd;
     lastDataTime := lastDataTime cd; clientType := clientType cd;
     cd_subscriptions := v; capabilities := capabilities cd |}.

Definition cd_with_capabilities (v : gset Key) (cd : ClientData) : ClientData :=
  {| cd_id := cd_id cd; ip := ip cd; userAgent := userAgent cd;
     connectedAt := connectedAt cd; lastHeartbeat := lastHeartbeat cd;
     isAuthenticated := isAuthenticated cd; dataReceived := dataReceived cd;
     lastDataTime := lastDataTime cd; clientType := clientType cd;
     cd_subscriptions := cd_subscriptions cd; capabilities := v |}.

(** ** Primitive operations *)

Definition log (e : Effect) (st : Server) : Server :=
  with_trace (trace st ++ [e]) st.

Definition emit (name : string) (fields : list (string * JSValue)) (st : Server)
  : Server :=
  log (Emit name fields) st.

(** [ws.readyState === WebSocket.OPEN] *)
Definition is_open (st : Server) (ws : socket) : bool :=
  bool_decide (readyState st !! ws = Some OPEN).

(** [ws.close(code, reason)]: starts the closing handshake of an open socket. *)
Definition ws_close (ws : socket) (code : Z) (reason : string) (st : Server)
  : Server :=
  if is_open st ws
  then log (Close ws code reason) (with_readyState (<[ws := CLOSING]> (readyState st)) st)
  else st.

Definition _sendToClient (ws : socket) (m : OutMsg) (st : Server) : Server :=
  if is_open st ws then log (Send ws m) st else st.

(** A mutation of the [clientData] object of [ws]. *)
Definition upd_cd (ws : socket) (f : ClientData → ClientData) (st : Server)
  : Server :=
  with_clientData (alter f ws (clientData st)) st.

(** [setTimeout] / [setInterval] and [clearTimeout] / [clearInterval]. *)
Definition setTimer (t : Timer) (st : Server) : nat * Server :=
  (nextTimer st,
   with_nextTimer (S (nextTimer st)) (with_timers (<[nextTimer st := t]> (timers st)) st)).

Definition clearTimer (h : nat) (st : Server) : Server :=
  with_timers (delete h (timers st)) st.

(** Suspension on a promise of a collaborator. *)
Definition await (a : Awaiting) (st : Server) : Server :=
  with_nextPromise (S (nextPromise st))
    (with_awaiting (<[nextPromise st := a]> (awaiting st)) st).

(** The key under which [v] is stored in a [Map] or [Set]. *)
Definition alloc (v : JSValue) (st : Server) : Key * Server :=
  match v with
  | JPrim p => (KPrim p, st)
  | _ => (KRef (length (refs st)), with_refs (refs st ++ [v]) st)
  end.

Definition key_value (st : Server) (k : Key) : JSValue :=
  match k with
  | KPrim p => JPrim p
  | KRef r => default JUndef (refs st !! r)
  end.

Definition view (st : Server) : ServerView :=
  {| v_config := config st;
     v_isRunning := isRunning st;
     v_connectionCount := connectionCount st;
     v_streams := (λ ks, (key_value st ks.1, ks.2)) <$> map_to_list (streams st);
     v_topics := (λ ks, key_value st ks.1) <$> map_to_list (subscriptions st);
     v_pendingRequests := size (pendingRequests st) |}.

(** ** Construction, start and stop *)

Definition features (cfg : Config) : JSValue :=
  JObj [("requestResponse", JBool (enableRequestResponse cfg));
        ("pubSub", JBool (enablePubSub cfg));
        ("rpc", JBool (enableRPC cfg));
        ("streaming", JBool (enableStreaming cfg))].

Definition rpc_server_info : RpcHandler := λ v _ _,
  RpcReturn (JObj [("version", JStr "2.0.0");
                   ("features", features (v_config v));
                   ("uptime", JNum 0);
                   ("connections", JNum (v_connectionCount v))]).

Definition rpc_server_stats : RpcHandler := λ v _ _,
  RpcReturn (JObj [("totalConnections", JNum (v_connectionCount v));
                   ("activeStreams", JNum (Z.of_nat (length (v_streams v))));
                   ("activeSubscriptions", JNum (Z.of_nat (length (v_topics v))));
                   ("pendingRequests", JNum (Z.of_nat (v_pendingRequests v)));
                   ("uptime", JNum 0)]).

Definition rpc_pubsub_topics : RpcHandler := λ v _ _,
  RpcReturn (JArr (v_topics v)).

Definition rpc_streams_list : RpcHandler := λ v _ _,
  RpcReturn (JArr ((λ ks : JSValue * Stream,
    JObj [("streamId", ks.1);
          ("clientId", JStr (s_clientId ks.2));
          ("streamType", streamType ks.2);
          ("startedAt", toISOString (startedAt ks.2))]) <$> v_streams v)).

Definition rpc_echo : RpcHandler := λ _ params _, RpcReturn params.

Definition registerRPCMethod (methodName : JSValue) (handler : RpcHandler)
  (st : Server) : Server :=
  let '(k, st) := alloc methodName st in
  with_rpcMethods (<[k := handler]> (rpcMethods st)) st.

Definition unregisterRPCMethod (methodName : JSValue) (st : Server) : Server :=
  match find_key methodName with
  | Some k => with_rpcMethods (delete k (rpcMethods st)) st
  | None => st
  end.

Definition _setupRPCMethods (st : Server) : Server :=
  let st := registerRPCMethod (JStr "server.info") rpc_server_info st in
  let st := registerRPCMethod (JStr "server.stats") rpc_server_stats st in
  let st := registerRPCMethod (JStr "pubsub.topics") rpc_pubsub_topics st in
  let st := registerRPCMethod (JStr "streams.list") rpc_streams_list st in
  registerRPCMethod (JStr "echo") rpc_echo st.

(** [new WebSocketHandler(config, dbInstance)], with [cfg] the configuration
    after the defaults and the generated token have been filled in. *)
Definition constructor (cfg : Config) (dbInstance : option Db) : Server :=
  _setupRPCMethods
    {| config := cfg; db := dbInstance; server := false; isRunning := false;
       connectionCount := 0; clients := ∅; pendingRequests := ∅;
       subscriptions := ∅; rpcMethods := ∅; streams := ∅;
       clientData := ∅; readyState := ∅; timers := ∅; nextTimer := 0%nat;
       awaiting := ∅; nextPromise := 0%nat; refs := []; trace := [] |}.

Definition start (st : Server) : Server :=
  if isRunning st then st
  else
    let st := log ServerListen (with_server true st) in
    let st := with_isRunning true st in
    emit "server-started" [] st.

Definition stop (st : Server) : Server :=
  if negb (isRunning st) then st
  else
    (* Clean up pending requests *)
    let st := map_fold (λ _ request st, clearTimer (pr_timeout request) st)
                st (pendingRequests st) in
    let st := with_pendingRequests ∅ st in
    (* Clean up streams *)
    let st := with_streams ∅ st in
    (* Clean up subscriptions *)
    let st := with_subscriptions ∅ st in
    (* Close all client connections *)
    let st := set_fold (λ ws st,
                  if is_open st ws then ws_close ws 1000 "Server shutdown" st else st)
                st (clients st) in
    let st := with_clients ∅ st in
    (* Close server *)
    let st := if server st then log ServerClose st else st in
    let st := with_isRunning false st in
    let st := with_connectionCount 0 st in
    emit "server-stopped" [] st.

(** ** Connections *)

Definition _startClientHeartbeat (ws : socket) (st : Server) : Server :=
  (setTimer (Heartbeat ws (heartbeatInterval (config st))) st).2.

Definition _handleNewConnection (ws : socket) (clientIP userAgent clientId : string)
  (now : time) (st : Server) : Server :=
  (* Check max connections *)
  if (maxConnections (config st) <=? connectionCount st)%Z
  then ws_close ws 1013 "Server overloaded" st
  else
    let cd :=
      {| cd_id := clientId; ip := clientIP; userAgent := userAgent;
         connectedAt := now; lastHeartbeat := now;
         isAuthenticated := negb (enableAuthentication (config st));
         dataReceived := 0%nat; lastDataTime := None;
         clientType := "unknown"; cd_subscriptions := ∅; capabilities := ∅ |} in
    let st := with_clientData (<[ws := cd]> (clientData st)) st in
    let st := with_clients ({[ws]} ∪ clients st) st in
    let st := with_connectionCount (connectionCount st + 1) st in
    let st := if enableHeartbeat (config st) then _startClientHeartbeat ws st else st in
    let st := _sendToClient ws
                (welcome clientId (enableAuthentication (config st)) now) st in
    emit "client-connected"
      [("clientId", JStr clientId); ("ip", JStr clientIP); ("userAgent", JStr userAgent)] st.

(** One tick of the interval started by [_startClientHeartbeat]; [h] is the
    handle of the interval and [cd] the captured [clientData]. *)
Definition heartbeatTick (h : nat) (ws : socket) (now : time) (st : Server)
  : Server :=
  match clientData st !! ws with
  | None => st
  | Some cd =>
      if is_open st ws then
        let timeSinceLastHeartbeat := now - lastHeartbeat cd in
        if (heartbeatInterval (config st) * 2 <? timeSinceLastHeartbeat)%Z
        then clearTimer h (ws_close ws 1000 "Heartbeat timeout" st)
        else log (Ping ws) st
      else clearTimer h st
  end.

(** The [pong] listener of [_setupClientEventHandlers]. *)
Definition on_pong (ws : socket) (now : time) (st : Server) : Server :=
  upd_cd ws (cd_with_lastHeartbeat now) st.

(** Removal of [ws] from the subscribers of [topic], dropping the topic when
    nobody is left. *)
Definition unsubscribe_topic (ws : socket) (topic : Key)
  (subs : gmap Key (gset socket)) : gmap Key (gset socket) :=
  match subs !! topic with
  | Some s =>
      let s' := s ∖ {[ws]} in
      if decide (size s' = 0%nat) then delete topic subs else <[topic := s']> subs
  | None => subs
  end.

Definition _handleClientDisconnection (ws : socket) (code : Z) (reason : string)
  (now : time) (st : Server) : Server :=
  match clientData st !! ws with
  | None => st
  | Some cd =>
      (* Clean up subscriptions *)
      let st := with_subscriptions
                  (set_fold (unsubscribe_topic ws) (subscriptions st)
                     (cd_subscriptions cd)) st in
      (* Clean up streams *)
      let st := map_fold (λ streamId stream st,
                  if String.eqb (s_clientId stream) (cd_id cd)
                  then emit "stream-ended"
                         [("clientId", JStr (cd_id cd)); ("streamId", key_value st streamId)]
                         (with_streams (delete streamId (streams st)) st)
                  else st) st (streams st) in
      let st := with_clients (clients st ∖ {[ws]}) st in
      let st := with_connectionCount (connectionCount st - 1) st in
      emit "client-disconnected"
        [("clientId", JStr (cd_id cd)); ("clientType", JStr (clientType cd));
         ("connectedDuration", JNum (now - connectedAt cd));
         ("dataReceived", JNum (Z.of_nat (dataReceived cd)))] st
  end.

(** ** Ingest: validation and persistence *)

(** The names of the members of [Object.prototype] and, without those it
    overrides, of [Array.prototype] (ECMAScript 2023). *)
Definition object_prototype_names : list string :=
  ["constructor"; "toString"; "toLocaleString"; "valueOf"; "hasOwnProperty";
   "isPrototypeOf"; "propertyIsEnumerable"; "__proto__"; "__defineGetter__";
   "__defineSetter__"; "__lookupGetter__"; "__lookupSetter__"].

Definition array_prototype_names : list string :=
  ["at"; "concat"; "copyWithin"; "entries"; "every"; "fill"; "filter"; "find";
   "findIndex"; "findLast"; "findLastIndex"; "flat"; "flatMap"; "forEach";
   "includes"; "indexOf"; "join"; "keys"; "lastIndexOf"; "map"; "pop"; "push";
   "reduce"; "reduceRight"; "reverse"; "shift"; "slice"; "some"; "sort";
   "splice"; "toReversed"; "toSorted"; "toSpliced"; "unshift"; "values"; "with"].

(** [data[field]] for a name that the object or array [data] does not have
    as own property: [None] when it inherits no member of that name either,
    so that the access gives [undefined]; otherwise whether [String] renders
    the inherited member as a string that is empty after trimming.  The
    inherited members are methods, which render as their source text, and
    [__proto__], the prototype: [Object.prototype] renders as
    ["[object Object]"] and [Array.prototype], which is an empty array, as
    the empty string. *)
Definition inherited_blank (data : JSValue) (field : string) : option bool :=
  match data with
  | JObj _ =>
      if bool_decide (field ∈ object_prototype_names) then Some false else None
  | JArr _ =>
      if String.eqb field "__proto__" then Some true
      else if bool_decide (field ∈ array_prototype_names ++ object_prototype_names)
      then Some false
      else None
  | JPrim _ => None
  end.

(** The loop over [this.config.requiredFields]; [None] when [String(...)]
    throws. *)
Fixpoint check_required (data : JSValue) (fields : list string) : option bool :=
  match fields with
  | [] => Some true
  | field :: rest =>
      match get_own data field with
      | Some (JPrim PUndef) | Some (JPrim PNull) => Some false
      | Some v =>
          s ← js_String v;
          if String.eqb (trim s) "" then Some false else check_required data rest
      | None =>
          match inherited_blank data field with
          | Some false => check_required data rest
          | _ => Some false
          end
      end
  end.

Definition _validateSensorData (cfg : Config) (data : JSValue) : option bool :=
  if negb (truthy data) || negb (typeof_object data) then Some false
  else check_required data (requiredFields cfg).

Definition _validateApplicationData (data : JSValue) : option bool :=
  match hasOwnProperty data "payload" with
  | None => None
  | Some true => Some true
  | Some false => hasOwnProperty data "data"
  end.

Definition _validateServiceData (data : JSValue) : option bool :=
  match hasOwnProperty data "service" with
  | None => None
  | Some false => Some false
  | Some true => hasOwnProperty data "operation"
  end.

Definition _validateData (cfg : Config) (data dataType : JSValue) : option bool :=
  if negb (truthy data) || negb (typeof_object data) then Some false
  else if strict_eq_str dataType "sensor" then _validateSensorData cfg data
  else if strict_eq_str dataType "application" then _validateApplicationData data
  else if strict_eq_str dataType "service" then _validateServiceData data
  else _validateSensorData cfg data.

(** The encryption loop of [_saveToDatabase] over [fieldsToEncrypt]; [None]
    when [hasOwnProperty] throws.  A failure inside the inner [try] leaves
    the field as it is. *)
Fixpoint encrypt_fields (enc : string → option JSValue) (fields : list string)
  (dataToInsert : list (string * JSValue)) : option (list (string * JSValue)) :=
  match fields with
  | [] => Some dataToInsert
  | field :: rest =>
      match hasOwnProperty (JObj dataToInsert) field with
      | None => None
      | Some has =>
          let v := js_get (JObj dataToInsert) field in
          let present :=
            has && match v with JPrim PNull | JPrim PUndef => false | _ => true end in
          let dataToInsert :=
            if present then
              match js_String v ≫= enc with
              | Some c => obj_set field c dataToInsert
              | None => dataToInsert
              end
            else dataToInsert in
          encrypt_fields enc rest dataToInsert
      end
  end.

(** The [catch] block of [_saveToDatabase]. *)
Definition database_error (ws : socket) (cd : ClientData) (requestId : JSValue)
  (now : time) (st : Server) : Server :=
  let st := _sendToClient ws
              (data_response false (Some "Database error") None requestId now) st in
  emit "database-error" [("clientId", JStr (cd_id cd))] st.

(** [_saveToDatabase] up to its [await]. *)
Definition _saveToDatabase (dbi : Db) (data : JSValue) (ws : socket)
  (cd : ClientData) (requestId : JSValue) (now : time) (st : Server) : Server :=
  let requestId := match requestId with JPrim PUndef => JNull | r => r end in
  let dataToInsert := spread data in
  let encrypted :=
    match encrypt dbi with
    | Some enc =>
        if (0 <? length (fieldsToEncrypt (config st)))%nat
        then encrypt_fields enc (fieldsToEncrypt (config st)) dataToInsert
        else Some dataToInsert
    | None => Some dataToInsert
    end in
  match encrypted with
  | Some dataToInsert =>
      let st := log (PostData (dbTableName (config st)) (JObj dataToInsert)) st in
      await (AwaitPostData ws data requestId) st
  | None => database_error ws cd requestId now st
  end.

(** [_saveToDatabase] after its [await]: [result] is what [postData]
    resolved to ([inl]) or was rejected with ([inr]). *)
Definition _saveToDatabase_resume (ws : socket) (data requestId : JSValue)
  (result : JSValue + JSValue) (now : time) (st : Server) : Server :=
  match clientData st !! ws with
  | None => st
  | Some cd =>
      match result with
      | inl r =>
          match js_get_checked r "insertId" with
          | Some insertId =>
              let st := _sendToClient ws
                          (data_response true None (Some insertId) requestId now) st in
              emit "database-insert"
                [("clientId", JStr (cd_id cd)); ("insertId", insertId); ("data", data)] st
          | None => database_error ws cd requestId now st
          end
      | inr _ => database_error ws cd requestId now st
      end
  end.

Definition _handleDataMessage (ws : socket) (cd : ClientData) (message : JSValue)
  (now : time) (st : Server) : Server :=
  if enableAuthentication (config st) && negb (isAuthenticated cd) then
    _sendToClient ws (error "Authentication required" now) st
  else
    let requestId := js_get message "requestId" in
    let data := js_or (js_or (js_get message "data") (js_get message "payload")) message in
    let dataType := js_or (js_get message "dataType") (JStr "general") in
    (* Validate data if enabled *)
    match (if enableDataValidation (config st)
           then _validateData (config st) data dataType else Some true) with
    | None =>
        _sendToClient ws
          (data_response false (Some "Error processing data") None requestId now) st
    | Some false =>
        _sendToClient ws
          (data_response false (Some "Data validation failed") None requestId now) st
    | Some true =>
        (* Add metadata *)
        let dataToSave :=
          JObj (obj_set "received_at" (toISOString now)
               (obj_set "data_type" dataType
               (obj_set "client_type" (JStr (clientType cd))
               (obj_set "client_ip" (JStr (ip cd))
               (obj_set "client_id" (JStr (cd_id cd)) (spread data)))))) in
        (* Save to database if configured *)
        let st :=
          match db st with
          | Some dbi =>
              if negb (String.eqb (dbTableName (config st)) "")
              then _saveToDatabase dbi dataToSave ws cd requestId now st
              else _sendToClient ws (data_response true None None requestId now) st
          | None => _sendToClient ws (data_response true None None requestId now) st
          end in
        emit "data-received"
          [("clientId", JStr (cd_id cd)); ("clientType", JStr (clientType cd));
           ("dataType", dataType); ("data", data)] st
    end.

(** Legacy support for microcontrollers. *)
Definition _handleSensorData (ws : socket) (cd : ClientData) (message : JSValue)
  (now : time) (st : Server) : Server :=
  _handleDataMessage ws cd
    (JObj (obj_set "dataType" (JStr "sensor")
          (obj_set "type" (JStr "data") (spread message)))) now st.

(** ** Handshake and authentication *)

Definition add_capability (ws : socket) (st : Server) (cap : JSValue) : Server :=
  let '(k, st) := alloc cap st in
  upd_cd ws (λ cd, cd_with_capabilities ({[k]} ∪ capabilities cd) cd) st.

Definition _handleHandshake (ws : socket) (cd : ClientData) (message : JSValue)
  (now : time) (st : Server) : Server :=
  let clientType := js_get message "clientType" in
  let capabilities := js_get message "capabilities" in
  let st :=
    match clientType with
    | JPrim (PStr s) =>
        if truthy clientType && bool_decide (s ∈ clientTypes (config st))
        then upd_cd ws (cd_with_clientType s) st
        else st
    | _ => st
    end in
  let st :=
    match capabilities with
    | JArr caps => foldl (add_capability ws) st caps
    | _ => st
    end in
  let st := _sendToClient ws (handshake_response (cd_id cd) now) st in
  emit "client-handshake"
    [("clientId", JStr (cd_id cd)); ("clientType", clientType);
     ("capabilities", capabilities)] st.

Definition _handleAuthentication (ws : socket) (cd : ClientData) (message : JSValue)
  (now : time) (st : Server) : Server :=
  if negb (enableAuthentication (config st)) then
    _sendToClient ws (auth_response true "Authentication not required" now) st
  else if strict_eq_str (js_get message "token") (authToken (config st)) then
    let st := upd_cd ws (cd_with_isAuthenticated true) st in
    let st := _sendToClient ws (auth_response true "Authentication successful" now) st in
    emit "client-authenticated" [("clientId", JStr (cd_id cd))] st
  else
    let st := _sendToClient ws
                (auth_response false "Invalid authentication token" now) st in
    (setTimer (AuthClose ws 1000) st).2.

(** The callback scheduled after a failed authentication. *)
Definition authCloseTimeout (ws : socket) (st : Server) : Server :=
  if is_open st ws then ws_close ws 1008 "Authentication failed" st else st.

(** ** Request and response *)

Definition _handleRequest (ws : socket) (cd : ClientData) (message : JSValue)
  (now : time) (st : Server) : Server :=
  if negb (enableRequestResponse (config st)) then
    _sendToClient ws (error "Request-response not enabled" now) st
  else
    emit "request"
      [("clientId", JStr (cd_id cd)); ("requestId", js_get message "requestId");
       ("endpoint", js_get message "endpoint"); ("data", js_get message "data")] st.

(** The [respond] callback handed to the listeners of ["request"];
    [err] is the message of the error argument, if one is given. *)
Definition respond (ws : socket) (requestId responseData : JSValue)
  (err : option JSValue) (now : time) (st : Server) : Server :=
  _sendToClient ws
    (response requestId (bool_decide (err = None)) responseData
       (match err with Some msg => js_or msg JNull | None => JNull end) now) st.

(** What a handler leaves behind: it returns, or it throws after the
    changes it has made so far. *)
Inductive Outcome :=
  | Returned (st : Server)
  | Threw (st : Server).

Definition _handleResponse (ws : socket) (cd : ClientData) (message : JSValue)
  (now : time) (st : Server) : Outcome :=
  let requestId := js_get message "requestId" in
  let success := js_get message "success" in
  let data := js_get message "data" in
  let err := js_get message "error" in
  match find_key requestId with
  | Some k =>
      match pendingRequests st !! k with
      | Some request =>
          let st := clearTimer (pr_timeout request) st in
          let st := with_pendingRequests (delete k (pendingRequests st)) st in
          if truthy success then
            Returned (log (Settle (pr_promise request) (Resolved data)) st)
          else
            match js_String (js_or err (JStr "Request failed")) with
            | Some msg => Returned (log (Settle (pr_promise request) (Rejected msg)) st)
            | None => Threw st
            end
      | None => Returned st
      end
  | None => Returned st
  end.

(** [_getClientByIdAndSocket(clientId)]: the first entry of [this.clients]
    whose id is [clientId]. *)
Definition _getClientByIdAndSocket (clientId : JSValue) (st : Server)
  : option (socket * ClientData) :=
  snd <$>
  list_find (λ wc : socket * ClientData, strict_eq_str clientId (cd_id wc.2) = true)
    (omap (λ ws, (ws,.) <$> clientData st !! ws) (elements (clients st))).

(** The callback of the timer set by [sendRequest]. *)
Definition requestTimeout_fired (requestId : string) (promise : nat) (st : Server)
  : Server :=
  let st := with_pendingRequests
              (delete (KPrim (PStr requestId)) (pendingRequests st)) st in
  log (Settle promise (Rejected "Request timeout")) st.

(** The executor of the promise returned by [sendRequest]; [requestId] is
    the identifier produced by [_generateRequestId]. *)
Definition sendRequest_executor (client : socket) (requestId : string)
  (endpoint data : JSValue) (timeout : Z) (now : time) (st : Server)
  : nat * Server :=
  let promise := nextPromise st in
  let st := with_nextPromise (S promise) st in
  let '(timeoutHandle, st) := setTimer (RequestTimeout requestId promise timeout) st in
  let st := with_pendingRequests
              (<[KPrim (PStr requestId) :=
                   {| pr_promise := promise; pr_timeout := timeoutHandle |}]>
                 (pendingRequests st)) st in
  (promise, _sendToClient client (request_msg requestId endpoint data now) st).

Inductive SendRequestResult :=
  | ClientNotFound (clientId : JSValue)   (* throw new Error(`Client ... not found`) *)
  | Promise (promise : nat).

Definition sendRequest (clientId endpoint data : JSValue) (timeout : option Z)
  (requestId : string) (now : time) (st : Server) : SendRequestResult * Server :=
  let timeout := default (requestTimeout (config st)) timeout in
  match _getClientByIdAndSocket JUndef st with
  | None => (ClientNotFound clientId, st)
  | Some (ws, _) =>
      let '(p, st) := sendRequest_executor ws requestId endpoint data timeout now st in
      (Promise p, st)
  end.

(** ** Publish and subscribe *)

Definition _handleSubscribe (ws : socket) (cd : ClientData) (message : JSValue)
  (now : time) (st : Server) : Server :=
  if negb (enablePubSub (config st)) then
    _sendToClient ws (error "Pub-Sub not enabled" now) st
  else
    let topic := js_get message "topic" in
    let '(k, st) := alloc topic st in
    let st := with_subscriptions
                (<[k := {[ws]} ∪ default ∅ (subscriptions st !! k)]> (subscriptions st))
                st in
    let st := upd_cd ws (λ cd, cd_with_cd_subscriptions ({[k]} ∪ cd_subscriptions cd) cd) st in
    let st := _sendToClient ws (subscribe_response topic now) st in
    emit "client-subscribed" [("clientId", JStr (cd_id cd)); ("topic", topic)] st.

Definition _handleUnsubscribe (ws : socket) (cd : ClientData) (message : JSValue)
  (now : time) (st : Server) : Server :=
  let topic := js_get message "topic" in
  let st :=
    match find_key topic with
    | Some k =>
        let st := with_subscriptions (unsubscribe_topic ws k (subscriptions st)) st in
        upd_cd ws (λ cd, cd_with_cd_subscriptions (cd_subscriptions cd ∖ {[k]}) cd) st
    | None => st
    end in
  let st := _sendToClient ws (unsubscribe_response topic now) st in
  emit "client-unsubscribed" [("clientId", JStr (cd_id cd)); ("topic", topic)] st.

(** The body of the [forEach] of [publish]. *)
Definition publish_one (topic data excludeClientId : JSValue) (now : time)
  (acc : Server * nat) (ws : socket) : Server * nat :=
  let '(st, publishCount) := acc in
  match (if bool_decide (ws ∈ clients st) then clientData st !! ws else None) with
  | Some cd =>
      if negb (strict_eq_str excludeClientId (cd_id cd)) && is_open st ws
      then (_sendToClient ws (publish_msg topic data now) st, S publishCount)
      else acc
  | None => acc
  end.

Definition publish (topic data excludeClientId : JSValue) (now : time)
  (st : Server) : Server * nat :=
  match find_key topic ≫= λ k, subscriptions st !! k with
  | None => (st, 0%nat)
  | Some subscribers =>
      foldl (publish_one topic data excludeClientId now) (st, 0%nat)
        (elements subscribers)
  end.

Definition _handlePublish (ws : socket) (cd : ClientData) (message : JSValue)
  (now : time) (st : Server) : Server :=
  if negb (enablePubSub (config st)) then
    _sendToClient ws (error "Pub-Sub not enabled" now) st
  else
    let topic := js_get message "topic" in
    let st := (publish topic (js_get message "data") (JStr (cd_id cd)) now st).1 in
    _sendToClient ws (publish_response topic now) st.

(** ** Remote procedure calls *)

Definition _handleRPCCall (ws : socket) (cd : ClientData) (message : JSValue)
  (now : time) (st : Server) : Outcome :=
  if negb (enableRPC (config st)) then
    Returned (_sendToClient ws (error "RPC not enabled" now) st)
  else
    let requestId := js_get message "requestId" in
    let method := js_get message "method" in
    let params := js_get message "params" in
    match find_key method ≫= λ k, (k,.) <$> rpcMethods st !! k with
    | Some (k, rpcMethod) =>
        let result := rpcMethod (view st) params cd in
        let st := log (Invoke k params) st in
        match result with
        | RpcPromise => Returned (await (AwaitRPC ws requestId) st)
        | RpcReturn v =>
            Returned (_sendToClient ws (rpc_response requestId true v JUndef now) st)
        | RpcThrow msg =>
            Returned (_sendToClient ws (rpc_response requestId false JUndef msg now) st)
        end
    | None =>
        match js_String method with
        | Some m =>
            Returned (_sendToClient ws
              (rpc_response requestId false JUndef
                 (JStr ("Method " +:+ m +:+ " not found")) now) st)
        | None => Threw st
        end
    end.

(** The [then] / [catch] callbacks of an asynchronous RPC result. *)
Definition _handleRPCCall_resume (ws : socket) (requestId : JSValue)
  (result : JSValue + JSValue) (now : time) (st : Server) : Server :=
  match result with
  | inl data => _sendToClient ws (rpc_response requestId true data JUndef now) st
  | inr msg => _sendToClient ws (rpc_response requestId false JUndef msg now) st
  end.

(** ** Streaming *)

Definition _handleStreamStart (ws : socket) (cd : ClientData) (message : JSValue)
  (now : time) (st : Server) : Server :=
  if negb (enableStreaming (config st)) then
    _sendToClient ws (error "Streaming not enabled" now) st
  else
    let streamId := js_get message "streamId" in
    let streamType := js_get message "streamType" in
    let '(k, st) := alloc streamId st in
    let st := with_streams
                (<[k := {| s_clientId := cd_id cd; s_ws := ws;
                           streamType := streamType; startedAt := now |}]>
                   (streams st)) st in
    let st := _sendToClient ws (stream_start_response streamId now) st in
    emit "stream-started"
      [("clientId", JStr (cd_id cd)); ("streamId", streamId);
       ("streamType", streamType)] st.

Definition _handleStreamData (ws : socket) (cd : ClientData) (message : JSValue)
  (now : time) (st : Server) : Server :=
  emit "stream-data"
    [("clientId", JStr (cd_id cd)); ("streamId", js_get message "streamId");
     ("data", js_get message "data");
     ("sequenceNumber", js_get message "sequenceNumber")] st.

Definition _handleStreamEnd (ws : socket) (cd : ClientData) (message : JSValue)
  (now : time) (st : Server) : Server :=
  let streamId := js_get message "streamId" in
  let st :=
    match find_key streamId with
    | Some k =>
        if bool_decide (is_Some (streams st !! k)) then
          emit "stream-ended" [("clientId", JStr (cd_id cd)); ("streamId", streamId)]
            (with_streams (delete k (streams st)) st)
        else st
    | None => st
    end in
  _sendToClient ws (stream_end_response streamId now) st.

Definition startStream (clientId streamId streamType : JSValue) (now : time)
  (st : Server) : Server * bool :=
  match _getClientByIdAndSocket clientId st with
  | Some (ws, _) => (_sendToClient ws (stream_start_msg streamId streamType now) st, true)
  | None => (st, false)
  end.

Definition sendStreamData (streamId data : JSValue) (sequenceNumber : JSValue)
  (now : time) (st : Server) : Server * bool :=
  match find_key streamId ≫= λ k, streams st !! k with
  | Some stream =>
      (_sendToClient (s_ws stream)
         (stream_data_msg streamId data sequenceNumber now) st, true)
  | None => (st, false)
  end.

Definition endStream (streamId : JSValue) (now : time) (st : Server)
  : Server * bool :=
  match find_key streamId ≫= λ k, (k,.) <$> streams st !! k with
  | Some (k, stream) =>
      let st := _sendToClient (s_ws stream) (stream_end_msg streamId now) st in
      (with_streams (delete k (streams st)) st, true)
  | None => (st, false)
  end.

(** [sendToClient(clientId, data)] looks the client up the way
    [sendRequest] does. *)
Definition sendToClient (clientId data : JSValue) (now : time) (st : Server)
  : Server * bool :=
  match _getClientByIdAndSocket JUndef st with
  | Some (ws, _) => (_sendToClient ws (data_msg data now) st, true)
  | None => (st, false)
  end.

(** ** Liveness *)

Definition _handleHeartbeat (ws : socket) (cd : ClientData) (message : JSValue)
  (now : time) (st : Server) : Server :=
  let st := upd_cd ws (cd_with_lastHeartbeat now) st in
  _sendToClient ws (heartbeat_response now) st.

Definition _handleBinaryMessage (ws : socket) (cd : ClientData) (st : Server)
  : Server :=
  emit "binary-data" [("clientId", JStr (cd_id cd))] st.

(** ** The dispatcher *)

(** What arrives on a socket: whether it is a [Buffer], and what
    [JSON.parse(rawData.toString())] gives ([None] when it throws). *)
Record RawData := {
  isBuffer : bool;
  parsed : option JSValue
}.

(** The [switch (message.type)]. *)
Definition dispatch (ws : socket) (cd : ClientData) (message : JSValue)
  (now : time) (st : Server) : Outcome :=
  match js_get_checked message "type" with
  | None => Threw st
  | Some ty =>
      let type_is s := strict_eq_str ty s in
      if type_is "handshake" then Returned (_handleHandshake ws cd message now st)
      else if type_is "auth" then Returned (_handleAuthentication ws cd message now st)
      else if type_is "sensor_data" then Returned (_handleSensorData ws cd message now st)
      else if type_is "data" then Returned (_handleDataMessage ws cd message now st)
      else if type_is "request" then Returned (_handleRequest ws cd message now st)
      else if type_is "response" then _handleResponse ws cd message now st
      else if type_is "subscribe" then Returned (_handleSubscribe ws cd message now st)
      else if type_is "unsubscribe" then Returned (_handleUnsubscribe ws cd message now st)
      else if type_is "publish" then Returned (_handlePublish ws cd message now st)
      else if type_is "rpc_call" then _handleRPCCall ws cd message now st
      else if type_is "stream_start" then Returned (_handleStreamStart ws cd message now st)
      else if type_is "stream_data" then Returned (_handleStreamData ws cd message now st)
      else if type_is "stream_end" then Returned (_handleStreamEnd ws cd message now st)
      else if type_is "heartbeat" then Returned (_handleHeartbeat ws cd message now st)
      else if type_is "ping" then Returned (_sendToClient ws (pong now) st)
      else
        match js_String ty with
        | Some t => Returned (_sendToClient ws (error ("Unknown message type: " +:+ t) now) st)
        | None => Threw st
        end
  end.

(** The [catch] block of [_handleClientMessage]. *)
Definition invalid_format (ws : socket) (now : time) (st : Server) : Server :=
  _sendToClient ws (error "Invalid message format" now) st.

Definition _handleClientMessage (ws : socket) (rawData : RawData) (now : time)
  (st : Server) : Server :=
  match clientData st !! ws with
  | None => st
  | Some cd0 =>
      match parsed rawData with
      | None =>
          if enableBinaryData (config st) && isBuffer rawData
          then _handleBinaryMessage ws cd0 st
          else invalid_format ws now st
      | Some message =>
          let cd := cd_with_dataReceived (S (dataReceived cd0))
                      (cd_with_lastDataTime (Some now) cd0) in
          let st := upd_cd ws (λ _, cd) st in
          match dispatch ws cd message now st with
          | Returned st => st
          | Threw st => invalid_format ws now st
          end
      end
  end.

(** ** The event loop

    Everything that can make the handler run: calls of its public methods
    by the application, events of the server and of the sockets, timers
    that fire and promises of collaborators that settle. *)

Inductive Event :=
  | EvStart
  | EvStop
  | EvConnection (ws : socket) (clientIP userAgent clientId : string)
  | EvMessage (ws : socket) (rawData : RawData)
  | EvPong (ws : socket)
  | EvClose (ws : socket) (code : Z) (reason : string)
  | EvTimer (h : nat)
  | EvSettled (promise : nat) (result : JSValue + JSValue)
  | EvSendRequest (clientId endpoint data : JSValue) (timeout : option Z)
      (requestId : string)
  | EvExecutor (client : socket) (requestId : string) (endpoint data : JSValue)
      (timeout : Z)
  | EvRespond (ws : socket) (requestId responseData : JSValue) (err : option JSValue)
  | EvPublish (topic data excludeClientId : JSValue)
  | EvRegisterRPCMethod (methodName : JSValue) (handler : RpcHandler)
  | EvUnregisterRPCMethod (methodName : JSValue)
  | EvSendToClient (clientId data : JSValue)
  | EvStartStream (clientId streamId streamType : JSValue)
  | EvSendStreamData (streamId data sequenceNumber : JSValue)
  | EvEndStream (streamId : JSValue).

(** The socket can still deliver events to its listeners. *)
Definition is_live (st : Server) (ws : socket) : bool :=
  bool_decide (readyState st !! ws = Some OPEN ∨ readyState st !! ws = Some CLOSING).

Definition step (now : time) (ev : Event) (st : Server) : Server :=
  match ev with
  | EvStart => start st
  | EvStop => stop st
  | EvConnection ws clientIP userAgent clientId =>
      (* the server hands over a new, open socket *)
      if isRunning st && bool_decide (readyState st !! ws = None)
      then _handleNewConnection ws clientIP userAgent clientId now
             (with_readyState (<[ws := OPEN]> (readyState st)) st)
      else st
  | EvMessage ws rawData =>
      if is_live st ws then _handleClientMessage ws rawData now st else st
  | EvPong ws =>
      if is_live st ws then on_pong ws now st else st
  | EvClose ws code reason =>
      (* the connection is gone; the [close] listener runs once *)
      if is_live st ws
      then _handleClientDisconnection ws code reason now
             (with_readyState (<[ws := CLOSED]> (readyState st)) st)
      else st
  | EvTimer h =>
      match timers st !! h with
      | Some (RequestTimeout requestId promise _) =>
          requestTimeout_fired requestId promise (clearTimer h st)
      | Some (AuthClose ws _) => authCloseTimeout ws (clearTimer h st)
      | Some (Heartbeat ws _) => heartbeatTick h ws now st
      | None => st
      end
  | EvSettled promise result =>
      match awaiting st !! promise with
      | Some (AwaitPostData ws data requestId) =>
          _saveToDatabase_resume ws data requestId result now
            (with_awaiting (delete promise (awaiting st)) st)
      | Some (AwaitRPC ws requestId) =>
          _handleRPCCall_resume ws requestId result now
            (with_awaiting (delete promise (awaiting st)) st)
      | None => st
      end
  | EvSendRequest clientId endpoint data timeout requestId =>
      (sendRequest clientId endpoint data timeout requestId now st).2
  | EvExecutor client requestId endpoint data timeout =>
      (sendRequest_executor client requestId endpoint data timeout now st).2
  | EvRespond ws requestId responseData err =>
      respond ws requestId responseData err now st
  | EvPublish topic data excludeClientId =>
      (publish topic data excludeClientId now st).1
  | EvRegisterRPCMethod methodName handler => registerRPCMethod methodName handler st
  | EvUnregisterRPCMethod methodName => unregisterRPCMethod methodName st
  | EvSendToClient clientId data => (sendToClient clientId data now st).1
  | EvStartStream clientId streamId streamType =>
      (startStream clientId streamId streamType now st).1
  | EvSendStreamData streamId data sequenceNumber =>
      (sendStreamData streamId data sequenceNumber now st).1
  | EvEndStream streamId => (endStream streamId now st).1
  end.

(** A run: events in the order they happen, each with the clock reading. *)
Definition run (evs : list (time * Event)) (st : Server) : Server :=
  foldl (λ st e, step e.1 e.2 st) st evs.

(** Observations on the trace. *)
Definition sent_to (ws : socket) (tr : list Effect) : list OutMsg :=
  omap (λ e, match e with
             | Send ws' m => if decide (ws' = ws) then Some m else None
             | _ => None
             end) tr.

Definition settlements (p : nat) (tr : list Effect) : list Settlement :=
  omap (λ e, match e with
             | Settle p' s => if decide (p' = p) then Some s else None
             | _ => None
             end) tr.

Definition postData_calls (tr : list Effect) : list (string * JSValue) :=
  omap (λ e, match e with PostData t r => Some (t, r) | _ => None end) tr.

Definition invocations (tr : list Effect) : list (Key * JSValue) :=
  omap (λ e, match e with Invoke m p => Some (m, p) | _ => None end) tr.

#[global] Arguments sent_to : simpl never.
#[global] Arguments settlements : simpl never.
#[global] Arguments postData_calls : simpl never.
#[global] Arguments invocations : simpl never.

(** A configuration for examples: the defaults of the constructor. *)
Definition default_config : Config :=
  {| enableAuthentication := false; authToken := "";
     dbTableName := "sensors_data"; requiredFields := []; fieldsToEncrypt := [];
     enableHeartbeat := true; heartbeatInterval := 30000; maxConnections := 100;
     enableDataValidation := true; enableRequestResponse := true;
     enablePubSub := true; enableRPC := true; enableStreaming := true;
     requestTimeout := 10000; enableBinaryData := true;
     clientTypes := ["microcontroller"; "application"; "service"] |}.

(** ** Scenarios used below *)

(** Shared-token authentication, and one required field for ingest. *)
Definition auth_config : Config :=
  {| enableAuthentication := true; authToken := "secret";
     dbTableName := "sensors_data"; requiredFields := ["temperature"];
     fieldsToEncrypt := [];
     enableHeartbeat := true; heartbeatInterval := 30000; maxConnections := 100;
     enableDataValidation := true; enableRequestResponse := true;
     enablePubSub := true; enableRPC := true; enableStreaming := true;
     requestTimeout := 10000; enableBinaryData := true;
     clientTypes := ["microcontroller"; "application"; "service"] |}.

(** A frame whose content is the JSON text of [message]. *)
Definition text (message : JSValue) : RawData :=
  {| isBuffer := true; parsed := Some message |}.

(** A started server with one connected client, socket [0]. *)
Definition one_client (cfg : Config) (dbInstance : option Db) : Server :=
  run [(0, EvStart); (1, EvConnection 0%nat "10.0.0.7" "agent" "client_1")]
    (constructor cfg dbInstance).

(** The [clientData] of that client. *)
Definition client_1 (cfg : Config) : ClientData :=
  {| cd_id := "client_1"; ip := "10.0.0.7"; userAgent := "agent";
     connectedAt := 1; lastHeartbeat := 1;
     isAuthenticated := negb (enableAuthentication cfg);
     dataReceived := 0%nat; lastDataTime := None;
     clientType := "unknown"; cd_subscriptions := ∅; capabilities := ∅ |}.

(** The same server after it is stopped and the socket has closed. *)
Definition stopped_then_closed : Server :=
  run [(2, EvStop); (3, EvClose 0%nat 1000 "Server shutdown")]
    (one_client default_config None).

(** Two connected clients, sockets [0] and [1]; the first has started
    stream ["s"]. *)
Definition stream_started : Server :=
  run [(0, EvStart);
       (1, EvConnection 0%nat "10.0.0.7" "agent" "client_1");
       (2, EvConnection 1%nat "10.0.0.8" "agent" "client_2");
       (3, EvMessage 0%nat (text (JObj [("type", JStr "stream_start");
                                       ("streamId", JStr "s");
                                       ("streamType", JStr "video")])))]
    (constructor default_config None).

Definition client_2 : ClientData :=
  {| cd_id := "client_2"; ip := "10.0.0.8"; userAgent := "agent";
     connectedAt := 2; lastHeartbeat := 2; isAuthenticated := true;
     dataReceived := 0%nat; lastDataTime := None;
     clientType := "unknown"; cd_subscriptions := ∅; capabilities := ∅ |}.

(** The second client starts a stream with the same id. *)
Definition stream_started_twice : Server :=
  step 4 (EvMessage 1%nat (text (JObj [("type", JStr "stream_start");
                                      ("streamId", JStr "s");
                                      ("streamType", JStr "audio")])))
    stream_started.

(** One message of type [data] per heartbeat interval, and no pong. *)
Definition reading : RawData :=
  text (JObj [("type", JStr "data"); ("data", JObj [("temperature", JNum 21)])]).



(** Ingest with validation, one required field and a store. *)
Definition ingest_config : Config :=
  {| enableAuthentication := false; authToken := "";
     dbTableName := "sensors_data"; requiredFields := ["temperature"];
     fieldsToEncrypt := [];
     enableHeartbeat := true; heartbeatInterval := 30000; maxConnections := 100;
     enableDataValidation := true; enableRequestResponse := true;
     enablePubSub := true; enableRPC := true; enableStreaming := true;
     requestTimeout := 10000; enableBinaryData := true;
     clientTypes := ["microcontroller"; "application"; "service"] |}.

Definition plain_db : Db := {| encrypt := None |}.

(** An [application] payload without the required field. *)
Definition application_message : JSValue :=
  JObj [("type", JStr "data"); ("dataType", JStr "application");
        ("data", JObj [("payload", JStr "on")])].

(** A [sensor] payload without the required field. *)
Definition sensor_message : JSValue :=
  JObj [("type", JStr "data"); ("dataType", JStr "sensor");
        ("data", JObj [("humidity", JNum 60)])].

(** The check of one required field in [_validateSensorData] fails: the
    field is absent, [null], or empty after trimming. *)
Definition required_field_fails (data : JSValue) (field : string) : Prop :=
  match get_own data field with
  | Some v => v = JUndef ∨ v = JNull ∨ ∃ s, js_String v = Some s ∧ trim s = ""
  | None => inherited_blank data field ≠ Some false
  end.

(** The test of the [forEach] in [publish]: the subscriber is registered,
    its id is not the excluded one, and its socket is open. *)
Definition is_recipient (st : Server) (excludeClientId : JSValue) (ws : socket)
  : bool :=
  match (if bool_decide (ws ∈ clients st) then clientData st !! ws else None) with
  | Some cd => negb (strict_eq_str excludeClientId (cd_id cd)) && is_open st ws
  | None => false
  end.

(** The subscribers of a topic; nobody when the topic has no entry. *)
Definition subscribers_of (st : Server) (topic : JSValue) : gset socket :=
  default ∅ (find_key topic ≫= λ k, subscriptions st !! k).

(** What is left of the entry of a topic once [ws] is taken out of it. *)
Definition without_subscriber (ws : socket) (entry : option (gset socket))
  : option (gset socket) :=
  match entry with
  | Some s => if decide (size (s ∖ {[ws]}) = 0%nat) then None else Some (s ∖ {[ws]})
  | None => None
  end.

(** One client that has subscribed to topic ["t"] and started the streams
    ["a"] and ["b"]. *)
Definition busy_client : Server :=
  run [(2, EvMessage 0%nat (text (JObj [("type", JStr "subscribe"); ("topic", JStr "t")])));
       (3, EvMessage 0%nat (text (JObj [("type", JStr "stream_start");
                                       ("streamId", JStr "a"); ("streamType", JStr "log")])));
       (4, EvMessage 0%nat (text (JObj [("type", JStr "stream_start");
                                       ("streamId", JStr "b"); ("streamType", JStr "log")])))]
    (one_client default_config None).

Definition busy_client_data : ClientData :=
  {| cd_id := "client_1"; ip := "10.0.0.7"; userAgent := "agent";
     connectedAt := 1; lastHeartbeat := 1; isAuthenticated := true;
     dataReceived := 3%nat; lastDataTime := Some 4;
     clientType := "unknown"; cd_subscriptions := {[KPrim (PStr "t")]};
     capabilities := ∅ |}.

(** A request is in flight: the executor of [sendRequest] has run for the
    client of socket [0].  The code as it is does not get there: the client
    lookup of [sendRequest] fails for every id.  The state shows what the
    code after the lookup does. *)
Definition request_in_flight : Server :=
  step 2 (EvExecutor 0%nat "req_1" (JStr "status") JNull 10000)
    (one_client default_config None).

(** The state a handler leaves behind, whether it returned or threw. *)
Definition outcome_state (o : Outcome) : Server :=
  match o with
  | Returned st => st
  | Threw st => st
  end.

(** The bookkeeping of outbound requests is consistent:
    - an entry of the pending table sits under the request id of its
      timer, and that timer is still set;
    - the promise of a timer that is still set has not been settled;
    - no two timers that are set belong to the same promise;
    - handles and promises in use are below the next free ones;
    - no promise has been settled twice. *)
Record pending_inv (st : Server) : Prop := {
  inv_entry : ∀ k request,
    pendingRequests st !! k = Some request →
    ∃ requestId delay,
      k = KPrim (PStr requestId)
      ∧ timers st !! pr_timeout request
        = Some (RequestTimeout requestId (pr_promise request) delay);
  inv_timer : ∀ h requestId p delay,
    timers st !! h = Some (RequestTimeout requestId p delay) →
    settlements p (trace st) = [] ∧ (p < nextPromise st)%nat;
  inv_timer_inj : ∀ h1 h2 r1 r2 p d1 d2,
    timers st !! h1 = Some (RequestTimeout r1 p d1) →
    timers st !! h2 = Some (RequestTimeout r2 p d2) →
    h1 = h2;
  inv_handles : ∀ h t, timers st !! h = Some t → (h < nextTimer st)%nat;
  inv_promises : ∀ p, settlements p (trace st) ≠ [] → (p < nextPromise st)%nat;
  inv_once : ∀ p, (length (settlements p (trace st)) ≤ 1)%nat
}.

(** A step that leaves the bookkeeping of outbound requests alone. *)
Definition same_requests (st st' : Server) : Prop :=
  pendingRequests st' = pendingRequests st
  ∧ timers st' = timers st
  ∧ nextTimer st' = nextTimer st
  ∧ (nextPromise st ≤ nextPromise st')%nat
  ∧ ∀ p, settlements p (trace st') = settlements p (trace st).

Definition is_request_timer (t : Timer) : bool :=
  match t with
  | RequestTimeout _ _ _ => true
  | _ => false
  end.

(** Every open socket belongs to a registered connection. *)
Definition open_inv (st : Server) : Prop :=
  ∀ ws, readyState st !! ws = Some OPEN →
        ws ∈ clients st ∧ is_Some (clientData st !! ws).

(** A step that registers and removes no connection and opens no socket. *)
Definition same_connections (st st' : Server) : Prop :=
  clients st' = clients st
  ∧ (∀ ws, readyState st' !! ws = Some OPEN → readyState st !! ws = Some OPEN)
  ∧ ∀ ws, is_Some (clientData st' !! ws) ↔ is_Some (clientData st !! ws).

(** Two connected clients, both subscribed to topic ["t"]. *)
Definition two_subscribers : Server :=
  run [(0, EvStart);
       (1, EvConnection 0%nat "10.0.0.7" "agent" "client_1");
       (2, EvConnection 1%nat "10.0.0.8" "agent" "client_2");
       (3, EvMessage 0%nat (text (JObj [("type", JStr "subscribe"); ("topic", JStr "t")])));
       (4, EvMessage 1%nat (text (JObj [("type", JStr "subscribe"); ("topic", JStr "t")])))]
    (constructor default_config None).

(** ** Steps that leave the registry of connections alone *)

(** The parts of the registry a handler may be allowed to change: the
    subscriptions, the authentication flag, the message counters. *)
Inductive Part := Subs | Auth | Count.

Definition nothing : Part → bool := λ _, false.

Definition only (p : Part) : Part → bool := λ q,
  match p, q with
  | Subs, Subs | Auth, Auth | Count, Count => true
  | _, _ => false
  end.

(** What a handler keeps of a [clientData] object: the identity of the
    connection and an authentication once granted always, the other parts
    unless they are [free]. *)
Definition cd_kept (free : Part → bool) (cd cd' : ClientData) : Prop :=
  cd_id cd' = cd_id cd
  ∧ ip cd' = ip cd
  ∧ userAgent cd' = userAgent cd
  ∧ connectedAt cd' = connectedAt cd
  ∧ (isAuthenticated cd = true → isAuthenticated cd' = true)
  ∧ (free Auth = false → isAuthenticated cd' = isAuthenticated cd)
  ∧ (free Subs = false → cd_subscriptions cd' = cd_subscriptions cd)
  ∧ (free Count = false →
       dataReceived cd' = dataReceived cd ∧ lastDataTime cd' = lastDataTime cd).

(** A step that registers and removes no connection: the configuration,
    the registry and its counter are the same, a socket that can deliver
    events still can, and every [clientData] object is kept. *)
Definition same_registry (free : Part → bool) (st st' : Server) : Prop :=
  config st' = config st
  ∧ clients st' = clients st
  ∧ connectionCount st' = connectionCount st
  ∧ (free Subs = false → subscriptions st' = subscriptions st)
  ∧ (∀ ws, is_live st' ws = is_live st ws)
  ∧ (∀ ws, readyState st' !! ws = None ↔ readyState st !! ws = None)
  ∧ (∀ ws, option_Forall2 (cd_kept free) (clientData st !! ws) (clientData st' !! ws)).

(** A socket the server has never seen has no [clientData]. *)
Definition known_inv (st : Server) : Prop :=
  ∀ ws, readyState st !! ws = None → clientData st !! ws = None.

(** The subscription index is consistent with the connections: no topic
    is kept without subscribers, and every subscriber of a topic is a
    connection whose own list of subscriptions has the topic. *)
Definition subscriptions_inv (st : Server) : Prop :=
  ∀ topic subscribers, subscriptions st !! topic = Some subscribers →
    subscribers ≠ ∅
    ∧ ∀ ws, ws ∈ subscribers →
        ∃ cd, clientData st !! ws = Some cd ∧ topic ∈ cd_subscriptions cd.

(** The registry and its counter agree: the registered sockets are the
    accepted connections that have not closed, the counter is their number
    and it respects the limit. *)
Record registry_inv (st : Server) : Prop := {
  reg_members : ∀ ws,
    ws ∈ clients st ↔ is_live st ws = true ∧ is_Some (clientData st !! ws);
  reg_count : connectionCount st = Z.of_nat (size (clients st));
  reg_bound : connectionCount st ≤ Z.max 0 (maxConnections (config st))
}.

Definition is_stop (ev : Event) : bool :=
  match ev with
  | EvStop => true
  | _ => false
  end.

(** The event is a message of type [auth] from [ws] that carries [token]. *)
Definition presents_token (ws : socket) (token : string) (ev : Event) : bool :=
  match ev with
  | EvMessage ws' rawData =>
      bool_decide (ws' = ws)
      && match parsed rawData with
         | Some message =>
             strict_eq_str (js_get message "type") "auth"
             && strict_eq_str (js_get message "token") token
         | None => false
         end
  | _ => false
  end.

(** The [clientData] object [_handleNewConnection] creates. *)
Definition new_clientData (cfg : Config) (clientId clientIP agent : string)
  (now : time) : ClientData :=
  {| cd_id := clientId; ip := clientIP; userAgent := agent;
     connectedAt := now; lastHeartbeat := now;
     isAuthenticated := negb (enableAuthentication cfg);
     dataReceived := 0%nat; lastDataTime := None;
     clientType := "unknown"; cd_subscriptions := ∅; capabilities := ∅ |}.

(** The run does not call [stop]. *)
Definition stop_free (evs : list (time * Event)) : bool :=
  forallb (λ e, negb (is_stop e.2)) evs.

(** What may change in the [clientData] of [ws] over a run: everything
    but its identity, and the authentication flag only if the token is
    presented on [ws]. *)
Definition unless_token (ws : socket) (token : string)
  (evs : list (time * Event)) : Part → bool := λ p,
  match p with
  | Auth => existsb (λ e, presents_token ws token e.2) evs
  | _ => true
  end.

(** The [case] labels of the [switch] in [_handleClientMessage]. *)
Definition message_types : list string :=
  ["handshake"; "auth"; "sensor_data"; "data"; "request"; "response";
   "subscribe"; "unsubscribe"; "publish"; "rpc_call"; "stream_start";
   "stream_data"; "stream_end"; "heartbeat"; "ping"].

(** [clientData] after the dispatcher has counted a message. *)
Definition counted (now : time) (cd : ClientData) : ClientData :=
  cd_with_dataReceived (S (dataReceived cd)) (cd_with_lastDataTime (Some now) cd).

(** Messages of the publish-subscribe protocol. *)
Definition subscribe_to (topic : JSValue) : JSValue :=
  JObj [("type", JStr "subscribe"); ("topic", topic)].

Definition unsubscribe_from (topic : JSValue) : JSValue :=
  JObj [("type", JStr "unsubscribe"); ("topic", topic)].

(** What the encryption loop of [_saveToDatabase] makes of a field value:
    an absent, [null] or [undefined] value is left alone, another value is
    replaced by the encryption of its string form, and is left as it is
    when the conversion or [encrypt] throws. *)
Definition encrypted (enc : string → option JSValue) (entry : option JSValue)
  : option JSValue :=
  match entry with
  | Some v =>
      if match v with JPrim PNull | JPrim PUndef => false | _ => true end
      then match js_String v ≫= enc with
           | Some c => Some c
           | None => Some v
           end
      else Some v
  | None => None
  end.


(** A reading has arrived on a server with a store: the call of the store
    is pending. *)
Definition reading_sent : Server :=
  step 2 (EvMessage 0%nat reading) (one_client ingest_config (Some plain_db)).

(** A message of type [auth] carrying [token]. *)
Definition auth_with (token : JSValue) : JSValue :=
  JObj [("type", JStr "auth"); ("token", token)].

(** ** The manager: configuration from the environment

    [websocketManager.js] builds the configuration of the handler from
    environment variables; a variable that is not set is [None]. *)

(** [s.split(sep)] for a separator of one character. *)
Fixpoint split (sep : ascii) (s : string) : list string :=
  match s with
  | EmptyString => [EmptyString]
  | String a s' =>
      if Ascii.eqb a sep then EmptyString :: split sep s'
      else match split sep s' with
           | piece :: pieces => String a piece :: pieces
           | [] => [String a EmptyString]
           end
  end.

Definition _parseEnvArray (envValue : option string) : list string :=
  match envValue with
  | None => []
  | Some s =>
      if negb (truthy (JStr s)) then []
      else List.filter (λ item, truthy (JStr item)) (trim <$> split "," s)
  end.

(** The [clientTypes] entry of [getWebsocketConfig()]:
    [this._parseEnvArray(process.env.WS_CLIENT_TYPES) || [...]]. *)
Definition getWebsocketConfig_clientTypes (WS_CLIENT_TYPES : option string)
  : list string :=
  let parsed := _parseEnvArray WS_CLIENT_TYPES in
  if truthy (JArr ((λ s, JStr s) <$> parsed)) then parsed
  else ["microcontroller"; "application"; "service"].

(** The first character of the string, if any, is no white space. *)
Definition starts_clean (s : string) : Prop :=
  match s with
  | EmptyString => True
  | String a _ => is_white_space a = false
  end.

(** The string has no white space at either end. *)
Definition trimmed (s : string) : Prop :=
  starts_clean s ∧ starts_clean (String.rev s).

(** The separator does not occur in the string. *)
Fixpoint free_of (sep : ascii) (s : string) : Prop :=
  match s with
  | EmptyString => True
  | String a s' => a ≠ sep ∧ free_of sep s'
  end.

(** ** Logging

    [_log(level, message)] prints when the level of the message is at
    least the configured one.  [levels] is the lookup in the table of the
    four levels.  A name that [Object.prototype] defines finds the inherited
    member, a function or an object, which is represented by an empty
    object: it is truthy and compares as [NaN].  Any other name is
    [undefined]. *)
Definition levels (name : string) : JSValue :=
  if String.eqb name "debug" then JNum 0
  else if String.eqb name "info" then JNum 1
  else if String.eqb name "warn" then JNum 2
  else if String.eqb name "error" then JNum 3
  else if bool_decide (name ∈ object_prototype_names) then JObj []
  else JUndef.

(** [a >= b] for numbers; [false] when a side is [undefined], a function
    or an object, which compare as [NaN]. *)
Definition js_ge (a b : JSValue) : bool :=
  match a, b with
  | JPrim (PNum x), JPrim (PNum y) => (y <=? x)%Z
  | _, _ => false
  end.

(** Whether [_log(level, ...)] prints under [config.logLevel]. *)
Definition _log (logLevel level : string) : bool :=
  let configLevel := js_or (levels logLevel) (JNum 1) in
  js_ge (levels level) configLevel.

(** ** The manager: requests

    [_handleIncomingRequest] is the listener of ["request"].  It is an
    [async] function: it runs up to its [await] while the event is emitted,
    and the rest when the promise of the request handler has settled, which
    is a later step of the event loop. *)

(** What the call of a request handler does before it returns: it throws
    (a handler that is not an [async] function can), or it gives the value
    or promise that [await] waits for. *)
Inductive HandlerCall :=
  | HandlerThrows (thrown : JSValue)
  | HandlerAwaited.

Definition RequestHandler := JSValue → JSValue → HandlerCall.

(** [registerRequestHandler] and [unregisterRequestHandler], for the
    endpoint names an application uses. *)
Definition registerRequestHandler (endpoint : string) (handler : RequestHandler)
  (requestHandlers : gmap Key RequestHandler) : gmap Key RequestHandler :=
  <[KPrim (PStr endpoint) := handler]> requestHandlers.

Definition unregisterRequestHandler (endpoint : string)
  (requestHandlers : gmap Key RequestHandler) : gmap Key RequestHandler :=
  delete (KPrim (PStr endpoint)) requestHandlers.

(** The [error] argument [thrown] of a call [respond(null, error)], as
    [respond] takes it: the response reports a failure when [thrown] is
    truthy, and then carries [error.message || null]. *)
Definition respond_error (thrown : JSValue) : option JSValue :=
  if truthy thrown then Some (js_get thrown "message") else None.

(** How far [_handleIncomingRequest] has got when [emit] returns. *)
Inductive RequestProgress :=
  | Answered (st : Server)   (* [respond] has run *)
  | AwaitsHandler            (* suspended at [await handler(data, clientInfo)] *)
  | Unanswered.              (* it has thrown again in its [catch] block *)

(** [_handleIncomingRequest] up to its [await]; [clientInfo] is what
    [_getClientInfo] gives.  Without handler the error message renders the
    endpoint; when that throws, the [catch] block, which renders it again,
    throws too, and [respond] is not called. *)
Definition _handleIncomingRequest (requestHandlers : gmap Key RequestHandler)
  (ws : socket) (clientInfo requestId endpoint data : JSValue)
  (now : time) (st : Server) : RequestProgress :=
  match find_key endpoint ≫= λ k, requestHandlers !! k with
  | Some handler =>
      match handler data clientInfo with
      | HandlerThrows thrown =>
          Answered (respond ws requestId JNull (respond_error thrown) now st)
      | HandlerAwaited => AwaitsHandler
      end
  | None =>
      match js_String endpoint with
      | Some e =>
          Answered (respond ws requestId JNull
                      (Some (JStr ("Endpoint '" +:+ e +:+ "' not found"))) now st)
      | None => Unanswered
      end
  end.

(** [_handleIncomingRequest] after its [await], for a handler registered
    under a name: the promise of the handler is fulfilled with [inl result]
    or rejected with [inr thrown]. *)
Definition _handleIncomingRequest_resume (ws : socket) (requestId : JSValue)
  (result : JSValue + JSValue) (now : time) (st : Server) : Server :=
  match result with
  | inl result => respond ws requestId result None now st
  | inr thrown => respond ws requestId JNull (respond_error thrown) now st
  end.

(** ** The listeners of the manager

    [main.js] creates the handler through [WebsocketManager], whose
    [_setupEventHandlers] attaches a listener to every event of the
    handler.  [emit] runs the listeners before it returns and lets an
    exception of a listener through.  Each of these listeners first writes
    a console line that renders fields of the event in a template literal,
    and throws when such a field has no string form; what it does
    afterwards ([_triggerEvent]) is inside a [try]. *)

(** The field [f] of the event can be rendered. *)
Definition renders (fields : list (string * JSValue)) (f : string) : bool :=
  bool_decide (is_Some (js_String (default JUndef (assoc f fields)))).

(** Whether the listener that the manager attaches to [name] throws. *)
Definition listener_throws (name : string) (fields : list (string * JSValue))
  : bool :=
  if String.eqb name "client-handshake" then negb (renders fields "clientType")
  else if String.eqb name "data-received" then negb (renders fields "dataType")
  else if String.eqb name "client-subscribed" then negb (renders fields "topic")
  else if String.eqb name "client-unsubscribed" then negb (renders fields "topic")
  else if String.eqb name "stream-started"
  then negb (renders fields "streamId" && renders fields "streamType")
  else if String.eqb name "stream-ended" then negb (renders fields "streamId")
  else if String.eqb name "database-insert" then negb (renders fields "insertId")
  else false.

(** The loop over [this.streams] in [_handleClientDisconnection] with these
    listeners attached.  The [for...of] loop meets the sessions in the
    order in which they were created, which the finite map does not record:
    [visit] is that order.  An exception of the ['stream-ended'] listener
    leaves the loop. *)
Fixpoint end_streams (id : string) (visit : list Key) (st : Server) : Outcome :=
  match visit with
  | [] => Returned st
  | streamId :: rest =>
      match streams st !! streamId with
      | Some stream =>
          if String.eqb (s_clientId stream) id then
            let fields :=
              [("clientId", JStr id); ("streamId", key_value st streamId)] in
            let st := emit "stream-ended" fields
                        (with_streams (delete streamId (streams st)) st) in
            if listener_throws "stream-ended" fields then Threw st
            else end_streams id rest st
          else end_streams id rest st
      | None => end_streams id rest st
      end
  end.

Module Listening.

(** [_handleClientDisconnection] with the listeners of the manager
    attached: an exception that leaves the loop leaves the method, before
    the registry and the counter are updated. *)
Definition _handleClientDisconnection (visit : list Key) (ws : socket) (code : Z)
  (reason : string) (now : time) (st : Server) : Outcome :=
  match clientData st !! ws with
  | None => Returned st
  | Some cd =>
      (* Clean up subscriptions *)
      let st := with_subscriptions
                  (set_fold (unsubscribe_topic ws) (subscriptions st)
                     (cd_subscriptions cd)) st in
      (* Clean up streams *)
      match end_streams (cd_id cd) visit st with
      | Threw st => Threw st
      | Returned st =>
          let st := with_clients (clients st ∖ {[ws]}) st in
          let st := with_connectionCount (connectionCount st - 1) st in
          Returned
            (emit "client-disconnected"
               [("clientId", JStr (cd_id cd)); ("clientType", JStr (clientType cd));
                ("connectedDuration", JNum (now - connectedAt cd));
                ("dataReceived", JNum (Z.of_nat (dataReceived cd)))] st)
      end
  end.

(** [_handleStreamStart] with the listeners of the manager attached: the
    session is stored and answered before the event is emitted. *)
Definition _handleStreamStart (ws : socket) (cd : ClientData) (message : JSValue)
  (now : time) (st : Server) : Outcome :=
  if negb (enableStreaming (config st)) then
    Returned (_sendToClient ws (error "Streaming not enabled" now) st)
  else
    let streamId := js_get message "streamId" in
    let streamType := js_get message "streamType" in
    let '(k, st) := alloc streamId st in
    let st := with_streams
                (<[k := {| s_clientId := cd_id cd; s_ws := ws;
                           streamType := streamType; startedAt := now |}]>
                   (streams st)) st in
    let st := _sendToClient ws (stream_start_response streamId now) st in
    let fields := [("clientId", JStr (cd_id cd)); ("streamId", streamId);
                   ("streamType", streamType)] in
    let st := emit "stream-started" fields st in
    if listener_throws "stream-started" fields then Threw st else Returned st.

(** The message listener of a connection for a parsed message of type
    [stream_start]: what the listener of the manager throws is caught by the
    [catch] block of [_handleClientMessage]. *)
Definition stream_start_message (ws : socket) (message : JSValue) (now : time)
  (st : Server) : Server :=
  if is_live st ws then
    match clientData st !! ws with
    | None => st
    | Some cd0 =>
        let cd := cd_with_dataReceived (S (dataReceived cd0))
                    (cd_with_lastDataTime (Some now) cd0) in
        let st := upd_cd ws (λ _, cd) st in
        match _handleStreamStart ws cd message now st with
        | Returned st => st
        | Threw st => invalid_format ws now st
        end
    end
  else st.

End Listening.

(** A value that [String] cannot render: its own [toString] is no function. *)
Definition unrenderable : JSValue := JObj [("toString", JNum 1)].

(** One client has started a stream under an id that cannot be rendered,
    then the stream ["s2"]; its socket has closed.  The first message is
    answered twice: the session is stored and acknowledged, then the
    listener on ['stream-started'] throws and the [catch] block reports an
    invalid format. *)
Definition two_streams_closed : Server :=
  let st := one_client default_config None in
  let st := Listening.stream_start_message 0%nat
              (JObj [("type", JStr "stream_start"); ("streamId", unrenderable);
                     ("streamType", JStr "video")]) 2 st in
  let st := Listening.stream_start_message 0%nat
              (JObj [("type", JStr "stream_start"); ("streamId", JStr "s2");
                     ("streamType", JStr "video")]) 3 st in
  with_readyState (<[0%nat := CLOSED]> (readyState st)) st.

(** The stream id that a message of type [stream_start] announces can be
    rendered. *)
Definition renders_stream_id (rawData : RawData) : bool :=
  match parsed rawData with
  | Some message =>
      negb (strict_eq_str (js_get message "type") "stream_start")
      || bool_decide (is_Some (js_String (js_get message "streamId")))
  | None => true
  end.

(** The stream ids that the messages of a run announce can all be rendered,
    so that the ['stream-ended'] listener does not throw when their owner
    disconnects. *)
Definition renders_stream_ids (evs : list (time * Event)) : bool :=
  forallb (λ e : time * Event,
    match e.2 with
    | EvMessage _ rawData => renders_stream_id rawData
    | _ => true
    end) evs.

(** Every session id in the table can be rendered: an id that is an
    object is one of the stored references, and [String] has a string for
    it. *)
Definition ids_inv (st : Server) : Prop :=
  ∀ k s, streams st !! k = Some s →
    match k with
    | KPrim _ => True
    | KRef r => ∃ v, refs st !! r = Some v ∧ is_Some (js_String v)
    end.

(** A step that starts no session and forgets no stored reference. *)
Definition kept_streams (st st' : Server) : Prop :=
  (∀ k s, streams st' !! k = Some s → streams st !! k = Some s)
  ∧ ∃ l, refs st' = refs st ++ l.

(** * Properties *)

(** ** Basic facts about the primitive operations *)

Lemma is_open_log st e ws : is_open (log e st) ws = is_open st ws.
Proof. done. Qed.

Lemma is_open_upd_cd st f ws ws' : is_open (upd_cd ws' f st) ws = is_open st ws.
Proof. done. Qed.

Lemma guarded_close ws code reason st :
  (if is_open st ws then ws_close ws code reason st else st)
  = ws_close ws code reason st.
Proof. unfold ws_close. by destruct (is_open st ws). Qed.

Lemma strict_eq_str_undef s : strict_eq_str JUndef s = false.
Proof. done. Qed.

Lemma strict_eq_str_true v s : strict_eq_str v s = true ↔ v = JStr s.
Proof.
  destruct v as [[]| |]; simpl; try (split; [done|by intros [=]]).
  rewrite String.eqb_eq. split; [by intros ->|by intros [= ->]].
Qed.

Lemma one_client_data :
  clientData (one_client default_config None) !! 0%nat
  = Some (client_1 default_config).
Proof. vm_compute. reflexivity. Qed.

Lemma one_client_auth_data :
  clientData (one_client auth_config None) !! 0%nat = Some (client_1 auth_config).
Proof. vm_compute. reflexivity. Qed.

(** ** Authentication gate (C1) *)

(** C1, as the code behaves: under the shared-token policy a [subscribe]
    message from a connection that has not authenticated is processed like
    any other.  The subscription index changes, the reply is the success
    acknowledgment and not an authentication-required error, and the
    connection is still unauthenticated afterwards.  Only
    [_handleDataMessage] checks [isAuthenticated]. *)
Theorem unauthenticated_subscribe_is_processed
    (st : Server) (ws : socket) (cd : ClientData) (t : string) (now : time) :
  enableAuthentication (config st) = true →
  enablePubSub (config st) = true →
  clientData st !! ws = Some cd →
  isAuthenticated cd = false →
  is_open st ws = true →
  let message := JObj [("type", JStr "subscribe"); ("topic", JStr t)] in
  let st' := _handleClientMessage ws (text message) now st in
  subscriptions st' !! KPrim (PStr t)
    = Some ({[ws]} ∪ default ∅ (subscriptions st !! KPrim (PStr t)))
  ∧ (isAuthenticated <$> clientData st' !! ws) = Some false
  ∧ trace st' = trace st ++
      [Send ws (subscribe_response (JStr t) now);
       Emit "client-subscribed" [("clientId", JStr (cd_id cd)); ("topic", JStr t)]].
Proof.
  intros Hauth Hpub Hcd Hunauth Hopen message st'.
  subst st' message. unfold _handleClientMessage, text. rewrite Hcd. cbn [parsed].
  unfold dispatch.
  cbn [js_get_checked js_get get_own assoc String.eqb Ascii.eqb Bool.eqb default
       strict_eq_str].
  unfold _handleSubscribe. cbn.
  rewrite Hpub. cbn.
  unfold _sendToClient. cbn.
  replace (is_open _ ws) with true.
  cbn. split_and!.
  - by rewrite lookup_insert_eq.
  - rewrite !lookup_alter_eq, Hcd. cbn. by rewrite Hunauth.
  - by rewrite <- app_assoc.
Qed.

Lemma unauthenticated_subscribe_is_processed_witness :
  let st := one_client auth_config None in
  let st' := _handleClientMessage 0%nat
               (text (JObj [("type", JStr "subscribe"); ("topic", JStr "alerts")])) 2 st in
  subscriptions st' !! KPrim (PStr "alerts")
    = Some ({[0%nat]} ∪ default ∅ (subscriptions st !! KPrim (PStr "alerts")))
  ∧ (isAuthenticated <$> clientData st' !! 0%nat) = Some false
  ∧ trace st' = trace st ++
      [Send 0%nat (subscribe_response (JStr "alerts") 2);
       Emit "client-subscribed"
         [("clientId", JStr "client_1"); ("topic", JStr "alerts")]].
Proof.
  apply (unauthenticated_subscribe_is_processed
           (one_client auth_config None) 0%nat (client_1 auth_config) "alerts" 2);
    [reflexivity | reflexivity | exact one_client_auth_data | reflexivity
    | vm_compute; reflexivity].
Defined.

(** The sibling path: a [data] message from the same connection is turned
    away by the guard at the head of [_handleDataMessage]; apart from the
    message counter, only the error reply is produced. *)
Lemma unauthenticated_data_is_rejected
    (st : Server) (ws : socket) (cd : ClientData) (message : JSValue) (now : time) :
  enableAuthentication (config st) = true →
  isAuthenticated cd = false →
  is_open st ws = true →
  _handleDataMessage ws cd message now st
  = log (Send ws (error "Authentication required" now)) st.
Proof.
  intros Hauth Hunauth Hopen. unfold _handleDataMessage, _sendToClient.
  by rewrite Hauth, Hunauth, Hopen.
Qed.

(** ** Outbound requests (C2) *)

Lemma _getClientByIdAndSocket_undefined st :
  _getClientByIdAndSocket JUndef st = None.
Proof.
  unfold _getClientByIdAndSocket.
  destruct (list_find _ _) as [[i wc]|] eqn:Hfind; [|done].
  apply list_find_Some in Hfind as (_ & Hid & _). done.
Qed.

(** C2, as the code behaves: [sendRequest] calls
    [_getClientByIdAndSocket()] without the client id, so the lookup compares
    every registered id with [undefined] and finds nobody.  For a client id
    that is registered, the call fails with the client-not-found error and
    nothing else happens: no pending entry, no timer, no request message. *)
Theorem sendRequest_registered_client_not_found
    (st : Server) (ws : socket) (cd : ClientData) (endpoint data : JSValue)
    (timeout : option Z) (requestId : string) (now : time) :
  ws ∈ clients st →
  clientData st !! ws = Some cd →
  sendRequest (JStr (cd_id cd)) endpoint data timeout requestId now st
  = (ClientNotFound (JStr (cd_id cd)), st).
Proof.
  intros _ _. unfold sendRequest.
  by rewrite _getClientByIdAndSocket_undefined.
Qed.

Lemma sendRequest_registered_client_not_found_witness :
  0%nat ∈ clients (one_client default_config None) ∧
  (cd_id <$> clientData (one_client default_config None) !! 0%nat) = Some "client_1" ∧
  sendRequest (JStr "client_1") (JStr "status") JNull None "req_1" 2
    (one_client default_config None)
  = (ClientNotFound (JStr "client_1"), one_client default_config None).
Proof.
  split; [vm_compute; reflexivity|]. split; [vm_compute; reflexivity|].
  apply (sendRequest_registered_client_not_found
           (one_client default_config None) 0%nat (client_1 default_config));
    [vm_compute; reflexivity | exact one_client_data].
Defined.

(** ** Connection counter (C10) *)

(** C10, as the code behaves: [stop] empties the registry and resets the
    counter, and the [close] event of a socket it has closed then runs
    [_handleClientDisconnection], which decrements the counter although the
    registry has no entry left to delete.  With one client connected, stop
    followed by the close of its socket leaves the counter at [-1] and the
    registry empty. *)
Theorem connectionCount_negative_after_stop_and_close :
  connectionCount (one_client default_config None) = 1
  ∧ size (clients (one_client default_config None)) = 1%nat
  ∧ connectionCount stopped_then_closed = -1
  ∧ size (clients stopped_then_closed) = 0%nat.
Proof. vm_compute. repeat split; reflexivity. Qed.

(** ** Trace observations *)

Lemma sent_to_app ws tr1 tr2 :
  sent_to ws (tr1 ++ tr2) = sent_to ws tr1 ++ sent_to ws tr2.
Proof. apply omap_app. Qed.

Lemma sent_to_Send ws m : sent_to ws [Send ws m] = [m].
Proof. unfold sent_to. simpl. by rewrite decide_True. Qed.

Lemma sent_to_Emit ws name fields : sent_to ws [Emit name fields] = [].
Proof. done. Qed.

(** ** Starting a stream (C6) *)

(** C6 fails as stated: client 2 starts a stream whose id is already the id
    of an active session of client 1.  The session is replaced by one owned
    by client 2 and the start is acknowledged as a success. *)
Lemma stream_start_duplicate_id_replaces_session :
  (s_clientId <$> streams stream_started !! KPrim (PStr "s")) = Some "client_1"
  ∧ (s_clientId <$> streams stream_started_twice !! KPrim (PStr "s")) = Some "client_2"
  ∧ sent_to 1%nat (trace stream_started_twice)
    = sent_to 1%nat (trace stream_started) ++ [stream_start_response (JStr "s") 4].
Proof. vm_compute. repeat split; reflexivity. Qed.

(** C6, amended: with streaming enabled, a [stream_start] message always
    sets the session of its stream id to a new session owned by the sender,
    whether or not a session with that id was active, leaves the other
    sessions alone, and acknowledges the start as a success. *)
Theorem stream_start_always_creates_session
    (st : Server) (ws : socket) (cd : ClientData) (message : JSValue) (now : time) :
  enableStreaming (config st) = true →
  let streamId := js_get message "streamId" in
  let k := store_key streamId (length (refs st)) in
  let st' := _handleStreamStart ws cd message now st in
  streams st' !! k
    = Some {| s_clientId := cd_id cd; s_ws := ws;
              streamType := js_get message "streamType"; startedAt := now |}
  ∧ (∀ k', k' ≠ k → streams st' !! k' = streams st !! k')
  ∧ (is_open st ws = true →
     sent_to ws (trace st')
     = sent_to ws (trace st) ++ [stream_start_response streamId now]).
Proof.
  intros Hen streamId k st'. subst st' k. unfold _handleStreamStart.
  rewrite Hen. cbn [negb]. fold streamId.
  assert (alloc streamId st = (store_key streamId (length (refs st)),
            match streamId with JPrim _ => st | _ => with_refs (refs st ++ [streamId]) st end))
    as -> by by destruct streamId.
  set (st1 := match streamId with JPrim _ => st | _ => _ end).
  assert (streams st1 = streams st ∧ trace st1 = trace st
          ∧ ∀ w, is_open st1 w = is_open st w) as (Hs & Ht & Ho)
    by (subst st1; by destruct streamId).
  unfold _sendToClient.
  replace (is_open (with_streams _ st1) ws) with (is_open st ws)
    by (by rewrite <- Ho).
  split_and!.
  - destruct (is_open st ws); cbn; by rewrite Hs, lookup_insert_eq.
  - intros k' Hk'. destruct (is_open st ws); cbn; by rewrite Hs, lookup_insert_ne.
  - intros ->. cbn. rewrite Ht, !sent_to_app, sent_to_Send, sent_to_Emit.
    by rewrite app_nil_r.
Qed.

Lemma stream_start_always_creates_session_witness :
  let message := JObj [("type", JStr "stream_start"); ("streamId", JStr "s");
                       ("streamType", JStr "audio")] in
  let st' := _handleStreamStart 1%nat client_2 message 4 stream_started in
  streams st' !! KPrim (PStr "s")
    = Some {| s_clientId := "client_2"; s_ws := 1%nat;
              streamType := JStr "audio"; startedAt := 4 |}
  ∧ (∀ k', k' ≠ KPrim (PStr "s") → streams st' !! k' = streams stream_started !! k')
  ∧ (is_open stream_started 1%nat = true →
     sent_to 1%nat (trace st')
     = sent_to 1%nat (trace stream_started) ++ [stream_start_response (JStr "s") 4]).
Proof.
  apply (stream_start_always_creates_session stream_started 1%nat client_2
           (JObj [("type", JStr "stream_start"); ("streamId", JStr "s");
                  ("streamType", JStr "audio")]) 4).
  reflexivity.
Defined.

(** ** Heartbeat monitor (C9) *)





(** ** Ingest validation (C8) *)

Lemma postData_calls_app tr1 tr2 :
  postData_calls (tr1 ++ tr2) = postData_calls tr1 ++ postData_calls tr2.
Proof. apply omap_app. Qed.

Lemma check_required_cons data field rest :
  check_required data (field :: rest)
  = match get_own data field with
    | Some (JPrim PUndef) | Some (JPrim PNull) => Some false
    | Some v => js_String v ≫= λ s,
           if String.eqb (trim s) "" then Some false else check_required data rest
    | None =>
        match inherited_blank data field with
        | Some false => check_required data rest
        | _ => Some false
        end
    end.
Proof. reflexivity. Qed.

Lemma check_required_fails data fields :
  (∃ field, field ∈ fields ∧ required_field_fails data field) →
  check_required data fields ≠ Some true.
Proof.
  intros (field & Hin & Hfail).
  induction fields as [|f fields IH]; [by apply elem_of_nil in Hin|].
  rewrite check_required_cons.
  apply elem_of_cons in Hin as [<-|Hin].
  - unfold required_field_fails in Hfail.
    destruct (get_own data field) as [v|].
    + destruct Hfail as [->|[->|(s & Hs & Hblank)]]; [done..|].
      destruct v as [[]| |]; try done; rewrite Hs; cbn; by rewrite Hblank.
    + by destruct (inherited_blank data field) as [[]|].
  - destruct (get_own data f) as [v|].
    + destruct v as [[]| |]; try done;
        (destruct (js_String _) as [str|]; [cbn|done]);
        (destruct (String.eqb (trim str) ""); [done|by apply IH]).
    + destruct (inherited_blank data f) as [[]|]; [done|by apply IH|done].
Qed.

(** C8 fails as stated: the configuration requires the field
    [temperature]; an [application] payload without it passes validation
    (only a [payload] or [data] property is asked of that category) and is
    handed to the store; no failure acknowledgment is sent. *)
Lemma application_payload_without_required_field_is_stored :
  let st := one_client ingest_config (Some plain_db) in
  let st' := step 2 (EvMessage 0%nat (text application_message)) st in
  requiredFields (config st) = ["temperature"]
  ∧ required_field_fails (js_get application_message "data") "temperature"
  ∧ postData_calls (trace st) = []
  ∧ postData_calls (trace st')
    = [("sensors_data",
        JObj [("payload", JStr "on"); ("client_id", JStr "client_1");
              ("client_ip", JStr "10.0.0.7"); ("client_type", JStr "unknown");
              ("data_type", JStr "application"); ("received_at", toISOString 2)])]
  ∧ sent_to 0%nat (trace st') = sent_to 0%nat (trace st).
Proof.
  split; [reflexivity|]. split; [vm_compute; discriminate|].
  vm_compute. repeat split; reflexivity.
Qed.

(** C8, amended: when validation is enabled, the sender has passed the
    authentication gate and its socket is open, a payload that fails the
    check of its declared category gets a failure acknowledgment
    ([data_response] with [success] false) and no call of the store is made.
    For every declared category other than [application] and [service] the
    required fields are part of that check: a required field that is absent,
    [null] or empty after trimming makes it fail. *)
Theorem failed_validation_is_not_persisted
    (st : Server) (ws : socket) (cd : ClientData) (message : JSValue) (now : time) :
  enableDataValidation (config st) = true →
  enableAuthentication (config st) && negb (isAuthenticated cd) = false →
  is_open st ws = true →
  let data := js_or (js_or (js_get message "data") (js_get message "payload")) message in
  let dataType := js_or (js_get message "dataType") (JStr "general") in
  let st' := _handleDataMessage ws cd message now st in
  (_validateData (config st) data dataType ≠ Some true →
     (∃ reason, trace st' = trace st ++
        [Send ws (data_response false (Some reason) None (js_get message "requestId") now)])
     ∧ postData_calls (trace st') = postData_calls (trace st))
  ∧ (strict_eq_str dataType "application" = false →
     strict_eq_str dataType "service" = false →
     (∃ field, field ∈ requiredFields (config st) ∧ required_field_fails data field) →
     _validateData (config st) data dataType ≠ Some true).
Proof.
  intros Hval Hauth Hopen data dataType st'. split.
  - intros Hfail. subst st'. unfold _handleDataMessage.
    rewrite Hauth, Hval. fold data dataType.
    destruct (_validateData (config st) data dataType) as [[]|]; [done|..];
      unfold _sendToClient; rewrite Hopen; cbn;
      (split; [by eexists|]);
      by rewrite postData_calls_app, app_nil_r.
  - intros Happ Hsvc Hreq. unfold _validateData, _validateSensorData.
    rewrite Happ, Hsvc.
    destruct (negb (truthy data) || negb (typeof_object data)); [done|].
    rewrite Tauto.if_same. by apply check_required_fails.
Qed.

Lemma failed_validation_is_not_persisted_witness :
  let st := one_client ingest_config (Some plain_db) in
  let st' := _handleDataMessage 0%nat (client_1 ingest_config) sensor_message 2 st in
  (∃ reason, trace st' = trace st ++
     [Send 0%nat (data_response false (Some reason) None JUndef 2)])
  ∧ postData_calls (trace st') = postData_calls (trace st).
Proof.
  assert (is_open (one_client ingest_config (Some plain_db)) 0%nat = true) as Hopen
    by (vm_compute; reflexivity).
  destruct (failed_validation_is_not_persisted
              (one_client ingest_config (Some plain_db)) 0%nat
              (client_1 ingest_config) sensor_message 2
              eq_refl eq_refl Hopen) as [Hack Hreq].
  apply Hack, Hreq; [reflexivity..|].
  exists "temperature". split; [apply list_elem_of_here|].
  vm_compute. discriminate.
Defined.

(** ** Publish *)

Lemma with_trace_id st : with_trace (trace st) st = st.
Proof. by destruct st. Qed.

Lemma is_recipient_with_trace st tr exclude ws :
  is_recipient (with_trace tr st) exclude ws = is_recipient st exclude ws.
Proof. done. Qed.

Lemma publish_one_step topic data exclude now st n ws :
  publish_one topic data exclude now (st, n) ws
  = if is_recipient st exclude ws
    then (log (Send ws (publish_msg topic data now)) st, S n)
    else (st, n).
Proof.
  unfold publish_one, is_recipient.
  destruct (if bool_decide (ws ∈ clients st) then clientData st !! ws else None)
    as [cd|]; [|done].
  destruct (negb (strict_eq_str exclude (cd_id cd))); [|done]. cbn.
  unfold _sendToClient. by destruct (is_open st ws).
Qed.

Lemma publish_one_foldl_gen topic data exclude now (P : socket → bool) l :
  ∀ st n, (∀ ws, is_recipient st exclude ws = P ws) →
  foldl (publish_one topic data exclude now) (st, n) l
  = (with_trace
       (trace st ++ ((λ ws, Send ws (publish_msg topic data now))
                       <$> filter (λ ws, P ws = true) l)) st,
     (n + length (filter (λ ws, P ws = true) l))%nat).
Proof.
  induction l as [|ws l IH]; intros st n HP.
  - cbn. by rewrite app_nil_r, with_trace_id, Nat.add_0_r.
  - cbn [foldl]. rewrite filter_cons, publish_one_step, HP.
    destruct (P ws) eqn:Hrec.
    + rewrite decide_True by done. rewrite IH by (intros w; apply (HP w)).
      cbn. f_equal; [|lia]. by rewrite <- app_assoc.
    + rewrite decide_False by done. by apply IH.
Qed.

Lemma publish_one_foldl topic data exclude now st n l :
  foldl (publish_one topic data exclude now) (st, n) l
  = (with_trace
       (trace st ++ ((λ ws, Send ws (publish_msg topic data now))
                       <$> filter (λ ws, is_recipient st exclude ws = true) l)) st,
     (n + length (filter (λ ws, is_recipient st exclude ws = true) l))%nat).
Proof. by apply publish_one_foldl_gen. Qed.

Lemma is_recipient_spec st exclude ws :
  is_recipient st exclude ws = true ↔
  ws ∈ clients st ∧ is_open st ws = true
  ∧ ∃ cd, clientData st !! ws = Some cd ∧ exclude ≠ JStr (cd_id cd).
Proof.
  unfold is_recipient. case_bool_decide as Hin.
  - destruct (clientData st !! ws) as [cd|].
    + rewrite andb_true_iff, negb_true_iff.
      split.
      * intros [Hne Hopen]. split_and!; [done..|]. exists cd. split; [done|].
        intros Heq. apply strict_eq_str_true in Heq. congruence.
      * intros (_ & Hopen & cd' & [= <-] & Hne). split; [|done].
        apply not_true_is_false. by rewrite strict_eq_str_true.
    + split; [done|]. by intros (_ & _ & cd & ? & _).
  - split; [done|]. by intros (? & _).
Qed.

Lemma sent_to_other ws (l : list socket) (f : socket → OutMsg) :
  ws ∉ l → sent_to ws ((λ w, Send w (f w)) <$> l) = [].
Proof.
  induction l as [|w l IH]; [done|].
  intros Hnot. apply not_elem_of_cons in Hnot as [Hne Hnot].
  unfold sent_to in *. cbn. rewrite decide_False by done. by apply IH.
Qed.

Lemma publish_spec st topic data exclude now :
  ∃ recipients : list socket,
    NoDup recipients
    ∧ (∀ ws, ws ∈ recipients ↔
         ws ∈ subscribers_of st topic ∧ is_recipient st exclude ws = true)
    ∧ (publish topic data exclude now st).1
      = with_trace
          (trace st ++ ((λ ws, Send ws (publish_msg topic data now)) <$> recipients)) st
    ∧ (publish topic data exclude now st).2 = length recipients.
Proof.
  unfold publish, subscribers_of.
  destruct (find_key topic ≫= _) as [subscribers|]; cbn [default].
  - rewrite publish_one_foldl. cbn [fst snd].
    eexists. split_and!; [| |done..].
    + apply NoDup_filter, NoDup_elements.
    + intros ws. by rewrite list_elem_of_filter, elem_of_elements, (comm and).
  - exists []. cbn. split_and!; [constructor| |by rewrite app_nil_r, with_trace_id|done].
    intros ws. split; [by intros ?%elem_of_nil|]. by intros [?%elem_of_empty _].
Qed.

(** The effect of [publish] in any state: the recipients are the
    subscribers that pass the test of the loop. *)
Lemma publish_effect
    (st : Server) (topic data excludeClientId : JSValue) (now : time) :
  let st' := (publish topic data excludeClientId now st).1 in
  let publishCount := (publish topic data excludeClientId now st).2 in
  (∃ recipients : list socket,
     NoDup recipients
     ∧ (∀ ws, ws ∈ recipients ↔
          ws ∈ subscribers_of st topic ∧ ws ∈ clients st ∧ is_open st ws = true
          ∧ ∃ cd, clientData st !! ws = Some cd ∧ excludeClientId ≠ JStr (cd_id cd))
     ∧ st' = with_trace
               (trace st ++ ((λ ws, Send ws (publish_msg topic data now)) <$> recipients))
               st
     ∧ publishCount = length recipients)
  ∧ (subscribers_of st topic = ∅ → st' = st ∧ publishCount = 0%nat)
  ∧ (∀ ws cd, clientData st !! ws = Some cd → excludeClientId = JStr (cd_id cd) →
       sent_to ws (trace st') = sent_to ws (trace st)).
Proof.
  intros st' publishCount.
  destruct (publish_spec st topic data excludeClientId now)
    as (rs & Hnd & Hrs & Hst & Hn).
  fold st' in Hst. fold publishCount in Hn.
  split_and!.
  - exists rs. split_and!; [done| |done..].
    intros ws. rewrite Hrs, is_recipient_spec. tauto.
  - intros Hempty.
    assert (rs = []) as ->.
    { apply elem_of_nil_inv. intros ws Hin. apply Hrs in Hin as [Hin _].
      rewrite Hempty in Hin. by apply elem_of_empty in Hin. }
    split; [|done]. rewrite Hst. cbn. by rewrite app_nil_r, with_trace_id.
  - intros ws cd Hcd Hex. rewrite Hst. cbn. rewrite sent_to_app, sent_to_other.
    + by rewrite app_nil_r.
    + intros Hin. apply Hrs in Hin as [_ Hrec].
      apply is_recipient_spec in Hrec as (_ & _ & cd' & Hcd' & Hne). congruence.
Qed.

(** ** Disconnection (C7) *)

Lemma unsubscribe_topic_lookup ws topic subs k :
  unsubscribe_topic ws topic subs !! k
  = if decide (k = topic) then without_subscriber ws (subs !! k) else subs !! k.
Proof.
  unfold unsubscribe_topic, without_subscriber.
  destruct (decide (k = topic)) as [->|Hne].
  - destruct (subs !! topic) as [s|] eqn:Hs; [|done].
    destruct (decide _); [by rewrite lookup_delete_eq|by rewrite lookup_insert_eq].
  - destruct (subs !! topic) as [s|] eqn:Hs; [|done].
    destruct (decide _); [by rewrite lookup_delete_ne|by rewrite lookup_insert_ne].
Qed.

Lemma unsubscribe_topics_lookup ws subs (topics : gset Key) k :
  set_fold (unsubscribe_topic ws) subs topics !! k
  = if decide (k ∈ topics) then without_subscriber ws (subs !! k) else subs !! k.
Proof.
  revert k.
  refine (set_fold_ind_L (λ r (X : gset Key), ∀ k, r !! k
            = if decide (k ∈ X) then without_subscriber ws (subs !! k) else subs !! k)
            (unsubscribe_topic ws) subs _ _ topics).
  - intros k. by rewrite decide_False by set_solver.
  - intros x X r Hx IH k. rewrite unsubscribe_topic_lookup.
    destruct (decide (k = x)) as [->|Hne].
    + rewrite IH, decide_False by done. by rewrite decide_True by set_solver.
    + rewrite IH. destruct (decide (k ∈ X)).
      * by rewrite decide_True by set_solver.
      * by rewrite decide_False by set_solver.
Qed.

Lemma without_subscriber_spec ws entry :
  (ws ∉ default ∅ (without_subscriber ws entry))
  ∧ without_subscriber ws entry ≠ Some ∅
  ∧ (∀ ws', ws' ≠ ws →
       ws' ∈ default ∅ (without_subscriber ws entry) ↔ ws' ∈ default ∅ entry).
Proof.
  unfold without_subscriber. destruct entry as [s|]; cbn; [|set_solver].
  destruct (decide _) as [Hz|Hnz]; cbn.
  - apply size_empty_inv in Hz. split_and!; [set_solver|done|set_solver].
  - split_and!; [set_solver| |set_solver].
    intros [= Hempty]. rewrite Hempty in Hnz. by rewrite size_empty in Hnz.
Qed.

Lemma disconnect_streams_fold (id : string) (st0 : Server) (m : gmap Key Stream) :
  let r := map_fold (λ streamId stream st,
             if String.eqb (s_clientId stream) id
             then emit "stream-ended"
                    [("clientId", JStr id); ("streamId", key_value st streamId)]
                    (with_streams (delete streamId (streams st)) st)
             else st) st0 m in
  (∀ k, streams r !! k
        = match m !! k with
          | Some s => if String.eqb (s_clientId s) id then None else streams st0 !! k
          | None => streams st0 !! k
          end)
  ∧ subscriptions r = subscriptions st0
  ∧ clients r = clients st0
  ∧ clientData r = clientData st0
  ∧ readyState r = readyState st0
  ∧ connectionCount r = connectionCount st0.
Proof.
  cbv zeta.
  apply (map_fold_weak_ind (λ r m,
    (∀ k, streams r !! k
          = match m !! k with
            | Some s => if String.eqb (s_clientId s) id then None else streams st0 !! k
            | None => streams st0 !! k
            end)
    ∧ subscriptions r = subscriptions st0
    ∧ clients r = clients st0
    ∧ clientData r = clientData st0
    ∧ readyState r = readyState st0
    ∧ connectionCount r = connectionCount st0)).
  - split_and!; [|done..]. intros k. by rewrite lookup_empty.
  - intros i x m' r Hi (Hs & Hsub & Hcl & Hcd & Hrs & Hcc).
    destruct (String.eqb (s_clientId x) id) eqn:Hown.
    + cbn. split_and!; [|done..]. intros k.
      destruct (decide (k = i)) as [->|Hne].
      * by rewrite lookup_delete_eq, lookup_insert_eq, Hown.
      * by rewrite lookup_delete_ne, lookup_insert_ne, Hs.
    + split_and!; [|done..]. intros k.
      destruct (decide (k = i)) as [->|Hne].
      * by rewrite lookup_insert_eq, Hown, Hs, Hi.
      * by rewrite lookup_insert_ne, Hs.
Qed.

(** When the ids of the sessions the connection owns can be rendered, the
    loop over the sessions runs to its end: it deletes these sessions and
    leaves the others, the subscriptions and the registry alone. *)
Lemma end_streams_returns cid visit st :
  (∀ k s, k ∈ visit → streams st !! k = Some s → s_clientId s = cid →
     is_Some (js_String (key_value st k))) →
  ∃ st',
    end_streams cid visit st = Returned st'
    ∧ (∀ k, streams st' !! k
            = match streams st !! k with
              | Some s => if String.eqb (s_clientId s) cid && bool_decide (k ∈ visit)
                          then None else Some s
              | None => None
              end)
    ∧ subscriptions st' = subscriptions st
    ∧ clients st' = clients st
    ∧ clientData st' = clientData st
    ∧ readyState st' = readyState st
    ∧ connectionCount st' = connectionCount st
    ∧ refs st' = refs st.
Proof.
  revert st. induction visit as [|k visit IH]; intros st Hr.
  - exists st. split_and!; try done. intros k.
    destruct (streams st !! k) as [s|]; [|done].
    rewrite bool_decide_eq_false_2 by apply not_elem_of_nil.
    by rewrite andb_false_r.
  - cbn [end_streams]. destruct (streams st !! k) as [stream|] eqn:Hk.
    + destruct (String.eqb (s_clientId stream) cid) eqn:Hown.
      * assert (listener_throws "stream-ended"
                  [("clientId", JStr cid); ("streamId", key_value st k)] = false) as ->.
        { apply String.eqb_eq in Hown.
          unfold listener_throws, renders.
          change (assoc "streamId" _) with (Some (key_value st k)).
          cbn [default from_option id String.eqb Ascii.eqb Bool.eqb].
          rewrite bool_decide_eq_true_2; [done|]. by apply (Hr k stream); [left|..]. }
        cbv zeta.
        set (st1 := emit _ _ _).
        destruct (IH st1) as (st' & -> & Hs & Hsub & Hcl & Hcd & Hrs & Hcc & Hrf).
        { intros k' s Hin Hk' Hown'.
          change (key_value st1 k') with (key_value st k').
          subst st1. cbn in Hk'. apply lookup_delete_Some in Hk' as [Hne Hk'].
          apply (Hr k' s); [by right|done..]. }
        exists st'. split_and!; [done| |done..]. intros k'. rewrite Hs.
        subst st1. cbn [streams emit log with_trace with_streams].
        destruct (decide (k' = k)) as [->|Hne].
        -- rewrite lookup_delete_eq, Hk, Hown.
           by rewrite bool_decide_eq_true_2 by left.
        -- rewrite lookup_delete_ne by done.
           destruct (streams st !! k') as [s|]; [|done].
           destruct (String.eqb (s_clientId s) cid); [|done]. cbn [andb].
           destruct (decide (k' ∈ visit)) as [Hin|Hout].
           ++ by rewrite !bool_decide_eq_true_2 by (done || by right).
           ++ rewrite !bool_decide_eq_false_2; [done| |done].
              by intros [?|?]%elem_of_cons.
      * destruct (IH st) as (st' & -> & Hs & Hrest).
        { intros k' s Hin. apply Hr. by right. }
        exists st'. split; [done|]. split; [|done]. intros k'. rewrite Hs.
        destruct (decide (k' = k)) as [->|Hne].
        -- by rewrite Hk, Hown.
        -- destruct (streams st !! k') as [s|]; [|done].
           destruct (String.eqb (s_clientId s) cid); [|done]. cbn [andb].
           destruct (decide (k' ∈ visit)) as [Hin|Hout].
           ++ by rewrite !bool_decide_eq_true_2 by (done || by right).
           ++ rewrite !bool_decide_eq_false_2; [done| |done].
              by intros [?|?]%elem_of_cons.
    + destruct (IH st) as (st' & -> & Hs & Hrest).
      { intros k' s Hin. apply Hr. by right. }
      exists st'. split; [done|]. split; [|done]. intros k'. rewrite Hs.
      destruct (streams st !! k') as [s|] eqn:Hk'; [|done].
      destruct (String.eqb (s_clientId s) cid); [|done]. cbn [andb].
      destruct (decide (k' ∈ visit)) as [Hin|Hout].
      * by rewrite !bool_decide_eq_true_2 by (done || by right).
      * rewrite !bool_decide_eq_false_2; [done| |done].
        intros [->|?]%elem_of_cons; [congruence|done].
Qed.

(** The loop over the sessions changes the table of the sessions and the
    trace, nothing else. *)
Lemma end_streams_record cid visit st st' :
  end_streams cid visit st = Returned st' →
  st' = with_trace (trace st') (with_streams (streams st') st).
Proof.
  revert st. induction visit as [|k visit IH]; intros st.
  - cbn. intros [= <-]. by destruct st.
  - cbn [end_streams]. destruct (streams st !! k) as [stream|]; [|apply IH].
    destruct (String.eqb _ _); [|apply IH]. cbv zeta.
    destruct (listener_throws _ _); [done|].
    intros Hst'%IH. destruct st', st. cbn in Hst' |- *.
    injection Hst' as ?; subst. reflexivity.
Qed.

Lemma disconnect_streams_record (cid : string) (st0 : Server) (m : gmap Key Stream) :
  let r := map_fold (λ streamId stream st,
             if String.eqb (s_clientId stream) cid
             then emit "stream-ended"
                    [("clientId", JStr cid); ("streamId", key_value st streamId)]
                    (with_streams (delete streamId (streams st)) st)
             else st) st0 m in
  r = with_trace (trace r) (with_streams (streams r) st0).
Proof.
  cbv zeta.
  apply (map_fold_weak_ind (λ r _, r = with_trace (trace r) (with_streams (streams r) st0))).
  - cbv beta. destruct st0; reflexivity.
  - intros k s m' r _ IH. cbv beta in *. destruct (String.eqb _ _); [|done].
    destruct r, st0. cbn in IH |- *. injection IH as ?; subst. reflexivity.
Qed.

(** The sessions left by a loop that ran to its end. *)
Lemma end_streams_streams cid visit st st' :
  end_streams cid visit st = Returned st' →
  ∀ k, streams st' !! k
       = match streams st !! k with
         | Some s => if String.eqb (s_clientId s) cid && bool_decide (k ∈ visit)
                     then None else Some s
         | None => None
         end.
Proof.
  revert st. induction visit as [|k0 visit IH]; intros st.
  - cbn. intros [= <-] k. destruct (streams st !! k); [|done].
    rewrite bool_decide_eq_false_2 by apply not_elem_of_nil. by rewrite andb_false_r.
  - cbn [end_streams]. intros Hend k.
    destruct (streams st !! k0) as [stream|] eqn:Hk0.
    + destruct (String.eqb (s_clientId stream) cid) eqn:Hown.
      * cbv zeta in Hend. destruct (listener_throws _ _); [done|].
        rewrite (IH _ Hend k). cbn [streams emit log with_trace with_streams].
        destruct (decide (k = k0)) as [->|Hne].
        -- rewrite lookup_delete_eq, Hk0, Hown.
           by rewrite bool_decide_eq_true_2 by left.
        -- rewrite lookup_delete_ne by done.
           destruct (streams st !! k) as [s|]; [|done].
           destruct (String.eqb (s_clientId s) cid); [|done]. cbn [andb].
           destruct (decide (k ∈ visit)) as [Hin|Hout].
           ++ by rewrite !bool_decide_eq_true_2 by (done || by right).
           ++ rewrite !bool_decide_eq_false_2; [done| |done].
              by intros [?|?]%elem_of_cons.
      * rewrite (IH _ Hend k).
        destruct (decide (k = k0)) as [->|Hne]; [by rewrite Hk0, Hown|].
        destruct (streams st !! k) as [s|]; [|done].
        destruct (String.eqb (s_clientId s) cid); [|done]. cbn [andb].
        destruct (decide (k ∈ visit)) as [Hin|Hout].
        -- by rewrite !bool_decide_eq_true_2 by (done || by right).
        -- rewrite !bool_decide_eq_false_2; [done| |done].
           by intros [?|?]%elem_of_cons.
    + rewrite (IH _ Hend k).
      destruct (streams st !! k) as [s|] eqn:Hk; [|done].
      destruct (String.eqb (s_clientId s) cid); [|done]. cbn [andb].
      destruct (decide (k ∈ visit)) as [Hin|Hout].
      * by rewrite !bool_decide_eq_true_2 by (done || by right).
      * rewrite !bool_decide_eq_false_2; [done| |done].
        intros [->|?]%elem_of_cons; [congruence|done].
Qed.

(** A [stream_start] message whose id and type can be rendered is handled
    with the listeners attached as the event loop handles it. *)
Lemma stream_start_message_returns ws message now st :
  js_get_checked message "type" = Some (JStr "stream_start") →
  is_Some (js_String (js_get message "streamId")) →
  is_Some (js_String (js_get message "streamType")) →
  Listening.stream_start_message ws message now st
  = step now (EvMessage ws (text message)) st.
Proof.
  intros Hty Hid Htype. unfold Listening.stream_start_message. cbn [step].
  destruct (is_live st ws); [|done]. unfold _handleClientMessage.
  destruct (clientData st !! ws) as [cd0|]; [|done].
  cbn [parsed text]. cbv zeta. unfold dispatch. rewrite Hty. cbn.
  unfold Listening._handleStreamStart, _handleStreamStart.
  cbn [config upd_cd with_clientData].
  destruct (negb (enableStreaming _)); [done|].
  cbv zeta. destruct (alloc _ _) as [k st1].
  unfold listener_throws, renders. cbn.
  by rewrite !bool_decide_eq_true_2 by done.
Qed.

(** C7 fails on the program: a client has started a session under an id
    that cannot be rendered and then the session ["s2"], and its socket has
    closed.  The loop deletes the first session and emits ['stream-ended'];
    the listener of the manager throws, and the exception leaves
    [_handleClientDisconnection]: the session ["s2"] of the connection is
    still in the table, so that [sendStreamData] to it returns [true], the
    closed socket is still in the registry, and the counter still counts
    it. *)
Theorem disconnection_aborted_by_listener :
  ∃ st',
    Listening._handleClientDisconnection [KRef 0; KPrim (PStr "s2")] 0%nat 1006 "" 5
      two_streams_closed = Threw st'
    ∧ key_value two_streams_closed (KRef 0) = unrenderable
    ∧ (s_clientId <$> streams two_streams_closed !! KRef 0) = Some "client_1"
    ∧ (s_clientId <$> streams two_streams_closed !! KPrim (PStr "s2")) = Some "client_1"
    ∧ streams st' !! KRef 0 = None
    ∧ (s_clientId <$> streams st' !! KPrim (PStr "s2")) = Some "client_1"
    ∧ (sendStreamData (JStr "s2") JNull JNull 6 st').2 = true
    ∧ is_live st' 0%nat = false
    ∧ clients st' = {[0%nat]}
    ∧ connectionCount st' = 1.
Proof. eexists. split; [vm_compute; reflexivity|]. vm_compute. repeat split; reflexivity. Qed.

(** X26: the close listener of a connection, with the listeners of the
    manager attached, when the ids of the sessions the connection owns can
    be rendered: it returns, having taken the socket out of the subscribers
    of every topic in the subscription set of the connection (no such topic
    is left with an empty entry), deleted every session the connection owns
    and no other, and removed the socket from the registry and from the
    counter.  Afterwards no publish, to any topic, sends anything to the
    socket, and [sendStreamData] to a session the connection owned returns
    [false] and does nothing. *)
Theorem disconnection_cleans_up_when_listeners_return
    (st : Server) (ws : socket) (cd : ClientData) (code : Z) (reason : string)
    (now : time) (visit : list Key) :
  clientData st !! ws = Some cd →
  (∀ k, is_Some (streams st !! k) → k ∈ visit) →
  (∀ k s, streams st !! k = Some s → s_clientId s = cd_id cd →
     is_Some (js_String (key_value st k))) →
  ∃ st',
    Listening._handleClientDisconnection visit ws code reason now st = Returned st'
    ∧ (∀ topic, topic ∈ cd_subscriptions cd →
         (ws ∉ default ∅ (subscriptions st' !! topic))
         ∧ subscriptions st' !! topic ≠ Some ∅
         ∧ (∀ ws', ws' ≠ ws →
              ws' ∈ default ∅ (subscriptions st' !! topic)
              ↔ ws' ∈ default ∅ (subscriptions st !! topic)))
    ∧ (∀ k s, streams st !! k = Some s →
         streams st' !! k
         = if String.eqb (s_clientId s) (cd_id cd) then None else Some s)
    ∧ clients st' = clients st ∖ {[ws]}
    ∧ connectionCount st' = connectionCount st - 1
    ∧ (∀ topic data excludeClientId t,
         sent_to ws (trace (publish topic data excludeClientId t st').1)
         = sent_to ws (trace st'))
    ∧ (∀ streamId k s data sequenceNumber t,
         find_key streamId = Some k →
         streams st !! k = Some s →
         s_clientId s = cd_id cd →
         sendStreamData streamId data sequenceNumber t st' = (st', false)).
Proof.
  intros Hcd Hvisit Hrender. unfold Listening._handleClientDisconnection.
  rewrite Hcd. cbv zeta.
  set (st1 := with_subscriptions _ st).
  destruct (end_streams_returns (cd_id cd) visit st1)
    as (st2 & -> & Hs & Hsub & Hcl & _ & _ & Hcc & _).
  { intros k s _. apply Hrender. }
  eexists. split; [done|].
  set (st' := emit _ _ _).
  assert (subscriptions st'
          = set_fold (unsubscribe_topic ws) (subscriptions st) (cd_subscriptions cd))
    as Hsub' by (subst st'; cbn; by rewrite Hsub).
  assert (∀ k s, streams st !! k = Some s →
            streams st' !! k
            = if String.eqb (s_clientId s) (cd_id cd) then None else Some s) as Hs'.
  { intros k s Hk. subst st'. cbn. rewrite Hs. subst st1. cbn. rewrite Hk.
    rewrite bool_decide_eq_true_2 by (apply Hvisit; by rewrite Hk).
    by rewrite andb_true_r. }
  assert (clients st' = clients st ∖ {[ws]}) as Hcl'
    by (subst st'; cbn; by rewrite Hcl).
  assert (connectionCount st' = connectionCount st - 1) as Hcc'
    by (subst st'; cbn; by rewrite Hcc).
  clearbody st'. clear Hs Hsub Hcl Hcc.
  split_and!; [|done..| |].
  - intros topic Hin. rewrite Hsub', unsubscribe_topics_lookup, decide_True by done.
    apply without_subscriber_spec.
  - intros topic data exclude t.
    destruct (publish_spec st' topic data exclude t) as (rs & _ & Hrs & -> & _).
    cbn. rewrite sent_to_app, sent_to_other; [by rewrite app_nil_r|].
    intros [_ Hrec]%Hrs. apply is_recipient_spec in Hrec as (Hin & _).
    rewrite Hcl' in Hin. set_solver.
  - intros streamId k s data seq t Hkey Hk Hown. unfold sendStreamData.
    rewrite Hkey. cbn. rewrite (Hs' k s Hk).
    by rewrite (proj2 (String.eqb_eq _ _) Hown).
Qed.

Lemma busy_client_lookup : clientData busy_client !! 0%nat = Some busy_client_data.
Proof. vm_compute. reflexivity. Qed.

Lemma busy_client_streams k s :
  streams busy_client !! k = Some s → k = KPrim (PStr "a") ∨ k = KPrim (PStr "b").
Proof.
  assert (streams busy_client
          = <[KPrim (PStr "a") := {| s_clientId := "client_1"; s_ws := 0%nat;
                                     streamType := JStr "log"; startedAt := 3 |}]>
              (<[KPrim (PStr "b") := {| s_clientId := "client_1"; s_ws := 0%nat;
                                        streamType := JStr "log"; startedAt := 4 |}]> ∅))
    as -> by (vm_compute; reflexivity).
  intros [[? _]|[_ [[? _]|[_ ?]]%lookup_insert_Some]]%lookup_insert_Some; auto.
  by rewrite lookup_empty in *.
Qed.

Lemma disconnection_cleans_up_when_listeners_return_witness :
  ∃ st',
    Listening._handleClientDisconnection [KPrim (PStr "a"); KPrim (PStr "b")]
      0%nat 1006 "" 5 busy_client = Returned st'
    ∧ clients st' = clients busy_client ∖ {[0%nat]}
    ∧ connectionCount st' = connectionCount busy_client - 1
    ∧ (∀ k s, streams busy_client !! k = Some s → streams st' !! k = None).
Proof.
  destruct (disconnection_cleans_up_when_listeners_return busy_client 0%nat
              busy_client_data 1006 "" 5 [KPrim (PStr "a"); KPrim (PStr "b")]
              busy_client_lookup)
    as (st' & Hst' & _ & Hstreams & Hcl & Hcc & _ & _).
  - intros k [s Hk]. destruct (busy_client_streams k s Hk) as [-> | ->].
    + apply list_elem_of_here.
    + apply list_elem_of_further, list_elem_of_here.
  - intros k s Hk _. destruct (busy_client_streams k s Hk) as [-> | ->]; by eexists.
  - exists st'. split; [exact Hst'|]. split; [exact Hcl|]. split; [exact Hcc|].
    intros k s Hk. rewrite (Hstreams k s Hk).
    destruct (busy_client_streams k s Hk) as [-> | ->];
      revert Hk; vm_compute; by intros [= <-].
Defined.

(** X27: whenever the close listener of a connection returns with the
    listeners of the manager attached, it has computed the state that the
    event loop computes for the close event: the same registry, counter,
    subscriptions and sessions.  Only the events emitted on the way may come
    in another order, so the two states are compared without their traces. *)
Theorem close_listener_agrees_with_event_loop st ws cd code reason now visit st' :
  clientData st !! ws = Some cd →
  (∀ k, is_Some (streams st !! k) → k ∈ visit) →
  Listening._handleClientDisconnection visit ws code reason now st = Returned st' →
  with_trace [] st' = with_trace [] (_handleClientDisconnection ws code reason now st).
Proof.
  intros Hcd Hvisit. unfold Listening._handleClientDisconnection, _handleClientDisconnection.
  rewrite Hcd. cbv zeta.
  set (st1 := with_subscriptions _ st).
  destruct (end_streams (cd_id cd) visit st1) as [st2|] eqn:Hend; [|done].
  intros [= <-].
  pose proof (end_streams_record _ _ _ _ Hend) as Hrec.
  pose proof (end_streams_streams _ _ _ _ Hend) as Hs.
  pose proof (disconnect_streams_record (cd_id cd) st1 (streams st1)) as Hrec'.
  destruct (disconnect_streams_fold (cd_id cd) st1 (streams st1)) as (Hs' & _).
  cbv zeta in Hrec', Hs'. set (r := map_fold _ st1 (streams st1)) in *.
  assert (streams st2 = streams r) as Heq.
  { apply map_eq. intros k. rewrite Hs, Hs'.
    destruct (streams st1 !! k) as [s|] eqn:Hk; [|done].
    rewrite bool_decide_eq_true_2, andb_true_r; [done|].
    apply Hvisit. change (streams st) with (streams st1). by rewrite Hk. }
  clearbody r st1. clear Hend Hs Hs'.
  destruct st2, r, st1. cbn in Hrec, Hrec', Heq |- *.
  injection Hrec as ?. injection Hrec' as ?. subst. reflexivity.
Qed.

Lemma close_listener_agrees_with_event_loop_witness :
  ∃ st',
    Listening._handleClientDisconnection [KPrim (PStr "a"); KPrim (PStr "b")]
      0%nat 1006 "" 5 busy_client = Returned st'
    ∧ with_trace [] st'
      = with_trace [] (_handleClientDisconnection 0%nat 1006 "" 5 busy_client).
Proof.
  eexists. split; [vm_compute; reflexivity|].
  apply (close_listener_agrees_with_event_loop busy_client 0%nat busy_client_data 1006 "" 5
           [KPrim (PStr "a"); KPrim (PStr "b")]).
  - exact busy_client_lookup.
  - intros k [s Hk]. destruct (busy_client_streams k s Hk) as [-> | ->].
    + apply list_elem_of_here.
    + apply list_elem_of_further, list_elem_of_here.
  - vm_compute. reflexivity.
Defined.

(** ** Shutdown *)

(** Two states are equal when their fields are. *)
Ltac fields :=
  repeat match goal with st : Server |- _ => destruct st end;
  unfold log, emit, clearTimer in *;
  unfold with_server, with_isRunning, with_connectionCount, with_clients,
    with_pendingRequests, with_subscriptions, with_rpcMethods, with_streams,
    with_clientData, with_readyState, with_timers, with_nextTimer, with_awaiting,
    with_nextPromise, with_refs, with_trace in *;
  cbn in *;
  repeat match goal with
         | H : Build_Server _ _ _ _ _ _ _ _ _ _ _ _ _ _ _ _ _ _ = _ |- _ =>
             injection H as ?; subst
         end;
  cbn; try done.

Lemma settlements_app p tr1 tr2 :
  settlements p (tr1 ++ tr2) = settlements p tr1 ++ settlements p tr2.
Proof. apply omap_app. Qed.

Lemma settlements_Close p (l : list socket) code reason :
  settlements p ((λ ws, Close ws code reason) <$> l) = [].
Proof. by induction l. Qed.

Lemma stop_timers_fold (st0 : Server) (m : gmap Key PendingRequest) :
  let r := map_fold (λ _ request st, clearTimer (pr_timeout request) st) st0 m in
  (∀ k request, m !! k = Some request → timers r !! pr_timeout request = None)
  ∧ (∀ h, timers r !! h = None ∨ timers r !! h = timers st0 !! h)
  ∧ r = with_timers (timers r) st0.
Proof.
  cbv zeta.
  apply (map_fold_weak_ind (λ r m,
    (∀ k request, m !! k = Some request → timers r !! pr_timeout request = None)
    ∧ (∀ h, timers r !! h = None ∨ timers r !! h = timers st0 !! h)
    ∧ r = with_timers (timers r) st0)).
  - split_and!.
    + intros k request Hk. by rewrite lookup_empty in Hk.
    + intros h. by right.
    + fields.
  - intros i x m' r Hi (Hm & Ht & Hr). split_and!.
    + intros k request Hk. unfold clearTimer. cbn.
      destruct (decide (pr_timeout x = pr_timeout request)) as [->|Hne];
        [by rewrite lookup_delete_eq|].
      rewrite lookup_delete_ne by done.
      apply lookup_insert_Some in Hk as [[_ <-]|[_ Hk]]; [done|by eapply Hm].
    + intros h. unfold clearTimer. cbn.
      destruct (decide (pr_timeout x = h)) as [->|Hne];
        [left; by rewrite lookup_delete_eq|].
      rewrite lookup_delete_ne by done. apply Ht.
    + clear -Hr. fields.
Qed.

Lemma stop_close_fold (st0 : Server) (X : gset socket) :
  let r := set_fold (λ ws st,
             if is_open st ws then ws_close ws 1000 "Server shutdown" st else st)
             st0 X in
  ∃ closed : list socket,
    NoDup closed
    ∧ (∀ ws, ws ∈ closed ↔ ws ∈ X ∧ is_open st0 ws = true)
    ∧ (∀ ws, ws ∉ X → readyState r !! ws = readyState st0 !! ws)
    ∧ r = with_readyState (readyState r)
            (with_trace
               (trace st0 ++ ((λ ws, Close ws 1000 "Server shutdown") <$> closed)) st0).
Proof.
  cbv zeta.
  refine (set_fold_ind_L (λ r (X : gset socket),
    ∃ closed : list socket,
      NoDup closed
      ∧ (∀ ws, ws ∈ closed ↔ ws ∈ X ∧ is_open st0 ws = true)
      ∧ (∀ ws, ws ∉ X → readyState r !! ws = readyState st0 !! ws)
      ∧ r = with_readyState (readyState r)
              (with_trace
                 (trace st0 ++ ((λ ws, Close ws 1000 "Server shutdown") <$> closed)) st0))
    _ st0 _ _ X).
  - exists []. split_and!; [constructor|set_solver|done|].
    fields. by rewrite app_nil_r.
  - intros x X' r Hx (closed & Hnd & Hcl & Hrs & Hr).
    assert (is_open r x = is_open st0 x) as Hopen
      by (unfold is_open; by rewrite Hrs).
    rewrite guarded_close. unfold ws_close. rewrite Hopen.
    destruct (is_open st0 x) eqn:Hox.
    + exists (closed ++ [x]). split_and!.
      * apply NoDup_app. split_and!; [done| |apply NoDup_singleton].
        intros y Hy ->%list_elem_of_singleton. apply Hcl in Hy as [? _]. done.
      * intros ws. rewrite elem_of_app, list_elem_of_singleton, Hcl. set_solver.
      * intros ws Hws. cbn. rewrite lookup_insert_ne by set_solver.
        apply Hrs. set_solver.
      * clear -Hr. fields. by rewrite fmap_app, app_assoc.
    + exists closed. split_and!; [done| |intros ws Hws; apply Hrs; set_solver|done].
      intros ws. rewrite Hcl. split; [set_solver|].
      intros [[->%elem_of_singleton|?]%elem_of_union ?]; [congruence|done].
Qed.

Lemma stop_tail (st : Server) :
  let st' := emit "server-stopped" []
               (with_connectionCount 0 (with_isRunning false
                  (if server (with_clients ∅ st) then log ServerClose (with_clients ∅ st)
                   else with_clients ∅ st))) in
  timers st' = timers st
  ∧ pendingRequests st' = pendingRequests st
  ∧ streams st' = streams st
  ∧ subscriptions st' = subscriptions st
  ∧ clients st' = ∅
  ∧ connectionCount st' = 0
  ∧ isRunning st' = false
  ∧ nextTimer st' = nextTimer st
  ∧ nextPromise st' = nextPromise st
  ∧ trace st' = trace st ++ (if server st then [ServerClose] else [])
                ++ [Emit "server-stopped" []].
Proof. destruct st as [? ? [] ? ? ? ? ? ? ? ? ? ? ? ? ? ? ?]; cbn; by rewrite <- ?app_assoc. Qed.

Lemma stop_effect (st : Server) :
  isRunning st = true →
  let st' := stop st in
  (∀ k request, pendingRequests st !! k = Some request →
     timers st' !! pr_timeout request = None)
  ∧ (∀ p, settlements p (trace st') = settlements p (trace st))
  ∧ pendingRequests st' = ∅
  ∧ streams st' = ∅
  ∧ subscriptions st' = ∅
  ∧ clients st' = ∅
  ∧ connectionCount st' = 0
  ∧ isRunning st' = false
  ∧ (∀ h, timers st' !! h = None ∨ timers st' !! h = timers st !! h)
  ∧ nextTimer st' = nextTimer st
  ∧ nextPromise st' = nextPromise st
  ∧ ∃ closed : list socket,
      NoDup closed
      ∧ (∀ ws, ws ∈ closed ↔ ws ∈ clients st ∧ is_open st ws = true)
      ∧ trace st' = trace st
                    ++ ((λ ws, Close ws 1000 "Server shutdown") <$> closed)
                    ++ (if server st then [ServerClose] else [])
                    ++ [Emit "server-stopped" []].
Proof.
  intros Hrun st'. subst st'. unfold stop. rewrite Hrun. cbn [negb].
  destruct (stop_timers_fold st (pendingRequests st)) as (Hcancel & Hsub1 & Hst1).
  cbv zeta in Hcancel, Hsub1, Hst1.
  set (st1 := map_fold _ st (pendingRequests st)) in *.
  set (st2 := with_subscriptions ∅ (with_streams ∅ (with_pendingRequests ∅ st1))).
  assert (trace st2 = trace st ∧ clients st2 = clients st ∧ server st2 = server st
          ∧ (∀ ws, is_open st2 ws = is_open st ws)
          ∧ timers st2 = timers st1 ∧ pendingRequests st2 = ∅
          ∧ streams st2 = ∅ ∧ subscriptions st2 = ∅
          ∧ nextTimer st2 = nextTimer st ∧ nextPromise st2 = nextPromise st)
    as (Htr2 & Hcl2 & Hsv2 & Hop2 & Htm2 & Hp2 & Hs2 & Hsub2 & Hnt2 & Hnp2).
  { subst st2. clear -Hst1. rewrite Hst1. done. }
  clearbody st2.
  destruct (stop_close_fold st2 (clients st2)) as (closed & Hnd & Hcl & _ & Hst3).
  cbv zeta in Hst3.
  set (st3 := set_fold _ st2 (clients st2)) in *.
  assert (trace st3 = trace st ++ ((λ ws, Close ws 1000 "Server shutdown") <$> closed)
          ∧ timers st3 = timers st1 ∧ server st3 = server st
          ∧ pendingRequests st3 = ∅ ∧ streams st3 = ∅ ∧ subscriptions st3 = ∅
          ∧ nextTimer st3 = nextTimer st ∧ nextPromise st3 = nextPromise st)
    as (Htr3 & Htm3 & Hsv3 & Hp3 & Hs3 & Hsub3 & Hnt3 & Hnp3).
  { rewrite Hst3. cbn. by rewrite Htr2, Hsv2, Htm2, Hp2, Hs2, Hsub2, Hnt2, Hnp2. }
  clearbody st3 st1.
  destruct (stop_tail st3)
    as (Htm4 & Hp4 & Hs4 & Hsub4 & Hcl4 & Hcc4 & Hrun4 & Hnt4 & Hnp4 & Htr4).
  cbv zeta in Htm4, Hp4, Hs4, Hsub4, Hcl4, Hcc4, Hrun4, Hnt4, Hnp4, Htr4.
  set (st4 := emit _ _ _) in *. clearbody st4.
  rewrite Hsv3 in Htr4.
  split_and!.
  - intros k request Hk. rewrite Htm4, Htm3. by eapply Hcancel.
  - intros p. rewrite Htr4, Htr3, !settlements_app, settlements_Close.
    destruct (server st); cbn; by rewrite ?app_nil_r.
  - by rewrite Hp4.
  - by rewrite Hs4.
  - by rewrite Hsub4.
  - done.
  - done.
  - done.
  - intros h. rewrite Htm4, Htm3. apply Hsub1.
  - by rewrite Hnt4.
  - by rewrite Hnp4.
  - exists closed. split_and!; [done| |].
    + intros ws. by rewrite Hcl, Hcl2, Hop2.
    + by rewrite Htr4, Htr3, <- !app_assoc.
Qed.


(** X25: [stop] on a running server, in whatever state: the timer of every
    entry of the pending table has been cancelled and the table is empty,
    and no promise has been settled by the shutdown; the stream table, the
    subscription table and the registry are empty and the counter is zero;
    and every registered connection whose socket was open has been sent the
    normal closure (code 1000) before the server is closed. *)
Theorem stop_cancels_timers_and_closes_connections (st : Server) :
  isRunning st = true →
  let st' := stop st in
  (∀ k request, pendingRequests st !! k = Some request →
     timers st' !! pr_timeout request = None)
  ∧ (∀ p, settlements p (trace st') = settlements p (trace st))
  ∧ pendingRequests st' = ∅
  ∧ streams st' = ∅
  ∧ subscriptions st' = ∅
  ∧ clients st' = ∅
  ∧ connectionCount st' = 0
  ∧ isRunning st' = false
  ∧ ∃ closed : list socket,
      NoDup closed
      ∧ (∀ ws, ws ∈ closed ↔ ws ∈ clients st ∧ is_open st ws = true)
      ∧ trace st' = trace st
                    ++ ((λ ws, Close ws 1000 "Server shutdown") <$> closed)
                    ++ (if server st then [ServerClose] else [])
                    ++ [Emit "server-stopped" []].
Proof.
  intros Hrun st'.
  destruct (stop_effect st Hrun)
    as (Hcancel & Hsettle & Hp & Hs & Hsub & Hcl & Hcc & Hstopped & _ & _ & _ & Hclosed).
  by split_and!.
Qed.

Lemma stop_cancels_timers_and_closes_connections_witness :
  let st := busy_client in
  let st' := stop st in
  isRunning st = true
  ∧ (∀ k request, pendingRequests st !! k = Some request →
       timers st' !! pr_timeout request = None)
  ∧ (∀ p, settlements p (trace st') = settlements p (trace st))
  ∧ pendingRequests st' = ∅
  ∧ streams st' = ∅
  ∧ subscriptions st' = ∅
  ∧ clients st' = ∅
  ∧ connectionCount st' = 0
  ∧ isRunning st' = false
  ∧ ∃ closed : list socket,
      NoDup closed
      ∧ (∀ ws, ws ∈ closed ↔ ws ∈ clients st ∧ is_open st ws = true)
      ∧ trace st' = trace st
                    ++ ((λ ws, Close ws 1000 "Server shutdown") <$> closed)
                    ++ (if server st then [ServerClose] else [])
                    ++ [Emit "server-stopped" []].
Proof.
  split; [vm_compute; reflexivity|].
  apply (stop_cancels_timers_and_closes_connections busy_client).
  vm_compute; reflexivity.
Defined.

(** ** Pending requests (C3) *)

Lemma inv_same st st' : same_requests st st' → pending_inv st → pending_inv st'.
Proof.
  intros (Hp & Ht & Hnt & Hnp & Hs) [].
  split; rewrite ?Hp, ?Ht, ?Hnt; try setoid_rewrite Hs; try done.
  - intros h r p d Hh. destruct (inv_timer0 h r p d Hh). split; [done|lia].
  - intros p Hne. specialize (inv_promises0 p Hne). lia.
Qed.

Lemma same_requests_refl st : same_requests st st.
Proof. by repeat split. Qed.

Lemma same_requests_trans st1 st2 st3 :
  same_requests st1 st2 → same_requests st2 st3 → same_requests st1 st3.
Proof.
  intros (Hp & Ht & Hnt & Hnp & Hs) (Hp' & Ht' & Hnt' & Hnp' & Hs').
  split_and!; [congruence|congruence|congruence|lia|].
  intros p. by rewrite Hs', Hs.
Qed.

Lemma settlements_other p e tr :
  (∀ q s, e ≠ Settle q s) → settlements p (tr ++ [e]) = settlements p tr.
Proof.
  intros He. rewrite settlements_app.
  destruct e; try (by rewrite app_nil_r). by destruct (He promise s).
Qed.

Lemma same_log e st : (∀ q s, e ≠ Settle q s) → same_requests st (log e st).
Proof.
  intros He. split_and!; [done..|]. intros p. by apply settlements_other.
Qed.

Lemma same_sendToClient ws m st : same_requests st (_sendToClient ws m st).
Proof.
  unfold _sendToClient. destruct (is_open st ws); [|apply same_requests_refl].
  by apply same_log.
Qed.

Lemma same_ws_close ws code reason st : same_requests st (ws_close ws code reason st).
Proof.
  unfold ws_close. destruct (is_open st ws); [|apply same_requests_refl].
  split_and!; [done..|]. intros p. by apply settlements_other.
Qed.

Lemma same_alloc v st : same_requests st (alloc v st).2.
Proof. destruct v; by repeat split. Qed.

Lemma same_await a st : same_requests st (await a st).
Proof. split_and!; cbn; [done..|lia|done]. Qed.

Lemma inv_setTimer t st :
  is_request_timer t = false → pending_inv st → pending_inv (setTimer t st).2.
Proof.
  intros Ht Hinv.
  assert (timers st !! nextTimer st = None) as Hfresh.
  { destruct (timers st !! nextTimer st) as [t'|] eqn:E; [|done].
    apply (inv_handles _ Hinv) in E. lia. }
  destruct Hinv. split; cbn.
  - intros k request Hk. destruct (inv_entry0 k request Hk) as (r & d & -> & Htm).
    exists r, d. split; [done|]. rewrite lookup_insert_ne; [done|congruence].
  - intros h r p d Hh. apply lookup_insert_Some in Hh as [[_ ->]|[_ Hh]]; [done|].
    by eapply inv_timer0.
  - intros h1 h2 r1 r2 p d1 d2 H1 H2.
    apply lookup_insert_Some in H1 as [[_ ->]|[_ H1]]; [done|].
    apply lookup_insert_Some in H2 as [[_ ->]|[_ H2]]; [done|].
    by eapply inv_timer_inj0.
  - intros h t' Hh. apply lookup_insert_Some in Hh as [[<- _]|[_ Hh]]; [lia|].
    apply inv_handles0 in Hh. lia.
  - done.
  - done.
Qed.

Lemma inv_clearTimer h t st :
  timers st !! h = Some t → is_request_timer t = false →
  pending_inv st → pending_inv (clearTimer h st).
Proof.
  intros Hh Ht []. split; cbn.
  - intros k request Hk. destruct (inv_entry0 k request Hk) as (r & d & -> & Htm).
    exists r, d. split; [done|]. rewrite lookup_delete_ne; [done|].
    intros Heq. subst h. rewrite Hh in Htm. by simplify_eq.
  - intros h' r p d [_ Hh']%lookup_delete_Some. by eapply inv_timer0.
  - intros h1 h2 r1 r2 p d1 d2 [_ H1]%lookup_delete_Some [_ H2]%lookup_delete_Some.
    by eapply inv_timer_inj0.
  - intros h' t' [_ Hh']%lookup_delete_Some. by eapply inv_handles0.
  - done.
  - done.
Qed.

(** Steps built from operations that leave the requests alone. *)
Ltac same_fold := fail.

Ltac same_step :=
  match goal with
  | |- same_requests ?a ?a => apply same_requests_refl
  | |- same_requests _ (let _ := _ in _) => cbv zeta
  | |- _ => same_fold
  | H : same_requests ?s ?s1 |- same_requests _ ?s1 =>
      eapply same_requests_trans; [|exact H]
  | |- same_requests _ (if ?b then _ else _) => destruct b
  | |- same_requests _ (let '(_, _) := alloc ?v ?s in _) =>
      let H := fresh "Halloc" in
      pose proof (same_alloc v s) as H;
      destruct (alloc v s) as [? ?]; cbn [snd] in H
  | |- same_requests _ (match ?x with _ => _ end) => destruct x
  | |- same_requests _ (_sendToClient _ _ ?s) =>
      eapply same_requests_trans; [|apply same_sendToClient]
  | |- same_requests _ (ws_close _ _ _ ?s) =>
      eapply same_requests_trans; [|apply same_ws_close]
  | |- same_requests _ (await _ ?s) =>
      eapply same_requests_trans; [|apply same_await]
  | |- same_requests _ (emit _ _ ?s) =>
      eapply same_requests_trans; [|by apply same_log]
  | |- same_requests _ (log _ ?s) =>
      eapply same_requests_trans; [|by apply same_log]
  | |- same_requests ?a (?f _ _ ?s) =>
      apply (same_requests_trans a s); [|by repeat split]
  | |- same_requests ?a (?f _ ?s) =>
      apply (same_requests_trans a s); [|by repeat split]
  end.

Ltac same := repeat same_step.

Lemma same_start st : same_requests st (start st).
Proof. unfold start. same. Qed.

Lemma same_on_pong ws now st : same_requests st (on_pong ws now st).
Proof. unfold on_pong. same. Qed.

Lemma same_add_capabilities ws caps st :
  same_requests st (foldl (add_capability ws) st caps).
Proof.
  revert st. induction caps as [|cap caps IH]; intros st; [apply same_requests_refl|].
  cbn [foldl]. eapply same_requests_trans; [|apply IH].
  unfold add_capability. same.
Qed.

Ltac same_fold ::=
  match goal with
  | |- same_requests _ (foldl (add_capability _) _ _) =>
      eapply same_requests_trans; [|apply same_add_capabilities]
  end.

Lemma same_handleHandshake ws cd message now st :
  same_requests st (_handleHandshake ws cd message now st).
Proof. unfold _handleHandshake. same. Qed.

Lemma same_database_error ws cd requestId now st :
  same_requests st (database_error ws cd requestId now st).
Proof. unfold database_error. same. Qed.

Lemma same_saveToDatabase dbi data ws cd requestId now st :
  same_requests st (_saveToDatabase dbi data ws cd requestId now st).
Proof.
  unfold _saveToDatabase. cbv zeta.
  destruct (match encrypt dbi with Some _ => _ | None => _ end);
    [same|apply same_database_error].
Qed.

Lemma same_handleDataMessage ws cd message now st :
  same_requests st (_handleDataMessage ws cd message now st).
Proof.
  unfold _handleDataMessage.
  destruct (_ && _); [same|].
  cbv zeta.
  destruct (if enableDataValidation (config st) then _ else _) as [[]|]; [|same..].
  eapply same_requests_trans; [|by apply same_log].
  destruct (db st) as [dbi|]; [|same].
  destruct (negb _); [apply same_saveToDatabase|same].
Qed.

Lemma same_handleRequest ws cd message now st :
  same_requests st (_handleRequest ws cd message now st).
Proof. unfold _handleRequest. same. Qed.

Lemma same_handleSubscribe ws cd message now st :
  same_requests st (_handleSubscribe ws cd message now st).
Proof. unfold _handleSubscribe. same. Qed.

Lemma same_handleUnsubscribe ws cd message now st :
  same_requests st (_handleUnsubscribe ws cd message now st).
Proof. unfold _handleUnsubscribe. same. Qed.

Lemma settlements_Send p (l : list socket) (f : socket → OutMsg) :
  settlements p ((λ ws, Send ws (f ws)) <$> l) = [].
Proof. by induction l. Qed.

Lemma same_publish topic data exclude now st :
  same_requests st (publish topic data exclude now st).1.
Proof.
  destruct (publish_spec st topic data exclude now) as (rs & _ & _ & -> & _).
  split_and!; [done..|]. intros p. cbn.
  by rewrite settlements_app, settlements_Send, app_nil_r.
Qed.

Lemma same_handlePublish ws cd message now st :
  same_requests st (_handlePublish ws cd message now st).
Proof.
  unfold _handlePublish. destruct (negb _); [same|]. cbv zeta.
  eapply same_requests_trans; [apply same_publish|apply same_sendToClient].
Qed.

Lemma same_handleRPCCall ws cd message now st :
  same_requests st (outcome_state (_handleRPCCall ws cd message now st)).
Proof.
  unfold _handleRPCCall. destruct (negb _); [cbn; same|]. cbv zeta.
  destruct (find_key _ ≫= _) as [[k rpcMethod]|].
  - destruct (rpcMethod _ _ _); cbn; same.
  - destruct (js_String _); cbn; same.
Qed.

Lemma same_handleRPCCall_resume ws requestId result now st :
  same_requests st (_handleRPCCall_resume ws requestId result now st).
Proof. unfold _handleRPCCall_resume. same. Qed.

Lemma same_saveToDatabase_resume ws data requestId result now st :
  same_requests st (_saveToDatabase_resume ws data requestId result now st).
Proof.
  unfold _saveToDatabase_resume.
  destruct (clientData st !! ws); [|apply same_requests_refl].
  destruct result as [r|]; [|apply same_database_error].
  destruct (js_get_checked r "insertId"); [same|apply same_database_error].
Qed.

Lemma same_handleStreamStart ws cd message now st :
  same_requests st (_handleStreamStart ws cd message now st).
Proof. unfold _handleStreamStart. same. Qed.

Lemma same_handleStreamData ws cd message now st :
  same_requests st (_handleStreamData ws cd message now st).
Proof. unfold _handleStreamData. same. Qed.

Lemma same_handleStreamEnd ws cd message now st :
  same_requests st (_handleStreamEnd ws cd message now st).
Proof. unfold _handleStreamEnd. same. Qed.

Lemma same_handleHeartbeat ws cd message now st :
  same_requests st (_handleHeartbeat ws cd message now st).
Proof. unfold _handleHeartbeat. same. Qed.

Lemma settlements_Settle_same p s : settlements p [Settle p s] = [s].
Proof. unfold settlements. cbn. by rewrite decide_True. Qed.

Lemma settlements_Settle_other p q s : q ≠ p → settlements p [Settle q s] = [].
Proof. intros Hne. unfold settlements. cbn. by rewrite decide_False. Qed.

(** Settling the promise of a request whose entry and timer have just been
    removed keeps the bookkeeping consistent. *)
Lemma inv_settle st h requestId p delay s :
  pending_inv st →
  timers st !! h = Some (RequestTimeout requestId p delay) →
  pending_inv
    (log (Settle p s)
       (with_pendingRequests (delete (KPrim (PStr requestId)) (pendingRequests st))
          (clearTimer h st))).
Proof.
  intros Hinv Hh. pose proof Hinv as [].
  destruct (inv_timer0 _ _ _ _ Hh) as [Hunsettled Hp].
  split; cbn.
  - intros k request [Hk Hreq]%lookup_delete_Some.
    destruct (inv_entry0 k request Hreq) as (r & d & -> & Htm).
    exists r, d. split; [done|]. rewrite lookup_delete_ne; [done|].
    intros Heq. subst h. rewrite Hh in Htm. by simplify_eq.
  - intros h' r q d [Hne Hh']%lookup_delete_Some.
    destruct (inv_timer0 _ _ _ _ Hh') as [Hq ?]. split; [|done].
    rewrite settlements_app, Hq, settlements_Settle_other; [done|].
    intros ->. by destruct Hne; eapply inv_timer_inj0.
  - intros h1 h2 r1 r2 q d1 d2 [_ H1]%lookup_delete_Some [_ H2]%lookup_delete_Some.
    by eapply inv_timer_inj0.
  - intros h' t [_ Hh']%lookup_delete_Some. by eapply inv_handles0.
  - intros q. rewrite settlements_app. destruct (decide (q = p)) as [->|Hne]; [done|].
    rewrite settlements_Settle_other, app_nil_r by done. apply inv_promises0.
  - intros q. rewrite settlements_app, length_app.
    destruct (decide (q = p)) as [->|Hne].
    + rewrite Hunsettled, settlements_Settle_same. cbn. lia.
    + rewrite settlements_Settle_other by done. cbn.
      specialize (inv_once0 q). lia.
Qed.

(** Removing an entry together with its timer, without settling. *)
Lemma inv_forget st h requestId p delay :
  pending_inv st →
  timers st !! h = Some (RequestTimeout requestId p delay) →
  pending_inv
    (with_pendingRequests (delete (KPrim (PStr requestId)) (pendingRequests st))
       (clearTimer h st)).
Proof.
  intros Hinv Hh. pose proof Hinv as []. split; cbn; [| | | |done..].
  - intros k request [Hk Hreq]%lookup_delete_Some.
    destruct (inv_entry0 k request Hreq) as (r & d & -> & Htm).
    exists r, d. split; [done|]. rewrite lookup_delete_ne; [done|].
    intros Heq. subst h. rewrite Hh in Htm. by simplify_eq.
  - intros h' r q d [_ Hh']%lookup_delete_Some. by eapply inv_timer0.
  - intros h1 h2 r1 r2 q d1 d2 [_ H1]%lookup_delete_Some [_ H2]%lookup_delete_Some.
    by eapply inv_timer_inj0.
  - intros h' t [_ Hh']%lookup_delete_Some. by eapply inv_handles0.
Qed.

Lemma inv_handleResponse ws cd message now st :
  pending_inv st →
  pending_inv (outcome_state (_handleResponse ws cd message now st)).
Proof.
  intros Hinv. unfold _handleResponse. cbv zeta.
  destruct (find_key _) as [k|]; [|done].
  destruct (pendingRequests st !! k) as [request|] eqn:Hk; [|done].
  destruct (inv_entry _ Hinv k request Hk) as (r & d & -> & Htm).
  destruct (truthy _);
    [exact (inv_settle st (pr_timeout request) r (pr_promise request) d _ Hinv Htm)|].
  destruct (js_String _).
  - exact (inv_settle st (pr_timeout request) r (pr_promise request) d _ Hinv Htm).
  - exact (inv_forget st (pr_timeout request) r (pr_promise request) d Hinv Htm).
Qed.

Lemma inv_requestTimeout_fired st h requestId p delay :
  pending_inv st →
  timers st !! h = Some (RequestTimeout requestId p delay) →
  pending_inv (requestTimeout_fired requestId p (clearTimer h st)).
Proof. intros Hinv Hh. exact (inv_settle st h requestId p delay _ Hinv Hh). Qed.

Lemma inv_sendRequest_executor client requestId endpoint data timeout now st :
  pending_inv st →
  pending_inv (sendRequest_executor client requestId endpoint data timeout now st).2.
Proof.
  intros Hinv. unfold sendRequest_executor. cbn.
  eapply inv_same; [apply same_sendToClient|].
  assert (timers st !! nextTimer st = None) as Hfresh.
  { destruct (timers st !! nextTimer st) as [t'|] eqn:E; [|done].
    apply (inv_handles _ Hinv) in E. lia. }
  assert (settlements (nextPromise st) (trace st) = []) as Hnew.
  { destruct (settlements (nextPromise st) (trace st)) eqn:E; [done|].
    assert (nextPromise st < nextPromise st)%nat; [|lia].
    apply (inv_promises _ Hinv). by rewrite E. }
  destruct Hinv. split; cbn.
  - intros k request Hk.
    apply lookup_insert_Some in Hk as [[<- <-]|[_ Hk]].
    + exists requestId, timeout. split; [done|]. cbn. by rewrite lookup_insert_eq.
    + destruct (inv_entry0 k request Hk) as (r & d & -> & Htm).
      exists r, d. split; [done|]. rewrite lookup_insert_ne; [done|congruence].
  - intros h r p d Hh. apply lookup_insert_Some in Hh as [[_ [= <- <- <-]]|[_ Hh]].
    + split; [done|lia].
    + destruct (inv_timer0 _ _ _ _ Hh). split; [done|lia].
  - intros h1 h2 r1 r2 p d1 d2 H1 H2.
    apply lookup_insert_Some in H1 as [[<- [= <- <- <-]]|[_ H1]];
      apply lookup_insert_Some in H2 as [[<- H2]|[_ H2]]; try done.
    + destruct (inv_timer0 _ _ _ _ H2). lia.
    + simplify_eq. destruct (inv_timer0 _ _ _ _ H1). lia.
    + by eapply inv_timer_inj0.
  - intros h t Hh. apply lookup_insert_Some in Hh as [[<- _]|[_ Hh]]; [lia|].
    apply inv_handles0 in Hh. lia.
  - intros p Hp. apply inv_promises0 in Hp. lia.
  - done.
Qed.

Lemma inv_handleAuthentication ws cd message now st :
  pending_inv st → pending_inv (_handleAuthentication ws cd message now st).
Proof.
  intros Hinv. unfold _handleAuthentication.
  destruct (negb _); [eapply inv_same; [apply same_sendToClient|done]|].
  destruct (strict_eq_str _ _).
  - eapply inv_same; [|done]. same.
  - cbv zeta. apply inv_setTimer; [done|].
    eapply inv_same; [apply same_sendToClient|done].
Qed.

Lemma inv_handleNewConnection ws clientIP userAgent clientId now st :
  pending_inv st →
  pending_inv (_handleNewConnection ws clientIP userAgent clientId now st).
Proof.
  intros Hinv. unfold _handleNewConnection.
  destruct (_ <=? _); [eapply inv_same; [apply same_ws_close|done]|].
  cbv zeta.
  eapply inv_same; [by apply same_log|].
  eapply inv_same; [apply same_sendToClient|].
  destruct (enableHeartbeat _).
  - apply inv_setTimer; [done|]. eapply inv_same; [|done]. by repeat split.
  - eapply inv_same; [|done]. by repeat split.
Qed.

Lemma inv_heartbeatTick h ws interval now st :
  timers st !! h = Some (Heartbeat ws interval) →
  pending_inv st → pending_inv (heartbeatTick h ws now st).
Proof.
  intros Hh Hinv. unfold heartbeatTick.
  destruct (clientData st !! ws); [|done].
  destruct (is_open st ws) eqn:Hopen; [|by eapply inv_clearTimer].
  cbv zeta. destruct (_ <? _); [|eapply inv_same; [by apply same_log|done]].
  apply (inv_clearTimer h (Heartbeat ws interval));
    [|done|eapply inv_same; [apply same_ws_close|done]].
  unfold ws_close. by rewrite Hopen.
Qed.

Lemma same_disconnect_streams id st0 (m : gmap Key Stream) :
  same_requests st0
    (map_fold (λ streamId stream st,
       if String.eqb (s_clientId stream) id
       then emit "stream-ended"
              [("clientId", JStr id); ("streamId", key_value st streamId)]
              (with_streams (delete streamId (streams st)) st)
       else st) st0 m).
Proof.
  apply (map_fold_weak_ind (λ r _, same_requests st0 r)).
  - apply same_requests_refl.
  - intros i x m' r _ Hr. same.
Qed.

Lemma same_handleClientDisconnection ws code reason now st :
  same_requests st (_handleClientDisconnection ws code reason now st).
Proof.
  unfold _handleClientDisconnection.
  destruct (clientData st !! ws) as [cd|]; [|apply same_requests_refl].
  cbv zeta. do 3 same_step.
  eapply same_requests_trans; [|apply same_disconnect_streams]. same.
Qed.

Lemma inv_stop st : pending_inv st → pending_inv (stop st).
Proof.
  intros Hinv. destruct (isRunning st) eqn:Hrun; [|unfold stop; by rewrite Hrun].
  destruct (stop_effect st Hrun)
    as (_ & Hsettle & Hp & _ & _ & _ & _ & _ & Htimers & Hnt & Hnp & _).
  cbv zeta in *. destruct Hinv. split; rewrite ?Hp, ?Hnt, ?Hnp.
  - intros k request Hk. by rewrite lookup_empty in Hk.
  - intros h r p d Hh. rewrite Hsettle.
    destruct (Htimers h) as [Hnone|Hsame]; [congruence|].
    rewrite Hsame in Hh. by eapply inv_timer0.
  - intros h1 h2 r1 r2 p d1 d2 H1 H2.
    destruct (Htimers h1) as [?|Hs1]; [congruence|].
    destruct (Htimers h2) as [?|Hs2]; [congruence|].
    rewrite Hs1 in H1. rewrite Hs2 in H2. by eapply inv_timer_inj0.
  - intros h t Hh. destruct (Htimers h) as [?|Hs]; [congruence|].
    rewrite Hs in Hh. by eapply inv_handles0.
  - intros p. rewrite Hsettle. apply inv_promises0.
  - intros p. rewrite Hsettle. apply inv_once0.
Qed.

Lemma inv_dispatch ws cd message now st :
  pending_inv st → pending_inv (outcome_state (dispatch ws cd message now st)).
Proof.
  intros Hinv. unfold dispatch.
  destruct (js_get_checked message "type") as [ty|]; [|done]. cbv zeta.
  repeat match goal with
         | |- pending_inv (outcome_state (if ?b then _ else _)) => destruct b
         end;
    cbn [outcome_state].
  - eapply inv_same; [apply same_handleHandshake|done].
  - by apply inv_handleAuthentication.
  - eapply inv_same; [apply same_handleDataMessage|done].
  - eapply inv_same; [apply same_handleDataMessage|done].
  - eapply inv_same; [apply same_handleRequest|done].
  - by apply inv_handleResponse.
  - eapply inv_same; [apply same_handleSubscribe|done].
  - eapply inv_same; [apply same_handleUnsubscribe|done].
  - eapply inv_same; [apply same_handlePublish|done].
  - eapply inv_same; [apply same_handleRPCCall|done].
  - eapply inv_same; [apply same_handleStreamStart|done].
  - eapply inv_same; [apply same_handleStreamData|done].
  - eapply inv_same; [apply same_handleStreamEnd|done].
  - eapply inv_same; [apply same_handleHeartbeat|done].
  - eapply inv_same; [apply same_sendToClient|done].
  - destruct (js_String ty); cbn; [|done].
    eapply inv_same; [apply same_sendToClient|done].
Qed.

Lemma inv_handleClientMessage ws rawData now st :
  pending_inv st → pending_inv (_handleClientMessage ws rawData now st).
Proof.
  intros Hinv. unfold _handleClientMessage.
  destruct (clientData st !! ws) as [cd0|]; [|done].
  destruct (parsed rawData) as [message|].
  - cbv zeta.
    set (cd := cd_with_dataReceived _ _).
    assert (pending_inv (upd_cd ws (λ _, cd) st)) as Hinv'
      by (eapply inv_same; [|exact Hinv]; by repeat split).
    apply (inv_dispatch ws cd message now) in Hinv'.
    destruct (dispatch _ _ _ _ _); cbn in Hinv'; [done|].
    eapply inv_same; [apply same_sendToClient|done].
  - eapply inv_same; [|exact Hinv].
    destruct (_ && _); [unfold _handleBinaryMessage; same|].
    apply same_sendToClient.
Qed.

Lemma same_registerRPCMethod methodName handler st :
  same_requests st (registerRPCMethod methodName handler st).
Proof. unfold registerRPCMethod. same. Qed.

Lemma inv_step now ev st : pending_inv st → pending_inv (step now ev st).
Proof.
  intros Hinv. destruct ev; cbn [step].
  - eapply inv_same; [apply same_start|done].
  - by apply inv_stop.
  - destruct (_ && _); [|done]. apply inv_handleNewConnection.
    eapply inv_same; [|exact Hinv]. by repeat split.
  - destruct (is_live st ws); [|done]. by apply inv_handleClientMessage.
  - destruct (is_live st ws); [|done]. eapply inv_same; [apply same_on_pong|done].
  - destruct (is_live st ws); [|done].
    eapply inv_same; [|exact Hinv].
    eapply same_requests_trans; [|apply same_handleClientDisconnection].
    by repeat split.
  - destruct (timers st !! h) as [[requestId promise delay|ws delay|ws interval]|] eqn:Hh;
      [| | |done].
    + by eapply inv_requestTimeout_fired.
    + unfold authCloseTimeout. rewrite guarded_close.
      eapply inv_same; [apply same_ws_close|]. by eapply inv_clearTimer.
    + by eapply inv_heartbeatTick.
  - destruct (awaiting st !! promise) as [[ws data requestId|ws requestId]|]; [| |done].
    + eapply inv_same; [|exact Hinv].
      eapply same_requests_trans; [|apply same_saveToDatabase_resume]. by repeat split.
    + eapply inv_same; [|exact Hinv].
      eapply same_requests_trans; [|apply same_handleRPCCall_resume]. by repeat split.
  - unfold sendRequest. by rewrite _getClientByIdAndSocket_undefined.
  - by apply inv_sendRequest_executor.
  - eapply inv_same; [apply same_sendToClient|done].
  - eapply inv_same; [apply same_publish|done].
  - eapply inv_same; [apply same_registerRPCMethod|done].
  - eapply inv_same; [|exact Hinv]. unfold unregisterRPCMethod. same.
  - unfold sendToClient. by rewrite _getClientByIdAndSocket_undefined.
  - eapply inv_same; [|exact Hinv]. unfold startStream.
    destruct (_getClientByIdAndSocket _ _) as [[? ?]|]; cbn; same.
  - eapply inv_same; [|exact Hinv]. unfold sendStreamData.
    destruct (find_key _ ≫= _); cbn; same.
  - eapply inv_same; [|exact Hinv]. unfold endStream.
    destruct (find_key _ ≫= _) as [[? ?]|]; cbn; same.
Qed.

Lemma inv_run evs st : pending_inv st → pending_inv (run evs st).
Proof.
  revert st. induction evs as [|[now ev] evs IH]; intros st Hinv; [done|].
  cbn. apply IH. by apply inv_step.
Qed.

Lemma inv_constructor cfg dbInstance : pending_inv (constructor cfg dbInstance).
Proof.
  unfold constructor, _setupRPCMethods. cbv zeta.
  do 5 (eapply inv_same; [apply same_registerRPCMethod|]).
  split; cbn; try done.
  intros p. unfold settlements. cbn. lia.
Qed.

Lemma _handleResponse_unknown ws cd message now st :
  (find_key (js_get message "requestId") ≫= λ k, pendingRequests st !! k) = None →
  _handleResponse ws cd message now st = Returned st.
Proof.
  intros Hnone. unfold _handleResponse. cbv zeta.
  destruct (find_key _) as [k|]; [|done]. cbn in Hnone. by rewrite Hnone.
Qed.

(** C3: in every state the server can reach, whatever the order of
    requests, responses, timeouts and other events,
    - no promise of an outbound request has been settled more than once;
    - the pending table has at most one entry per identifier, and an entry
      belongs to a promise that is not settled yet and whose timer is still
      set;
    - a response whose identifier is not in the table returns normally and
      leaves the whole state as it was;
    - a response that matches an entry removes the entry and cancels its
      timer, so that the timeout cannot fire afterwards, and a second
      response with that identifier is a no-op;
    - the timeout callback deletes the entry first and rejects the promise
      with the timeout error on the state without the entry; it is the only
      settlement of that promise, and a response that arrives later is a
      no-op. *)
Theorem pending_request_settled_at_most_once
    (cfg : Config) (dbInstance : option Db) (evs : list (time * Event)) :
  let st := run evs (constructor cfg dbInstance) in
  (∀ p, (length (settlements p (trace st)) ≤ 1)%nat)
  ∧ (∀ k request, pendingRequests st !! k = Some request →
       settlements (pr_promise request) (trace st) = []
       ∧ ∃ requestId delay,
           k = KPrim (PStr requestId)
           ∧ timers st !! pr_timeout request
             = Some (RequestTimeout requestId (pr_promise request) delay))
  ∧ (∀ ws cd message now,
       (find_key (js_get message "requestId") ≫= λ k, pendingRequests st !! k) = None →
       _handleResponse ws cd message now st = Returned st)
  ∧ (∀ ws cd message now k request,
       find_key (js_get message "requestId") = Some k →
       pendingRequests st !! k = Some request →
       let st' := outcome_state (_handleResponse ws cd message now st) in
       pendingRequests st' !! k = None
       ∧ timers st' !! pr_timeout request = None
       ∧ (length (settlements (pr_promise request) (trace st')) ≤ 1)%nat
       ∧ ∀ ws' cd' t, _handleResponse ws' cd' message t st' = Returned st')
  ∧ (∀ h requestId p delay now,
       timers st !! h = Some (RequestTimeout requestId p delay) →
       let st' := step now (EvTimer h) st in
       (∃ st1, pendingRequests st1 !! KPrim (PStr requestId) = None
               ∧ st' = log (Settle p (Rejected "Request timeout")) st1)
       ∧ pendingRequests st' !! KPrim (PStr requestId) = None
       ∧ timers st' !! h = None
       ∧ settlements p (trace st') = [Rejected "Request timeout"]
       ∧ ∀ ws cd message t,
           js_get message "requestId" = JStr requestId →
           _handleResponse ws cd message t st' = Returned st').
Proof.
  intros st.
  assert (pending_inv st) as Hinv by apply inv_run, inv_constructor.
  clearbody st. split_and!.
  - apply (inv_once _ Hinv).
  - intros k request Hk.
    destruct (inv_entry _ Hinv k request Hk) as (r & d & -> & Htm).
    split; [by eapply (inv_timer _ Hinv)|by exists r, d].
  - intros ws cd message now. apply _handleResponse_unknown.
  - intros ws cd message now k request Hkey Hk st'.
    assert (pendingRequests st' !! k = None ∧ timers st' !! pr_timeout request = None)
      as [Hgone Hcleared].
    { subst st'. unfold _handleResponse. cbv zeta. rewrite Hkey, Hk.
      destruct (truthy _); [|destruct (js_String _)]; cbn;
        by rewrite !lookup_delete_eq. }
    split_and!; [done|done| |].
    + apply inv_once. by apply inv_handleResponse.
    + intros ws' cd' t. apply _handleResponse_unknown. by rewrite Hkey.
  - intros h requestId p delay now Hh st'.
    assert (st' = log (Settle p (Rejected "Request timeout"))
                    (with_pendingRequests
                       (delete (KPrim (PStr requestId)) (pendingRequests st))
                       (clearTimer h st))) as ->
      by (subst st'; cbn [step]; by rewrite Hh).
    split_and!.
    + eexists. split; [|done]. cbn. by rewrite lookup_delete_eq.
    + cbn. by rewrite lookup_delete_eq.
    + cbn. by rewrite lookup_delete_eq.
    + cbn. rewrite settlements_app, settlements_Settle_same.
      by destruct (inv_timer _ Hinv _ _ _ _ Hh) as [-> _].
    + intros ws cd message t Hid. apply _handleResponse_unknown.
      rewrite Hid. cbn. by rewrite lookup_delete_eq.
Qed.

(** The pending request of [request_in_flight] is answered: the promise is
    resolved with the data of the response, the entry and the timer are
    gone, and the timer that was cancelled has nothing left to do. *)
Example response_resolves_pending_request :
  let answer := text (JObj [("type", JStr "response"); ("requestId", JStr "req_1");
                            ("success", JBool true); ("data", JStr "ok")]) in
  let st := run [(3, EvMessage 0%nat answer); (10002, EvTimer 1%nat);
                 (10003, EvMessage 0%nat answer)] request_in_flight in
  settlements 0 (trace st) = [Resolved (JStr "ok")]
  ∧ pendingRequests st = ∅
  ∧ timers st !! 1%nat = None.
Proof. vm_compute. repeat split; reflexivity. Qed.

(** ** Open sockets are registered *)

Lemma open_same st st' : same_connections st st' → open_inv st → open_inv st'.
Proof.
  intros (Hcl & Hrs & Hcd) Hinv ws Hopen. rewrite Hcl, Hcd. by apply Hinv, Hrs.
Qed.

Lemma conn_refl st : same_connections st st.
Proof. by repeat split. Qed.

Lemma conn_trans st1 st2 st3 :
  same_connections st1 st2 → same_connections st2 st3 → same_connections st1 st3.
Proof.
  intros (Hcl & Hrs & Hcd) (Hcl' & Hrs' & Hcd').
  split_and!; [congruence|by intros ws ?%Hrs'%Hrs|].
  intros ws. by rewrite Hcd', Hcd.
Qed.

Lemma conn_sendToClient ws m st : same_connections st (_sendToClient ws m st).
Proof. unfold _sendToClient. destruct (is_open st ws); by repeat split. Qed.

Lemma conn_ws_close ws code reason st : same_connections st (ws_close ws code reason st).
Proof.
  unfold ws_close. destruct (is_open st ws) eqn:Hopen; [|apply conn_refl].
  split_and!; [done| |done]. intros ws' Hws'. cbn in Hws'.
  apply lookup_insert_Some in Hws' as [[_ [=]]|[_ ?]]. done.
Qed.

Lemma conn_upd_cd ws f st : same_connections st (upd_cd ws f st).
Proof.
  split_and!; [done..|]. intros ws'. cbn.
  destruct (decide (ws = ws')) as [->|Hne].
  - rewrite lookup_alter_eq. by rewrite fmap_is_Some.
  - by rewrite lookup_alter_ne.
Qed.

Lemma conn_alloc v st : same_connections st (alloc v st).2.
Proof. destruct v; by repeat split. Qed.

Ltac conn_fold := fail.

Ltac conn_step :=
  match goal with
  | |- same_connections ?a ?a => apply conn_refl
  | |- same_connections _ (let _ := _ in _) => cbv zeta
  | |- _ => conn_fold
  | H : same_connections ?s ?s1 |- same_connections _ ?s1 =>
      eapply conn_trans; [|exact H]
  | |- same_connections _ (if ?b then _ else _) => destruct b
  | |- same_connections _ (let '(_, _) := alloc ?v ?s in _) =>
      let H := fresh "Halloc" in
      pose proof (conn_alloc v s) as H;
      destruct (alloc v s) as [? ?]; cbn [snd] in H
  | |- same_connections _ (match ?x with _ => _ end) => destruct x
  | |- same_connections _ (outcome_state (let _ := _ in _)) => cbv zeta
  | |- same_connections _ (outcome_state (if ?b then _ else _)) => destruct b
  | |- same_connections _ (outcome_state (match ?x with _ => _ end)) => destruct x
  | |- same_connections _ (outcome_state (Returned _)) => cbn [outcome_state]
  | |- same_connections _ (outcome_state (Threw _)) => cbn [outcome_state]
  | |- same_connections _ (_sendToClient _ _ ?s) =>
      eapply conn_trans; [|apply conn_sendToClient]
  | |- same_connections _ (ws_close _ _ _ ?s) =>
      eapply conn_trans; [|apply conn_ws_close]
  | |- same_connections _ (upd_cd _ _ ?s) =>
      eapply conn_trans; [|apply conn_upd_cd]
  | |- same_connections ?a (snd (setTimer _ ?s)) =>
      apply (conn_trans a s); [|by repeat split]
  | |- same_connections ?a (?f _ _ ?s) =>
      apply (conn_trans a s); [|by repeat split]
  | |- same_connections ?a (?f _ ?s) =>
      apply (conn_trans a s); [|by repeat split]
  end.

Ltac conn := repeat conn_step.

Lemma conn_add_capabilities ws caps st :
  same_connections st (foldl (add_capability ws) st caps).
Proof.
  revert st. induction caps as [|cap caps IH]; intros st; [apply conn_refl|].
  cbn [foldl]. eapply conn_trans; [|apply IH].
  unfold add_capability. conn.
Qed.

Lemma conn_publish topic data exclude now st :
  same_connections st (publish topic data exclude now st).1.
Proof.
  destruct (publish_spec st topic data exclude now) as (rs & _ & _ & -> & _).
  by repeat split.
Qed.

Lemma conn_database_error ws cd requestId now st :
  same_connections st (database_error ws cd requestId now st).
Proof. unfold database_error. conn. Qed.

Lemma conn_saveToDatabase dbi data ws cd requestId now st :
  same_connections st (_saveToDatabase dbi data ws cd requestId now st).
Proof.
  unfold _saveToDatabase. cbv zeta.
  destruct (match encrypt dbi with Some _ => _ | None => _ end);
    [conn|apply conn_database_error].
Qed.

Ltac conn_fold ::=
  match goal with
  | |- same_connections _ (foldl (add_capability _) _ _) =>
      eapply conn_trans; [|apply conn_add_capabilities]
  | |- same_connections _ (fst (publish _ _ _ _ _)) =>
      eapply conn_trans; [|apply conn_publish]
  | |- same_connections _ (database_error _ _ _ _ _) =>
      eapply conn_trans; [|apply conn_database_error]
  | |- same_connections _ (_saveToDatabase _ _ _ _ _ _ _) =>
      eapply conn_trans; [|apply conn_saveToDatabase]
  end.

Lemma conn_dispatch ws cd message now st :
  same_connections st (outcome_state (dispatch ws cd message now st)).
Proof.
  unfold dispatch.
  destruct (js_get_checked message "type") as [ty|]; [|apply conn_refl]. cbv zeta.
  repeat match goal with
         | |- same_connections _ (outcome_state (if ?b then _ else _)) => destruct b
         end.
  - cbn. unfold _handleHandshake. conn.
  - cbn. unfold _handleAuthentication. conn.
  - cbn. unfold _handleSensorData, _handleDataMessage. conn.
  - cbn. unfold _handleDataMessage. conn.
  - cbn. unfold _handleRequest. conn.
  - unfold _handleResponse. conn.
  - cbn. unfold _handleSubscribe. conn.
  - cbn. unfold _handleUnsubscribe. conn.
  - cbn. unfold _handlePublish. conn.
  - unfold _handleRPCCall. conn.
  - cbn. unfold _handleStreamStart. conn.
  - cbn. unfold _handleStreamData. conn.
  - cbn. unfold _handleStreamEnd. conn.
  - cbn. unfold _handleHeartbeat. conn.
  - cbn. conn.
  - conn.
Qed.

Lemma conn_handleClientMessage ws rawData now st :
  same_connections st (_handleClientMessage ws rawData now st).
Proof.
  unfold _handleClientMessage.
  destruct (clientData st !! ws) as [cd0|]; [|apply conn_refl].
  destruct (parsed rawData) as [message|].
  - cbv zeta. set (cd := cd_with_dataReceived _ _).
    pose proof (conn_dispatch ws cd message now (upd_cd ws (λ _, cd) st)) as Hd.
    pose proof (conn_upd_cd ws (λ _, cd) st) as Hu.
    destruct (dispatch _ _ _ _ _); cbn [outcome_state] in Hd.
    + by eapply conn_trans.
    + eapply conn_trans; [|apply conn_sendToClient]. by eapply conn_trans.
  - unfold _handleBinaryMessage, invalid_format. conn.
Qed.

Lemma open_handleNewConnection ws clientIP userAgent clientId now st :
  open_inv st →
  open_inv (_handleNewConnection ws clientIP userAgent clientId now
              (with_readyState (<[ws := OPEN]> (readyState st)) st)).
Proof.
  intros Hinv. unfold _handleNewConnection.
  set (st0 := with_readyState _ st).
  destruct (_ <=? _).
  - unfold ws_close.
    replace (is_open st0 ws) with true
      by (unfold is_open; cbn; by rewrite lookup_insert_eq, bool_decide_eq_true_2).
    intros ws' Hopen. cbn in *.
    apply lookup_insert_Some in Hopen as [[_ [=]]|[Hne Hopen]].
    rewrite lookup_insert_ne in Hopen by done. by apply Hinv.
  - cbv zeta.
    eapply open_same.
    { eapply conn_trans; [|by repeat split].
      eapply conn_trans; [|apply conn_sendToClient].
      destruct (enableHeartbeat _); [unfold _startClientHeartbeat|]; conn;
        apply conn_refl. }
    intros ws' Hopen. cbn in *.
    destruct (decide (ws' = ws)) as [->|Hne].
    + rewrite lookup_insert_eq. split; [set_solver|done].
    + rewrite lookup_insert_ne in Hopen by done. rewrite lookup_insert_ne by done.
      destruct (Hinv ws' Hopen). split; [set_solver|done].
Qed.

Lemma open_handleClientDisconnection ws code reason now st :
  open_inv st →
  open_inv (_handleClientDisconnection ws code reason now
              (with_readyState (<[ws := CLOSED]> (readyState st)) st)).
Proof.
  intros Hinv. unfold _handleClientDisconnection.
  set (st0 := with_readyState _ st).
  assert (∀ ws', readyState st0 !! ws' = Some OPEN →
                 ws' ≠ ws ∧ ws' ∈ clients st0 ∧ is_Some (clientData st0 !! ws'))
    as Hst0.
  { intros ws' Hopen. subst st0. cbn in Hopen |- *.
    apply lookup_insert_Some in Hopen as [[_ [=]]|[Hne Hopen]].
    by destruct (Hinv ws' Hopen). }
  clearbody st0.
  destruct (clientData st0 !! ws) as [cd|];
    [|intros ws' (_ & ? & ?)%Hst0; done].
  cbv zeta.
  pose proof (disconnect_streams_fold (cd_id cd)
    (with_subscriptions
       (set_fold (unsubscribe_topic ws) (subscriptions st0) (cd_subscriptions cd)) st0)
    (streams st0)) as Hfold.
  cbv zeta in Hfold. destruct Hfold as (_ & _ & Hcl & Hcd & Hrs & _).
  set (r := map_fold _ _ _) in *. clearbody r. cbn in Hcl, Hcd, Hrs.
  intros ws' Hopen. cbn in Hopen |- *.
  rewrite Hrs in Hopen. rewrite Hcl, Hcd.
  destruct (Hst0 ws' Hopen) as (Hne & Hin & Hsome). split; [set_solver|done].
Qed.

Lemma stop_close_fold_open (st0 : Server) (X : gset socket) :
  let r := set_fold (λ ws st,
             if is_open st ws then ws_close ws 1000 "Server shutdown" st else st)
             st0 X in
  ∀ ws, readyState r !! ws = Some OPEN →
        readyState st0 !! ws = Some OPEN ∧ ws ∉ X.
Proof.
  cbv zeta.
  refine (set_fold_ind_L (λ r (X : gset socket),
    ∀ ws, readyState r !! ws = Some OPEN → readyState st0 !! ws = Some OPEN ∧ ws ∉ X)
    _ st0 _ _ X).
  - intros ws Hopen. split; [done|set_solver].
  - intros x X' r Hx IH ws. rewrite guarded_close. unfold ws_close.
    destruct (is_open r x) eqn:Hox.
    + cbn. intros [[_ [=]]|[Hne Hopen]]%lookup_insert_Some.
      destruct (IH ws Hopen). split; [done|set_solver].
    + intros Hopen. destruct (IH ws Hopen). split; [done|].
      assert (ws ≠ x); [|set_solver].
      intros ->. unfold is_open in Hox. by rewrite Hopen, bool_decide_eq_true_2 in Hox.
Qed.

Lemma open_stop st : open_inv st → open_inv (stop st).
Proof.
  intros Hinv. unfold stop. destruct (negb (isRunning st)); [done|]. cbv zeta.
  destruct (stop_timers_fold st (pendingRequests st)) as (_ & _ & Hst1).
  cbv zeta in Hst1. set (st1 := map_fold _ st (pendingRequests st)) in *.
  set (st2 := with_subscriptions ∅ (with_streams ∅ (with_pendingRequests ∅ st1))).
  assert (clients st2 = clients st ∧ readyState st2 = readyState st) as [Hcl2 Hrs2].
  { subst st2. clear -Hst1. rewrite Hst1. done. }
  clearbody st2. clear Hst1 st1.
  pose proof (stop_close_fold_open st2 (clients st2)) as Hclosed.
  cbv zeta in Hclosed. set (st3 := set_fold _ st2 (clients st2)) in *.
  clearbody st3.
  intros ws Hopen.
  assert (readyState st3 !! ws = Some OPEN) as Hopen3.
  { revert Hopen. clear. cbn. by destruct (server st3). }
  destruct (Hclosed ws Hopen3) as [Hopen2 Hnotin].
  rewrite Hrs2 in Hopen2. rewrite Hcl2 in Hnotin.
  by destruct (Hinv ws Hopen2).
Qed.

Lemma open_step now ev st : open_inv st → open_inv (step now ev st).
Proof.
  intros Hinv. destruct ev; cbn [step].
  - eapply open_same; [|done]. unfold start. conn.
  - by apply open_stop.
  - destruct (_ && _); [|done]. by apply open_handleNewConnection.
  - destruct (is_live st ws); [|done].
    eapply open_same; [apply conn_handleClientMessage|done].
  - destruct (is_live st ws); [|done]. eapply open_same; [|done]. unfold on_pong. conn.
  - destruct (is_live st ws); [|done]. by apply open_handleClientDisconnection.
  - eapply open_same; [|done].
    destruct (timers st !! h) as [[requestId promise delay|ws delay|ws interval]|];
      [| | |apply conn_refl].
    + unfold requestTimeout_fired. conn.
    + unfold authCloseTimeout. conn.
    + unfold heartbeatTick. conn.
  - eapply open_same; [|done].
    destruct (awaiting st !! promise) as [[ws data requestId|ws requestId]|];
      [| |apply conn_refl].
    + unfold _saveToDatabase_resume. conn.
    + unfold _handleRPCCall_resume. conn.
  - unfold sendRequest. by rewrite _getClientByIdAndSocket_undefined.
  - eapply open_same; [|done]. unfold sendRequest_executor. cbn. conn.
  - eapply open_same; [|done]. unfold respond. conn.
  - eapply open_same; [apply conn_publish|done].
  - eapply open_same; [|done]. unfold registerRPCMethod. conn.
  - eapply open_same; [|done]. unfold unregisterRPCMethod. conn.
  - unfold sendToClient. by rewrite _getClientByIdAndSocket_undefined.
  - eapply open_same; [|done]. unfold startStream.
    destruct (_getClientByIdAndSocket _ _) as [[? ?]|]; cbn; conn.
  - eapply open_same; [|done]. unfold sendStreamData.
    destruct (find_key _ ≫= _); cbn; conn.
  - eapply open_same; [|done]. unfold endStream.
    destruct (find_key _ ≫= _) as [[? ?]|]; cbn; conn.
Qed.

Lemma open_run evs st : open_inv st → open_inv (run evs st).
Proof.
  revert st. induction evs as [|[now ev] evs IH]; intros st Hinv; [done|].
  cbn. apply IH. by apply open_step.
Qed.

Lemma open_constructor cfg dbInstance : open_inv (constructor cfg dbInstance).
Proof.
  intros ws Hopen.
  unfold constructor, _setupRPCMethods, registerRPCMethod in Hopen. cbn in Hopen.
  by rewrite lookup_empty in Hopen.
Qed.

(** ** Publish (C5) *)

(** C5: in every state the server can reach, [publish] sends the payload
    once to each subscriber of the topic whose socket is open and whose id
    differs from the excluded one, and to nobody else; it changes nothing
    else and returns the number of these recipients.  Without subscribers
    the state is unchanged and the result is zero, and the excluded client
    receives nothing, subscriber or not. *)
Theorem publish_reaches_exactly_the_open_subscribers
    (cfg : Config) (dbInstance : option Db) (evs : list (time * Event))
    (topic data excludeClientId : JSValue) (now : time) :
  let st := run evs (constructor cfg dbInstance) in
  let st' := (publish topic data excludeClientId now st).1 in
  let publishCount := (publish topic data excludeClientId now st).2 in
  (∃ recipients : list socket,
     NoDup recipients
     ∧ (∀ ws, ws ∈ recipients ↔
          ws ∈ subscribers_of st topic ∧ is_open st ws = true
          ∧ ∀ cd, clientData st !! ws = Some cd → excludeClientId ≠ JStr (cd_id cd))
     ∧ st' = with_trace
               (trace st ++ ((λ ws, Send ws (publish_msg topic data now)) <$> recipients))
               st
     ∧ publishCount = length recipients)
  ∧ (subscribers_of st topic = ∅ → st' = st ∧ publishCount = 0%nat)
  ∧ (∀ ws cd, clientData st !! ws = Some cd → excludeClientId = JStr (cd_id cd) →
       sent_to ws (trace st') = sent_to ws (trace st)).
Proof.
  intros st.
  assert (open_inv st) as Hinv by apply open_run, open_constructor.
  clearbody st. intros st' publishCount.
  destruct (publish_effect st topic data excludeClientId now)
    as ((rs & Hnd & Hrs & Hst & Hn) & Hnone & Hexcl).
  fold st' in Hst, Hnone, Hexcl. fold publishCount in Hn, Hnone.
  split_and!; [|done..].
  exists rs. split_and!; [done| |done..].
  intros ws. rewrite Hrs. split.
  - intros (Hsub & _ & Hopen & cd & Hcd & Hne). split_and!; [done..|].
    intros cd' Hcd'. congruence.
  - intros (Hsub & Hopen & Hne).
    assert (readyState st !! ws = Some OPEN) as Hrs'
      by (unfold is_open in Hopen; by apply bool_decide_eq_true_1 in Hopen).
    destruct (Hinv ws Hrs') as [Hin [cd Hcd]].
    split_and!; [done..|]. exists cd. split; [done|by apply Hne].
Qed.

(** The first of two subscribers publishes to the topic: the other one
    receives the payload once, the publisher receives nothing, and the
    count is one. *)
Example publish_excludes_the_publisher :
  let r := publish (JStr "t") (JStr "hello") (JStr "client_1") 5 two_subscribers in
  r.2 = 1%nat
  ∧ sent_to 1%nat (trace r.1)
    = sent_to 1%nat (trace two_subscribers) ++ [publish_msg (JStr "t") (JStr "hello") 5]
  ∧ sent_to 0%nat (trace r.1) = sent_to 0%nat (trace two_subscribers).
Proof. vm_compute. repeat split; reflexivity. Qed.

(** * Further properties of the handler *)

(** ** Steps that leave the registry alone *)

Lemma cd_kept_refl free cd : cd_kept free cd cd.
Proof. by repeat split. Qed.

Lemma cd_kept_trans free cd1 cd2 cd3 :
  cd_kept free cd1 cd2 → cd_kept free cd2 cd3 → cd_kept free cd1 cd3.
Proof.
  intros (? & ? & ? & ? & Hm & Ha & Hs & Hc) (? & ? & ? & ? & Hm' & Ha' & Hs' & Hc').
  split_and!; try congruence.
  - auto.
  - intros Hf. by rewrite Ha', Ha.
  - intros Hf. by rewrite Hs', Hs.
  - intros Hf. destruct (Hc Hf), (Hc' Hf). split; congruence.
Qed.

Lemma cd_kept_weaken (free free' : Part → bool) cd cd' :
  (∀ p, free p = true → free' p = true) →
  cd_kept free cd cd' → cd_kept free' cd cd'.
Proof.
  intros Hw (? & ? & ? & ? & Hm & Ha & Hs & Hc).
  assert (∀ p, free' p = false → free p = false) as Hw'.
  { intros p Hp. destruct (free p) eqn:Hfp; [|done]. by rewrite (Hw p Hfp) in Hp. }
  split_and!; auto.
Qed.

Lemma reg_refl free st : same_registry free st st.
Proof.
  split_and!; try done. intros ws.
  destruct (clientData st !! ws); constructor. apply cd_kept_refl.
Qed.

Lemma reg_trans free st1 st2 st3 :
  same_registry free st1 st2 → same_registry free st2 st3 →
  same_registry free st1 st3.
Proof.
  intros (Hcf & Hcl & Hn & Hs & Hl & Hr & Hcd) (Hcf' & Hcl' & Hn' & Hs' & Hl' & Hr' & Hcd').
  split_and!; [congruence..| | | |].
  - intros Hf. by rewrite Hs', Hs.
  - intros ws. by rewrite Hl', Hl.
  - intros ws. by rewrite Hr', Hr.
  - intros ws. specialize (Hcd ws). specialize (Hcd' ws).
    destruct Hcd as [cd1 cd2 H12|]; inversion Hcd' as [? cd3 H23|]; constructor.
    by eapply cd_kept_trans.
Qed.

Lemma reg_weaken (free free' : Part → bool) st st' :
  (∀ p, free p = true → free' p = true) →
  same_registry free st st' → same_registry free' st st'.
Proof.
  intros Hw (Hcf & Hcl & Hn & Hs & Hl & Hr & Hcd).
  split_and!; try done.
  - intros Hf. apply Hs. destruct (free Subs) eqn:Hfp; [|done].
    by rewrite (Hw _ Hfp) in Hf.
  - intros ws. destruct (Hcd ws); constructor. by eapply cd_kept_weaken.
Qed.

(** A step that touches none of the fields the relation reads. *)
Lemma reg_fields free st st' :
  config st' = config st → clients st' = clients st →
  connectionCount st' = connectionCount st →
  subscriptions st' = subscriptions st →
  readyState st' = readyState st → clientData st' = clientData st →
  same_registry free st st'.
Proof.
  intros Hcf Hcl Hn Hs Hr Hcd. split_and!; try done.
  - intros ws. unfold is_live. by rewrite Hr.
  - intros ws. by rewrite Hr.
  - intros ws. rewrite Hcd. destruct (clientData st !! ws); constructor.
    apply cd_kept_refl.
Qed.

Lemma reg_sendToClient free ws m st : same_registry free st (_sendToClient ws m st).
Proof. unfold _sendToClient. destruct (is_open st ws); by apply reg_fields. Qed.

Lemma reg_ws_close free ws code reason st :
  same_registry free st (ws_close ws code reason st).
Proof.
  unfold ws_close. destruct (is_open st ws) eqn:Hopen; [|apply reg_refl].
  apply bool_decide_eq_true_1 in Hopen.
  split_and!; try done.
  - intros ws'. unfold is_live. cbn. destruct (decide (ws' = ws)) as [->|Hne].
    + rewrite lookup_insert_eq, Hopen. by rewrite !bool_decide_eq_true_2 by auto.
    + by rewrite lookup_insert_ne.
  - intros ws'. cbn. destruct (decide (ws' = ws)) as [->|Hne].
    + rewrite lookup_insert_eq, Hopen. split; intros [=].
    + by rewrite lookup_insert_ne.
  - intros ws'. cbn. destruct (clientData st !! ws'); constructor.
    apply cd_kept_refl.
Qed.

Lemma reg_upd_cd free ws f st :
  (∀ cd, cd_kept free cd (f cd)) → same_registry free st (upd_cd ws f st).
Proof.
  intros Hf. split_and!; try done. intros ws'. cbn.
  destruct (decide (ws = ws')) as [->|Hne].
  - rewrite lookup_alter_eq. destruct (clientData st !! ws'); constructor. apply Hf.
  - rewrite lookup_alter_ne by done.
    destruct (clientData st !! ws'); constructor. apply cd_kept_refl.
Qed.

Lemma reg_alloc free v st : same_registry free st (alloc v st).2.
Proof. destruct v; by apply reg_fields. Qed.

Lemma reg_with_subscriptions (free : Part → bool) v st :
  free Subs = true → same_registry free st (with_subscriptions v st).
Proof.
  intros Hf. split_and!; try done; [by rewrite Hf|].
  intros ws. cbn. destruct (clientData st !! ws); constructor. apply cd_kept_refl.
Qed.

Ltac reg_fold := fail.

Ltac reg_step :=
  match goal with
  | |- same_registry _ ?a ?a => apply reg_refl
  | |- same_registry _ _ (let _ := _ in _) => cbv zeta
  | |- _ => reg_fold
  | H : same_registry _ ?s ?s1 |- same_registry _ _ ?s1 =>
      eapply reg_trans; [|exact H]
  | |- same_registry _ _ (if ?b then _ else _) => destruct b
  | |- same_registry ?free _ (let '(_, _) := alloc ?v ?s in _) =>
      let H := fresh "Halloc" in
      pose proof (reg_alloc free v s) as H;
      destruct (alloc v s) as [? ?]; cbn [snd] in H
  | |- same_registry _ _ (match ?x with _ => _ end) => destruct x
  | |- same_registry _ _ (outcome_state (let _ := _ in _)) => cbv zeta
  | |- same_registry _ _ (outcome_state (if ?b then _ else _)) => destruct b
  | |- same_registry _ _ (outcome_state (match ?x with _ => _ end)) => destruct x
  | |- same_registry _ _ (outcome_state (Returned _)) => cbn [outcome_state]
  | |- same_registry _ _ (outcome_state (Threw _)) => cbn [outcome_state]
  | |- same_registry _ _ (_sendToClient _ _ ?s) =>
      eapply reg_trans; [|apply reg_sendToClient]
  | |- same_registry _ _ (ws_close _ _ _ ?s) =>
      eapply reg_trans; [|apply reg_ws_close]
  | |- same_registry _ _ (upd_cd _ _ ?s) =>
      eapply reg_trans; [|apply reg_upd_cd; intros ?; by repeat split]
  | |- same_registry ?free ?a (with_subscriptions _ ?s) =>
      apply (reg_trans free a s); [|by apply reg_with_subscriptions]
  | |- same_registry ?free ?a (snd (setTimer _ ?s)) =>
      apply (reg_trans free a s); [|by apply reg_fields]
  | |- same_registry ?free ?a (?f _ _ ?s) =>
      apply (reg_trans free a s); [|by apply reg_fields]
  | |- same_registry ?free ?a (?f _ ?s) =>
      apply (reg_trans free a s); [|by apply reg_fields]
  end.

Ltac reg := repeat reg_step.

Lemma reg_add_capabilities free ws caps st :
  same_registry free st (foldl (add_capability ws) st caps).
Proof.
  revert st. induction caps as [|cap caps IH]; intros st; [apply reg_refl|].
  cbn [foldl]. eapply reg_trans; [|apply IH].
  unfold add_capability. reg.
Qed.

Lemma reg_publish free topic data exclude now st :
  same_registry free st (publish topic data exclude now st).1.
Proof.
  destruct (publish_spec st topic data exclude now) as (rs & _ & _ & -> & _).
  by apply reg_fields.
Qed.

Lemma reg_database_error free ws cd requestId now st :
  same_registry free st (database_error ws cd requestId now st).
Proof. unfold database_error. reg. Qed.

Lemma reg_saveToDatabase free dbi data ws cd requestId now st :
  same_registry free st (_saveToDatabase dbi data ws cd requestId now st).
Proof.
  unfold _saveToDatabase. cbv zeta.
  destruct (match encrypt dbi with Some _ => _ | None => _ end);
    [reg|apply reg_database_error].
Qed.

Ltac reg_fold ::=
  match goal with
  | |- same_registry _ _ (foldl (add_capability _) _ _) =>
      eapply reg_trans; [|apply reg_add_capabilities]
  | |- same_registry _ _ (fst (publish _ _ _ _ _)) =>
      eapply reg_trans; [|apply reg_publish]
  | |- same_registry _ _ (database_error _ _ _ _ _) =>
      eapply reg_trans; [|apply reg_database_error]
  | |- same_registry _ _ (_saveToDatabase _ _ _ _ _ _ _) =>
      eapply reg_trans; [|apply reg_saveToDatabase]
  end.

Lemma reg_handleAuthentication ws cd message now st :
  same_registry (only Auth) st (_handleAuthentication ws cd message now st).
Proof. unfold _handleAuthentication. reg. Qed.

Lemma reg_handleSubscribe ws cd message now st :
  same_registry (only Subs) st (_handleSubscribe ws cd message now st).
Proof. unfold _handleSubscribe. reg. Qed.

Lemma reg_handleUnsubscribe ws cd message now st :
  same_registry (only Subs) st (_handleUnsubscribe ws cd message now st).
Proof. unfold _handleUnsubscribe. reg. Qed.

Lemma js_get_checked_Some v f x : js_get_checked v f = Some x → x = js_get v f.
Proof. destruct v as [[]| |]; cbn; congruence. Qed.

(** Every branch of the dispatcher leaves the registry alone, except the
    three handlers that are there to change it. *)
Lemma reg_dispatch ws cd message now st :
  let o := dispatch ws cd message now st in
  same_registry nothing st (outcome_state o)
  ∨ (strict_eq_str (js_get message "type") "auth" = true
     ∧ o = Returned (_handleAuthentication ws cd message now st))
  ∨ o = Returned (_handleSubscribe ws cd message now st)
  ∨ o = Returned (_handleUnsubscribe ws cd message now st).
Proof.
  cbv zeta. unfold dispatch.
  destruct (js_get_checked message "type") as [ty|] eqn:Hty; [|left; apply reg_refl].
  apply js_get_checked_Some in Hty as ->. cbv zeta.
  destruct (strict_eq_str _ "handshake");
    [left; cbn; unfold _handleHandshake; reg|].
  destruct (strict_eq_str _ "auth"); [right; left; done|].
  destruct (strict_eq_str _ "sensor_data");
    [left; cbn; unfold _handleSensorData, _handleDataMessage; reg|].
  destruct (strict_eq_str _ "data"); [left; cbn; unfold _handleDataMessage; reg|].
  destruct (strict_eq_str _ "request"); [left; cbn; unfold _handleRequest; reg|].
  destruct (strict_eq_str _ "response"); [left; unfold _handleResponse; reg|].
  destruct (strict_eq_str _ "subscribe"); [right; right; left; done|].
  destruct (strict_eq_str _ "unsubscribe"); [right; right; right; done|].
  left.
  destruct (strict_eq_str _ "publish"); [cbn; unfold _handlePublish; reg|].
  destruct (strict_eq_str _ "rpc_call"); [unfold _handleRPCCall; reg|].
  destruct (strict_eq_str _ "stream_start"); [cbn; unfold _handleStreamStart; reg|].
  destruct (strict_eq_str _ "stream_data"); [cbn; unfold _handleStreamData; reg|].
  destruct (strict_eq_str _ "stream_end"); [cbn; unfold _handleStreamEnd; reg|].
  destruct (strict_eq_str _ "heartbeat"); [cbn; unfold _handleHeartbeat; reg|].
  destruct (strict_eq_str _ "ping"); [cbn; reg|].
  reg.
Qed.

(** The dispatcher keeps the message counters, whatever the message. *)
Lemma reg_dispatch_count ws cd message now st :
  same_registry (λ p, negb (only Count p)) st
    (outcome_state (dispatch ws cd message now st)).
Proof.
  destruct (reg_dispatch ws cd message now st) as [H|[[_ ->]|[->| ->]]]; cbn.
  - revert H. apply reg_weaken. done.
  - eapply reg_weaken; [|apply reg_handleAuthentication]. by intros [].
  - eapply reg_weaken; [|apply reg_handleSubscribe]. by intros [].
  - eapply reg_weaken; [|apply reg_handleUnsubscribe]. by intros [].
Qed.

(** A message is counted, then dispatched; the three handlers that change
    the registry run in the state [st1] with the counters updated. *)
Lemma reg_handleClientMessage ws rawData now st :
  let st' := _handleClientMessage ws rawData now st in
  same_registry (only Count) st st'
  ∨ ∃ cd message st1,
      parsed rawData = Some message
      ∧ same_registry (only Count) st st1
      ∧ clientData st1 !! ws = Some cd
      ∧ ((strict_eq_str (js_get message "type") "auth" = true
          ∧ st' = _handleAuthentication ws cd message now st1)
         ∨ st' = _handleSubscribe ws cd message now st1
         ∨ st' = _handleUnsubscribe ws cd message now st1).
Proof.
  cbv zeta. unfold _handleClientMessage.
  destruct (clientData st !! ws) as [cd0|] eqn:Hcd0; [|left; apply reg_refl].
  destruct (parsed rawData) as [message|];
    [|left; unfold _handleBinaryMessage, invalid_format; reg].
  cbv zeta. set (cd := cd_with_dataReceived _ _).
  assert (same_registry (only Count) st (upd_cd ws (λ _, cd) st)) as Hu.
  { split_and!; try done. intros ws'. cbn.
    destruct (decide (ws = ws')) as [<-|Hne].
    - rewrite lookup_alter_eq, Hcd0. constructor. by repeat split.
    - rewrite lookup_alter_ne by done.
      destruct (clientData st !! ws'); constructor. apply cd_kept_refl. }
  assert (clientData (upd_cd ws (λ _, cd) st) !! ws = Some cd) as Hcd.
  { cbn. by rewrite lookup_alter_eq, Hcd0. }
  destruct (reg_dispatch ws cd message now (upd_cd ws (λ _, cd) st))
    as [H|[[Hty ->]|[->| ->]]].
  - left. apply (reg_weaken nothing (only Count)) in H; [|done].
    destruct (dispatch _ _ _ _ _); cbn [outcome_state] in H.
    + by eapply reg_trans.
    + unfold invalid_format. eapply reg_trans; [|apply reg_sendToClient].
      by eapply reg_trans.
  - right. exists cd, message, (upd_cd ws (λ _, cd) st). auto 10.
  - right. exists cd, message, (upd_cd ws (λ _, cd) st). auto 10.
  - right. exists cd, message, (upd_cd ws (λ _, cd) st). auto 10.
Qed.

(** The events that are neither a connection, a message, a close nor a
    stop leave the registry alone. *)
Lemma reg_step now ev st :
  match ev with
  | EvStop | EvConnection _ _ _ _ | EvMessage _ _ | EvClose _ _ _ => True
  | _ => same_registry nothing st (step now ev st)
  end.
Proof.
  destruct ev; cbn [step]; try done.
  - unfold start. reg.
  - unfold on_pong. reg.
  - destruct (timers st !! h) as [[requestId promise delay|ws delay|ws interval]|];
      [| | |apply reg_refl].
    + unfold requestTimeout_fired. reg.
    + unfold authCloseTimeout. reg.
    + unfold heartbeatTick. reg.
  - destruct (awaiting st !! promise) as [[ws data requestId|ws requestId]|];
      [| |apply reg_refl].
    + unfold _saveToDatabase_resume. reg.
    + unfold _handleRPCCall_resume. reg.
  - unfold sendRequest. rewrite _getClientByIdAndSocket_undefined. apply reg_refl.
  - unfold sendRequest_executor. cbn. reg.
  - unfold respond. reg.
  - apply reg_publish.
  - unfold registerRPCMethod. reg.
  - unfold unregisterRPCMethod. reg.
  - unfold sendToClient. rewrite _getClientByIdAndSocket_undefined. apply reg_refl.
  - unfold startStream. destruct (_getClientByIdAndSocket _ _) as [[? ?]|]; cbn; reg.
  - unfold sendStreamData. destruct (find_key _ ≫= _); cbn; reg.
  - unfold endStream. destruct (find_key _ ≫= _) as [[? ?]|]; cbn; reg.
Qed.

(** ** Connections, disconnections and [stop] on the registry *)

(** What a connection event does to the registry: nothing when the server
    is not running (or the socket is not new); otherwise the socket is
    either refused and closing, or registered with a new [clientData]. *)
Lemma step_connection now ws clientIP agent clientId st :
  let st' := step now (EvConnection ws clientIP agent clientId) st in
  st' = st
  ∨ (isRunning st = true ∧ readyState st !! ws = None
     ∧ config st' = config st
     ∧ subscriptions st' = subscriptions st
     ∧ ((maxConnections (config st) ≤ connectionCount st
         ∧ clients st' = clients st
         ∧ connectionCount st' = connectionCount st
         ∧ clientData st' = clientData st
         ∧ readyState st' = <[ws := CLOSING]> (readyState st))
        ∨ (connectionCount st < maxConnections (config st)
           ∧ clients st' = {[ws]} ∪ clients st
           ∧ connectionCount st' = connectionCount st + 1
           ∧ clientData st'
             = <[ws := new_clientData (config st) clientId clientIP agent now]>
                 (clientData st)
           ∧ readyState st' = <[ws := OPEN]> (readyState st)))).
Proof.
  cbv zeta. cbn [step].
  destruct (isRunning st) eqn:Hrun; [|by left].
  destruct (bool_decide (readyState st !! ws = None)) eqn:Hnew; [|by left].
  apply bool_decide_eq_true_1 in Hnew. right. cbn [andb].
  unfold _handleNewConnection.
  set (st0 := with_readyState _ st).
  assert (is_open st0 ws = true) as Hopen.
  { unfold is_open. cbn. by rewrite lookup_insert_eq, bool_decide_eq_true_2. }
  change (config st0) with (config st).
  change (connectionCount st0) with (connectionCount st).
  destruct (maxConnections (config st) <=? connectionCount st) eqn:Hfull.
  - apply Z.leb_le in Hfull. unfold ws_close. rewrite Hopen. cbn.
    rewrite insert_insert_eq. split_and!; try done. left. done.
  - apply Z.leb_gt in Hfull. cbv zeta.
    unfold _startClientHeartbeat, _sendToClient.
    split_and!; try done.
    + by destruct (enableHeartbeat _), (is_open _ ws).
    + by destruct (enableHeartbeat _), (is_open _ ws).
    + right. by destruct (enableHeartbeat _), (is_open _ ws).
Qed.

(** The streams loop of [_handleClientDisconnection] keeps the
    configuration. *)
Lemma disconnect_streams_config (id : string) (st0 : Server) (m : gmap Key Stream) :
  config (map_fold (λ streamId stream st,
            if String.eqb (s_clientId stream) id
            then emit "stream-ended"
                   [("clientId", JStr id); ("streamId", key_value st streamId)]
                   (with_streams (delete streamId (streams st)) st)
            else st) st0 m)
  = config st0.
Proof.
  apply (map_fold_weak_ind (λ r _, config r = config st0)); [done|].
  intros k s m' r _ IH. by destruct (String.eqb _ _).
Qed.

(** What [_handleClientDisconnection] does to the registry of a connection
    it knows. *)
Lemma handleClientDisconnection_fields ws code reason now st cd :
  clientData st !! ws = Some cd →
  let st' := _handleClientDisconnection ws code reason now st in
  config st' = config st
  ∧ clients st' = clients st ∖ {[ws]}
  ∧ connectionCount st' = connectionCount st - 1
  ∧ subscriptions st'
    = set_fold (unsubscribe_topic ws) (subscriptions st) (cd_subscriptions cd)
  ∧ readyState st' = readyState st
  ∧ clientData st' = clientData st.
Proof.
  intros Hcd. cbv zeta. unfold _handleClientDisconnection. rewrite Hcd. cbv zeta.
  set (st1 := with_subscriptions _ st).
  pose proof (disconnect_streams_fold (cd_id cd) st1 (streams st1)) as Hfold.
  pose proof (disconnect_streams_config (cd_id cd) st1 (streams st1)) as Hcfg.
  cbv zeta in Hfold. destruct Hfold as (_ & Hs & Hcl & Hdata & Hrs & Hn).
  set (r := map_fold _ _ _) in *. clearbody r. cbn.
  by rewrite Hcfg, Hs, Hcl, Hdata, Hrs, Hn.
Qed.

(** What a close event does to the registry. *)
Lemma step_close now ws code reason st :
  let st' := step now (EvClose ws code reason) st in
  (is_live st ws = false ∧ st' = st)
  ∨ (is_live st ws = true
     ∧ config st' = config st
     ∧ clientData st' = clientData st
     ∧ readyState st' = <[ws := CLOSED]> (readyState st)
     ∧ match clientData st !! ws with
       | None =>
           clients st' = clients st
           ∧ connectionCount st' = connectionCount st
           ∧ subscriptions st' = subscriptions st
       | Some cd =>
           clients st' = clients st ∖ {[ws]}
           ∧ connectionCount st' = connectionCount st - 1
           ∧ subscriptions st'
             = set_fold (unsubscribe_topic ws) (subscriptions st)
                 (cd_subscriptions cd)
       end).
Proof.
  cbv zeta. cbn [step]. destruct (is_live st ws); [right|by left].
  split; [done|]. set (st0 := with_readyState _ st).
  destruct (clientData st !! ws) as [cd|] eqn:Hcd.
  - destruct (handleClientDisconnection_fields ws code reason now st0 cd Hcd)
      as (-> & -> & -> & -> & -> & ->).
    done.
  - unfold _handleClientDisconnection.
    change (clientData st0) with (clientData st). by rewrite Hcd.
Qed.

(** Closing the sockets in [stop] leaves the registry alone. *)
Lemma reg_stop_close (st0 : Server) (X : gset socket) :
  same_registry nothing st0
    (set_fold (λ ws st,
       if is_open st ws then ws_close ws 1000 "Server shutdown" st else st) st0 X).
Proof.
  refine (set_fold_ind_L (λ r (_ : gset socket), same_registry nothing st0 r)
            _ st0 _ _ X); [apply reg_refl|].
  intros x X' r _ IH. rewrite guarded_close.
  eapply reg_trans; [exact IH|apply reg_ws_close].
Qed.

(** What [stop] keeps: the configuration, the [clientData] objects, and
    which sockets can still deliver events. *)
Lemma stop_keeps st :
  let st' := stop st in
  config st' = config st
  ∧ clientData st' = clientData st
  ∧ (∀ ws, is_live st' ws = is_live st ws)
  ∧ (∀ ws, readyState st' !! ws = None ↔ readyState st !! ws = None)
  ∧ (isRunning st = true → subscriptions st' = ∅).
Proof.
  cbv zeta. unfold stop. destruct (isRunning st); cbn [negb]; [|done]. cbv zeta.
  destruct (stop_timers_fold st (pendingRequests st)) as (_ & _ & Hst1).
  cbv zeta in Hst1. set (st1 := map_fold _ st (pendingRequests st)) in *.
  set (st2 := with_subscriptions ∅ (with_streams ∅ (with_pendingRequests ∅ st1))).
  assert (config st2 = config st ∧ clientData st2 = clientData st
          ∧ readyState st2 = readyState st ∧ subscriptions st2 = ∅)
    as (Hcf2 & Hcd2 & Hrs2 & Hsub2).
  { subst st2. clear -Hst1. by rewrite Hst1. }
  clearbody st2. clear Hst1 st1.
  pose proof (reg_stop_close st2 (clients st2)) as (_ & _ & _ & _ & Hl & Hr & _).
  destruct (stop_close_fold st2 (clients st2)) as (closed & _ & _ & _ & Hst3).
  cbv zeta in Hst3. set (st3 := set_fold _ st2 (clients st2)) in *.
  assert (config st3 = config st ∧ clientData st3 = clientData st
          ∧ subscriptions st3 = ∅) as (Hcf3 & Hcd3 & Hsub3).
  { rewrite Hst3. cbn. done. }
  clearbody st3. clear Hst3.
  assert (∀ ws, readyState st3 !! ws = None ↔ readyState st !! ws = None) as Hr'.
  { intros ws. by rewrite Hr, Hrs2. }
  assert (∀ ws, is_live st3 ws = is_live st ws) as Hl'.
  { intros ws. rewrite Hl. unfold is_live. by rewrite Hrs2. }
  destruct (server (with_clients ∅ st3)); done.
Qed.

(** ** Sockets the server has never seen *)

Lemma kept_of_same free st st' ws cd :
  same_registry free st st' → clientData st !! ws = Some cd →
  ∃ cd', clientData st' !! ws = Some cd' ∧ cd_kept free cd cd'.
Proof.
  intros (_ & _ & _ & _ & _ & _ & Hcd) Hws. specialize (Hcd ws).
  rewrite Hws in Hcd. inversion Hcd as [? cd' Hk|]. by exists cd'.
Qed.

Lemma none_of_same free st st' ws :
  same_registry free st st' → clientData st !! ws = None →
  clientData st' !! ws = None.
Proof.
  intros (_ & _ & _ & _ & _ & _ & Hcd) Hws. specialize (Hcd ws).
  rewrite Hws in Hcd. by inversion Hcd.
Qed.

Lemma known_same free st st' :
  same_registry free st st' → known_inv st → known_inv st'.
Proof.
  intros Hsame Hinv ws Hnone. eapply none_of_same; [done|].
  apply Hinv. by apply Hsame.
Qed.

Lemma reg_any free st st' :
  same_registry free st st' → same_registry (λ _, true) st st'.
Proof. by apply reg_weaken. Qed.

(** A message, whatever it is, registers and removes no connection. *)
Lemma reg_message ws rawData now st :
  same_registry (λ _, true) st (_handleClientMessage ws rawData now st).
Proof.
  destruct (reg_handleClientMessage ws rawData now st)
    as [H|(cd & message & st1 & _ & H1 & _ & [[_ ->]|[->| ->]])].
  - by eapply reg_any.
  - eapply reg_trans; eapply reg_any; [exact H1|apply reg_handleAuthentication].
  - eapply reg_trans; eapply reg_any; [exact H1|apply reg_handleSubscribe].
  - eapply reg_trans; eapply reg_any; [exact H1|apply reg_handleUnsubscribe].
Qed.

(** The case analysis on an event, with the names of its fields. *)
Ltac event_cases ev :=
  destruct ev as
    [| |ws0 clientIP agent clientId|ws0 rawData|ws0|ws0 code reason|h
     |promise result|clientId endpoint data timeout requestId
     |client requestId endpoint data timeout|ws0 requestId responseData err
     |topic data excludeClientId|methodName handler|methodName|clientId data
     |clientId streamId streamType0|streamId data sequenceNumber|streamId].

Lemma known_step now ev st : known_inv st → known_inv (step now ev st).
Proof.
  intros Hinv.
  pose proof (reg_step now ev st) as Hreg.
  event_cases ev; try (by eapply known_same); clear Hreg.
  - destruct (stop_keeps st) as (_ & Hcd & _ & Hr & _).
    intros ws0 Hnone. cbn [step]. rewrite Hcd. by apply Hinv, Hr.
  - destruct (step_connection now ws0 clientIP agent clientId st)
      as [->|(_ & Hnew & _ & _ & [(_ & _ & _ & Hcd & Hrs)|(_ & _ & _ & Hcd & Hrs)])];
      [done|..]; intros ws' Hnone; rewrite Hcd; rewrite Hrs in Hnone;
      apply lookup_insert_None in Hnone as [Hnone Hne].
    + by apply Hinv.
    + rewrite lookup_insert_ne by done. by apply Hinv.
  - cbn [step]. destruct (is_live st ws0); [|done].
    eapply known_same; [apply reg_message|done].
  - destruct (step_close now ws0 code reason st) as [[_ ->]|(_ & _ & Hcd & Hrs & _)];
      [done|].
    intros ws' Hnone. rewrite Hcd. rewrite Hrs in Hnone.
    apply lookup_insert_None in Hnone as [Hnone Hne]. by apply Hinv.
Qed.

Lemma config_step now ev st : config (step now ev st) = config st.
Proof.
  pose proof (reg_step now ev st) as Hreg.
  event_cases ev; try (by destruct Hreg); clear Hreg.
  - cbn [step]. by destruct (stop_keeps st) as (-> & _).
  - by destruct (step_connection now ws0 clientIP agent clientId st)
      as [->|(_ & _ & -> & _)].
  - cbn [step]. destruct (is_live st ws0); [|done].
    by destruct (reg_message ws0 rawData now st).
  - by destruct (step_close now ws0 code reason st) as [[_ ->]|(_ & -> & _)].
Qed.

Lemma run_cons now ev evs st : run ((now, ev) :: evs) st = run evs (step now ev st).
Proof. done. Qed.

Lemma known_run evs st : known_inv st → known_inv (run evs st).
Proof.
  revert st. induction evs as [|[now ev] evs IH]; intros st Hinv; [done|].
  rewrite run_cons. apply IH. by apply known_step.
Qed.

Lemma config_run evs st : config (run evs st) = config st.
Proof.
  revert st. induction evs as [|[now ev] evs IH]; intros st; [done|].
  by rewrite run_cons, IH, config_step.
Qed.

Lemma constructor_fields cfg dbInstance :
  config (constructor cfg dbInstance) = cfg
  ∧ clients (constructor cfg dbInstance) = ∅
  ∧ connectionCount (constructor cfg dbInstance) = 0
  ∧ subscriptions (constructor cfg dbInstance) = ∅
  ∧ clientData (constructor cfg dbInstance) = ∅
  ∧ readyState (constructor cfg dbInstance) = ∅
  ∧ isRunning (constructor cfg dbInstance) = false.
Proof. done. Qed.

Lemma known_constructor cfg dbInstance : known_inv (constructor cfg dbInstance).
Proof.
  intros ws _. destruct (constructor_fields cfg dbInstance) as (_ & _ & _ & _ & -> & _).
  apply lookup_empty.
Qed.

(** ** The connection counter *)

Lemma registry_same free st st' :
  same_registry free st st' → registry_inv st → registry_inv st'.
Proof.
  intros Hsame [Hm Hc Hb].
  pose proof Hsame as (Hcf & Hcl & Hn & _ & Hl & _ & Hcd).
  split.
  - intros ws. rewrite Hcl, Hl, Hm.
    assert (is_Some (clientData st' !! ws) ↔ is_Some (clientData st !! ws)) as ->;
      [|done].
    destruct (Hcd ws); split; intros [? ?]; by eauto.
  - by rewrite Hn, Hcl.
  - by rewrite Hn, Hcf.
Qed.

Lemma is_live_insert st ws s ws' :
  is_live (with_readyState (<[ws := s]> (readyState st)) st) ws'
  = if decide (ws' = ws) then bool_decide (s = OPEN ∨ s = CLOSING) else is_live st ws'.
Proof.
  unfold is_live. cbn. destruct (decide (ws' = ws)) as [->|Hne].
  - rewrite lookup_insert_eq. apply bool_decide_ext. naive_solver.
  - by rewrite lookup_insert_ne.
Qed.

Lemma is_live_step st st' ws s ws' :
  readyState st' = <[ws := s]> (readyState st) →
  is_live st' ws'
  = if decide (ws' = ws) then bool_decide (s = OPEN ∨ s = CLOSING) else is_live st ws'.
Proof. intros Hrs. rewrite <- is_live_insert. unfold is_live. by rewrite Hrs. Qed.

Lemma is_live_None st ws : readyState st !! ws = None → is_live st ws = false.
Proof.
  intros Hnone. unfold is_live. rewrite Hnone.
  apply bool_decide_eq_false_2. by intros [|].
Qed.

Lemma registry_step now ev st :
  is_stop ev = false → known_inv st → registry_inv st →
  registry_inv (step now ev st).
Proof.
  intros Hev Hknown Hinv.
  pose proof (reg_step now ev st) as Hreg.
  event_cases ev; try discriminate Hev; try (by eapply registry_same); clear Hreg.
  - destruct Hinv as [Hm Hc Hb].
    destruct (step_connection now ws0 clientIP agent clientId st)
      as [->|(_ & Hnew & Hcf & _ & [(_ & Hcl & Hn & Hcd & Hrs)|(Hlt & Hcl & Hn & Hcd & Hrs)])];
      [done|..].
    + split; [|by rewrite Hn, Hcl|by rewrite Hn, Hcf].
      intros ws'. rewrite Hcl, Hcd, (is_live_step _ _ _ _ ws' Hrs), Hm.
      destruct (decide (ws' = ws0)) as [->|Hne]; [|done].
      rewrite (Hknown ws0 Hnew), (is_live_None st ws0 Hnew).
      split; intros [? [? ?]]; done.
    + assert (ws0 ∉ clients st) as Hnotin.
      { rewrite Hm, (is_live_None st ws0 Hnew). by intros [? _]. }
      split.
      * intros ws'. rewrite Hcl, Hcd, (is_live_step _ _ _ _ ws' Hrs).
        destruct (decide (ws' = ws0)) as [->|Hne].
        -- rewrite lookup_insert_eq. split; [|set_solver].
           intros _. split; [by apply bool_decide_eq_true_2; left|done].
        -- rewrite lookup_insert_ne by done. rewrite <- Hm. set_solver.
      * rewrite Hn, Hcl, Hc, size_union, size_singleton by set_solver. lia.
      * rewrite Hn, Hcf. lia.
  - cbn [step]. destruct (is_live st ws0); [|done].
    eapply registry_same; [apply reg_message|done].
  - destruct Hinv as [Hm Hc Hb].
    destruct (step_close now ws0 code reason st) as [[_ ->]|(Hlive & Hcf & Hcd & Hrs & Hrest)];
      [done|].
    pose proof (λ ws', is_live_step _ _ _ _ ws' Hrs) as Hl. cbn in Hl.
    destruct (clientData st !! ws0) as [cd|] eqn:Hws.
    + destruct Hrest as (Hcl & Hn & _).
      assert (ws0 ∈ clients st) as Hin by (apply Hm; eauto).
      split.
      * intros ws'. rewrite Hcl, Hcd, Hl.
        destruct (decide (ws' = ws0)) as [->|Hne]; [set_solver|].
        rewrite <- Hm. set_solver.
      * rewrite Hn, Hcl, Hc, size_difference, size_singleton by set_solver.
        assert (size (clients st) ≠ 0%nat); [|lia].
        intros Hz%size_empty_inv. set_solver.
      * rewrite Hn, Hcf. lia.
    + destruct Hrest as (Hcl & Hn & _).
      split; [|by rewrite Hn, Hcl|by rewrite Hn, Hcf].
      intros ws'. rewrite Hcl, Hcd, Hl, Hm.
      destruct (decide (ws' = ws0)) as [->|Hne]; [|done].
      rewrite Hws. split; intros [? [? ?]]; done.
Qed.

Lemma registry_run evs st :
  stop_free evs = true → known_inv st → registry_inv st →
  registry_inv (run evs st).
Proof.
  revert st. induction evs as [|[now ev] evs IH]; intros st Hfree Hknown Hinv;
    [done|].
  cbn in Hfree. apply andb_true_iff in Hfree as [Hev Hfree].
  apply negb_true_iff in Hev.
  rewrite run_cons. apply IH; [done|by apply known_step|by apply registry_step].
Qed.

Lemma registry_constructor cfg dbInstance : registry_inv (constructor cfg dbInstance).
Proof.
  destruct (constructor_fields cfg dbInstance) as (Hcf & Hcl & Hn & _ & Hcd & Hrs & _).
  split.
  - intros ws. rewrite Hcl, Hcd, lookup_empty. split; [set_solver|].
    by intros [_ [? ?]].
  - by rewrite Hn, Hcl.
  - rewrite Hn. lia.
Qed.

(** ** The ids of the stream sessions *)

Lemma ks_refl st : kept_streams st st.
Proof. split; [done|]. exists []. by rewrite app_nil_r. Qed.

Lemma ks_trans st1 st2 st3 :
  kept_streams st1 st2 → kept_streams st2 st3 → kept_streams st1 st3.
Proof.
  intros [Hs [l Hl]] [Hs' [l' Hl']]. split; [auto|].
  exists (l ++ l'). by rewrite Hl', Hl, app_assoc.
Qed.

Lemma ks_fields st st' :
  streams st' = streams st → refs st' = refs st → kept_streams st st'.
Proof. intros Hs Hr. split; [by rewrite Hs|]. exists []. by rewrite Hr, app_nil_r. Qed.

Lemma ks_sendToClient ws m st : kept_streams st (_sendToClient ws m st).
Proof. unfold _sendToClient. destruct (is_open st ws); by apply ks_fields. Qed.

Lemma ks_ws_close ws code reason st : kept_streams st (ws_close ws code reason st).
Proof. unfold ws_close. destruct (is_open st ws); by apply ks_fields. Qed.

Lemma ks_alloc v st : kept_streams st (alloc v st).2.
Proof.
  destruct v; [apply ks_refl|..]; (split; [done|]); by eexists.
Qed.

Lemma ks_delete k st : kept_streams st (with_streams (delete k (streams st)) st).
Proof.
  split; [|exists []; by rewrite app_nil_r].
  intros k' s. cbn. by intros [_ ?]%lookup_delete_Some.
Qed.

Ltac ks_fold := fail.

Ltac ks_step :=
  match goal with
  | |- kept_streams ?a ?a => apply ks_refl
  | |- kept_streams _ (let _ := _ in _) => cbv zeta
  | |- _ => ks_fold
  | H : kept_streams ?s ?s1 |- kept_streams _ ?s1 =>
      eapply ks_trans; [|exact H]
  | |- kept_streams _ (if ?b then _ else _) => destruct b
  | |- kept_streams _ (let '(_, _) := alloc ?v ?s in _) =>
      let H := fresh "Halloc" in
      pose proof (ks_alloc v s) as H;
      destruct (alloc v s) as [? ?]; cbn [snd] in H
  | |- kept_streams _ (match ?x with _ => _ end) => destruct x
  | |- kept_streams _ (outcome_state (let _ := _ in _)) => cbv zeta
  | |- kept_streams _ (outcome_state (if ?b then _ else _)) => destruct b
  | |- kept_streams _ (outcome_state (match ?x with _ => _ end)) => destruct x
  | |- kept_streams _ (outcome_state (Returned _)) => cbn [outcome_state]
  | |- kept_streams _ (outcome_state (Threw _)) => cbn [outcome_state]
  | |- kept_streams _ (_sendToClient _ _ ?s) =>
      eapply ks_trans; [|apply ks_sendToClient]
  | |- kept_streams _ (ws_close _ _ _ ?s) =>
      eapply ks_trans; [|apply ks_ws_close]
  | |- kept_streams ?a (with_streams (delete _ (streams ?s)) ?s) =>
      apply (ks_trans a s); [|apply ks_delete]
  | |- kept_streams ?a (snd (setTimer _ ?s)) =>
      apply (ks_trans a s); [|by apply ks_fields]
  | |- kept_streams ?a (?f _ _ _ ?s) =>
      apply (ks_trans a s); [|by apply ks_fields]
  | |- kept_streams ?a (?f _ _ ?s) =>
      apply (ks_trans a s); [|by apply ks_fields]
  | |- kept_streams ?a (?f _ ?s) =>
      apply (ks_trans a s); [|by apply ks_fields]
  end.

Ltac ks := repeat ks_step.

Lemma ks_add_capabilities ws caps st :
  kept_streams st (foldl (add_capability ws) st caps).
Proof.
  revert st. induction caps as [|cap caps IH]; intros st; [apply ks_refl|].
  cbn [foldl]. eapply ks_trans; [|apply IH].
  unfold add_capability. ks.
Qed.

Lemma ks_publish topic data exclude now st :
  kept_streams st (publish topic data exclude now st).1.
Proof.
  destruct (publish_spec st topic data exclude now) as (rs & _ & _ & -> & _).
  by apply ks_fields.
Qed.

Lemma ks_database_error ws cd requestId now st :
  kept_streams st (database_error ws cd requestId now st).
Proof. unfold database_error. ks. Qed.

Lemma ks_saveToDatabase dbi data ws cd requestId now st :
  kept_streams st (_saveToDatabase dbi data ws cd requestId now st).
Proof.
  unfold _saveToDatabase. cbv zeta.
  destruct (match encrypt dbi with Some _ => _ | None => _ end);
    [ks|apply ks_database_error].
Qed.

Ltac ks_fold ::=
  match goal with
  | |- kept_streams _ (foldl (add_capability _) _ _) =>
      eapply ks_trans; [|apply ks_add_capabilities]
  | |- kept_streams _ (fst (publish _ _ _ _ _)) =>
      eapply ks_trans; [|apply ks_publish]
  | |- kept_streams _ (database_error _ _ _ _ _) =>
      eapply ks_trans; [|apply ks_database_error]
  | |- kept_streams _ (_saveToDatabase _ _ _ _ _ _ _) =>
      eapply ks_trans; [|apply ks_saveToDatabase]
  end.

(** Every branch of the dispatcher but [stream_start] starts no session. *)
Lemma ks_dispatch ws cd message now st :
  let o := dispatch ws cd message now st in
  kept_streams st (outcome_state o)
  ∨ (strict_eq_str (js_get message "type") "stream_start" = true
     ∧ o = Returned (_handleStreamStart ws cd message now st)).
Proof.
  cbv zeta. unfold dispatch.
  destruct (js_get_checked message "type") as [ty|] eqn:Hty; [|left; apply ks_refl].
  apply js_get_checked_Some in Hty as ->. cbv zeta.
  destruct (strict_eq_str _ "handshake");
    [left; cbn; unfold _handleHandshake; ks|].
  destruct (strict_eq_str _ "auth"); [left; cbn; unfold _handleAuthentication; ks|].
  destruct (strict_eq_str _ "sensor_data");
    [left; cbn; unfold _handleSensorData, _handleDataMessage; ks|].
  destruct (strict_eq_str _ "data"); [left; cbn; unfold _handleDataMessage; ks|].
  destruct (strict_eq_str _ "request"); [left; cbn; unfold _handleRequest; ks|].
  destruct (strict_eq_str _ "response"); [left; unfold _handleResponse; ks|].
  destruct (strict_eq_str _ "subscribe"); [left; cbn; unfold _handleSubscribe; ks|].
  destruct (strict_eq_str _ "unsubscribe");
    [left; cbn; unfold _handleUnsubscribe; ks|].
  destruct (strict_eq_str _ "publish"); [left; cbn; unfold _handlePublish; ks|].
  destruct (strict_eq_str _ "rpc_call"); [left; unfold _handleRPCCall; ks|].
  destruct (strict_eq_str _ "stream_start") eqn:Hstart; [right; done|].
  left.
  destruct (strict_eq_str _ "stream_data"); [cbn; unfold _handleStreamData; ks|].
  destruct (strict_eq_str _ "stream_end"); [cbn; unfold _handleStreamEnd; ks|].
  destruct (strict_eq_str _ "heartbeat"); [cbn; unfold _handleHeartbeat; ks|].
  destruct (strict_eq_str _ "ping"); [cbn; ks|].
  ks.
Qed.

Lemma ids_kept st st' : kept_streams st st' → ids_inv st → ids_inv st'.
Proof.
  intros [Hs [l Hl]] Hinv k s Hk. specialize (Hinv k s (Hs k s Hk)).
  destruct k as [p|r]; [done|]. destruct Hinv as (v & Hv & Hr).
  exists v. split; [|done]. rewrite Hl. by apply lookup_app_l_Some.
Qed.

(** A session whose id can be rendered is started. *)
Lemma ids_handleStreamStart ws cd message now st :
  is_Some (js_String (js_get message "streamId")) →
  ids_inv st → ids_inv (_handleStreamStart ws cd message now st).
Proof.
  intros Hr Hinv. unfold _handleStreamStart.
  destruct (negb _); [by eapply ids_kept; [apply ks_sendToClient|]|].
  cbv zeta.
  destruct (alloc (js_get message "streamId") st) as [k st1] eqn:Halloc.
  set (st2 := with_streams _ st1).
  assert (ids_inv st2) as Hinv2.
  { intros k' s. subst st2. cbn [streams with_streams refs].
    intros [[<- _]|[Hne Hk']]%lookup_insert_Some.
    - destruct (js_get message "streamId") as [p| |];
        cbn in Halloc; injection Halloc as <- <-; [done|..];
        (eexists; split; [|exact Hr]);
        cbn; by rewrite lookup_app_r, Nat.sub_diag.
    - assert (streams st1 = streams st ∧ ∃ l, refs st1 = refs st ++ l) as [Hs [l Hl]].
      { destruct (ks_alloc (js_get message "streamId") st) as [_ Hl].
        rewrite Halloc in Hl. split; [|exact Hl].
        destruct (js_get message "streamId"); cbn in Halloc;
          by injection Halloc as <- <-. }
      rewrite Hs in Hk'. specialize (Hinv k' s Hk').
      destruct k' as [p|r]; [done|]. destruct Hinv as (v & Hv & Hrv).
      exists v. split; [|done]. rewrite Hl. by apply lookup_app_l_Some. }
  clearbody st2. eapply ids_kept; [|exact Hinv2]. ks.
Qed.

Lemma ids_handleClientMessage ws rawData now st :
  renders_stream_id rawData = true →
  ids_inv st → ids_inv (_handleClientMessage ws rawData now st).
Proof.
  intros Hr Hinv. unfold _handleClientMessage. unfold renders_stream_id in Hr.
  destruct (clientData st !! ws) as [cd0|]; [|done].
  destruct (parsed rawData) as [message|].
  - cbv zeta. set (cd := cd_with_dataReceived _ _).
    assert (ids_inv (upd_cd ws (λ _, cd) st)) as Hinv1
      by (eapply ids_kept; [by apply ks_fields|done]).
    destruct (ks_dispatch ws cd message now (upd_cd ws (λ _, cd) st))
      as [Hk|[Hstart ->]].
    + destruct (dispatch _ _ _ _ _); cbn [outcome_state] in Hk.
      * by eapply ids_kept.
      * eapply ids_kept; [|exact Hinv1]. unfold invalid_format.
        eapply ks_trans; [exact Hk|apply ks_sendToClient].
    + rewrite Hstart in Hr. cbn [negb orb] in Hr.
      apply bool_decide_eq_true_1 in Hr. by apply ids_handleStreamStart.
  - eapply ids_kept; [|exact Hinv].
    unfold _handleBinaryMessage, invalid_format. ks.
Qed.

Lemma ks_handleClientDisconnection ws code reason now st :
  kept_streams st (_handleClientDisconnection ws code reason now st).
Proof.
  unfold _handleClientDisconnection.
  destruct (clientData st !! ws) as [cd|]; [|apply ks_refl]. cbv zeta.
  set (st1 := with_subscriptions _ st).
  assert (kept_streams st st1) as H1 by (by apply ks_fields).
  assert (kept_streams st1
            (map_fold (λ streamId stream st,
               if String.eqb (s_clientId stream) (cd_id cd)
               then emit "stream-ended"
                      [("clientId", JStr (cd_id cd)); ("streamId", key_value st streamId)]
                      (with_streams (delete streamId (streams st)) st)
               else st) st1 (streams st1))) as H2.
  { apply (map_fold_weak_ind (λ r _, kept_streams st1 r)); [apply ks_refl|].
    intros k s m r _ IH. destruct (String.eqb _ _); [|done]. ks. }
  set (st2 := map_fold _ _ _) in *. clearbody st2 st1. ks.
Qed.

Lemma ks_stop st : kept_streams st (stop st).
Proof.
  unfold stop. destruct (negb (isRunning st)); [apply ks_refl|]. cbv zeta.
  destruct (stop_timers_fold st (pendingRequests st)) as (_ & _ & Hst1).
  cbv zeta in Hst1. set (st1 := map_fold _ st (pendingRequests st)) in *.
  assert (kept_streams st st1) as H1 by (rewrite Hst1; by apply ks_fields).
  clearbody st1. clear Hst1.
  set (st2 := with_subscriptions ∅ (with_streams ∅ (with_pendingRequests ∅ st1))).
  assert (kept_streams st st2) as H2.
  { eapply ks_trans; [exact H1|]. split; [|exists []; by rewrite app_nil_r].
    intros k s. subst st2. cbn. by rewrite lookup_empty. }
  clearbody st2. clear H1 st1.
  destruct (stop_close_fold st2 (clients st2)) as (closed & _ & _ & _ & Hst3).
  cbv zeta in Hst3. set (st3 := set_fold _ st2 (clients st2)) in *.
  assert (kept_streams st st3) as H3.
  { eapply ks_trans; [exact H2|]. rewrite Hst3. by apply ks_fields. }
  clearbody st3. clear Hst3 H2.
  ks.
Qed.

Lemma ids_step now ev st :
  match ev with
  | EvMessage _ rawData => renders_stream_id rawData = true
  | _ => True
  end →
  ids_inv st → ids_inv (step now ev st).
Proof.
  intros Hr Hinv.
  event_cases ev; cbn [step].
  4:{ destruct (is_live st ws0); [|done]. by apply ids_handleClientMessage. }
  all: eapply ids_kept; [|exact Hinv].
  - unfold start. ks.
  - apply ks_stop.
  - destruct (isRunning st && _); [|apply ks_refl].
    unfold _handleNewConnection, _startClientHeartbeat. ks.
  - unfold on_pong. ks.
  - destruct (is_live st ws0); [|apply ks_refl].
    eapply ks_trans; [|apply ks_handleClientDisconnection]. by apply ks_fields.
  - destruct (timers st !! h) as [[requestId promise delay|ws delay|ws interval]|];
      [| | |apply ks_refl].
    + unfold requestTimeout_fired. ks.
    + unfold authCloseTimeout. ks.
    + unfold heartbeatTick. ks.
  - destruct (awaiting st !! promise) as [[ws data requestId|ws requestId]|];
      [| |apply ks_refl].
    + unfold _saveToDatabase_resume. ks.
    + unfold _handleRPCCall_resume. ks.
  - unfold sendRequest. rewrite _getClientByIdAndSocket_undefined. apply ks_refl.
  - unfold sendRequest_executor. cbn. ks.
  - unfold respond. ks.
  - apply ks_publish.
  - unfold registerRPCMethod. ks.
  - unfold unregisterRPCMethod. ks.
  - unfold sendToClient. rewrite _getClientByIdAndSocket_undefined. apply ks_refl.
  - unfold startStream. destruct (_getClientByIdAndSocket _ _) as [[? ?]|]; cbn; ks.
  - unfold sendStreamData. destruct (find_key _ ≫= _); cbn; ks.
  - unfold endStream. destruct (find_key _ ≫= _) as [[? ?]|]; cbn; ks.
Qed.

Lemma ids_run evs st :
  renders_stream_ids evs = true → ids_inv st → ids_inv (run evs st).
Proof.
  revert st. induction evs as [|[now ev] evs IH]; intros st Hr Hinv; [done|].
  cbn [renders_stream_ids forallb] in Hr. apply andb_true_iff in Hr as [Hev Hr].
  rewrite run_cons. apply IH; [done|]. apply ids_step; [|done].
  by destruct ev.
Qed.

Lemma ids_constructor cfg dbInstance : ids_inv (constructor cfg dbInstance).
Proof. intros k s Hk. by vm_compute in Hk. Qed.

Lemma ids_render st k s :
  ids_inv st → streams st !! k = Some s → is_Some (js_String (key_value st k)).
Proof.
  intros Hinv Hk. specialize (Hinv k s Hk). destruct k as [p|r].
  - by destruct p as [| |[]| |]; eexists.
  - destruct Hinv as (v & Hv & Hr). cbn. by rewrite Hv.
Qed.

(** ** The counter in a run *)

(** X1: as long as [stop] is not called and the stream ids that clients
    announce can be rendered, the connection counter is the number of
    registered connections, the registered connections are the accepted
    ones whose socket has not closed, and the counter never exceeds
    [maxConnections] (a limit below zero behaves as zero).  Every session
    id in the table can be rendered, so that the listeners of the manager
    return when a connection is removed. *)
Theorem connectionCount_counts_registered_connections
    (cfg : Config) (dbInstance : option Db) (evs : list (time * Event)) :
  stop_free evs = true →
  renders_stream_ids evs = true →
  let st := run evs (constructor cfg dbInstance) in
  connectionCount st = Z.of_nat (size (clients st))
  ∧ 0 ≤ connectionCount st ≤ Z.max 0 (maxConnections cfg)
  ∧ (∀ ws, ws ∈ clients st ↔ is_live st ws = true ∧ is_Some (clientData st !! ws))
  ∧ (∀ k s, streams st !! k = Some s → is_Some (js_String (key_value st k))).
Proof.
  intros Hfree Hrender st.
  assert (ids_inv st) as Hids by (by apply ids_run; [|apply ids_constructor]).
  destruct (registry_run evs (constructor cfg dbInstance) Hfree
              (known_constructor cfg dbInstance) (registry_constructor cfg dbInstance))
    as [Hm Hc Hb].
  fold st in Hm, Hc, Hb.
  assert (config st = cfg) as Hcf by apply config_run.
  rewrite Hcf in Hb. split_and!; [done|lia|done|done|].
  intros k s. by apply ids_render.
Qed.

Lemma connectionCount_counts_registered_connections_witness :
  let evs := [(0, EvStart); (1, EvConnection 0%nat "10.0.0.7" "agent" "client_1");
              (2, EvConnection 1%nat "10.0.0.8" "agent" "client_2");
              (3, EvClose 0%nat 1000 "bye")] in
  stop_free evs = true
  ∧ renders_stream_ids evs = true
  ∧ connectionCount (run evs (constructor default_config None))
    = Z.of_nat (size (clients (run evs (constructor default_config None)))).
Proof.
  split; [reflexivity|]. split; [reflexivity|].
  apply (connectionCount_counts_registered_connections default_config None
           [(0, EvStart); (1, EvConnection 0%nat "10.0.0.7" "agent" "client_1");
            (2, EvConnection 1%nat "10.0.0.8" "agent" "client_2");
            (3, EvClose 0%nat 1000 "bye")]); reflexivity.
Defined.

(** ** The subscription index *)

Lemma subscriptions_same free st st' :
  free Subs = false → same_registry free st st' →
  subscriptions_inv st → subscriptions_inv st'.
Proof.
  intros Hfree Hsame Hinv topic s Hs.
  pose proof Hsame as (_ & _ & _ & Hsub & _).
  rewrite (Hsub Hfree) in Hs. destruct (Hinv topic s Hs) as [Hne Hmem].
  split; [done|]. intros ws Hws. destruct (Hmem ws Hws) as (cd & Hcd & Hin).
  destruct (kept_of_same free st st' ws cd Hsame Hcd)
    as (cd' & Hcd' & _ & _ & _ & _ & _ & _ & Hk & _).
  exists cd'. split; [done|]. by rewrite (Hk Hfree).
Qed.

(** What [_handleSubscribe] does to the index and to the connection. *)
Lemma handleSubscribe_fields ws cd message now st :
  enablePubSub (config st) = true →
  let st' := _handleSubscribe ws cd message now st in
  ∃ k,
    k = store_key (js_get message "topic") (length (refs st))
    ∧ subscriptions st'
      = <[k := {[ws]} ∪ default ∅ (subscriptions st !! k)]> (subscriptions st)
    ∧ clientData st'
      = alter (λ cd, cd_with_cd_subscriptions ({[k]} ∪ cd_subscriptions cd) cd) ws
          (clientData st)
    ∧ clients st' = clients st
    ∧ readyState st' = readyState st.
Proof.
  intros Hon. cbv zeta. unfold _handleSubscribe. rewrite Hon. cbn [negb].
  cbv zeta. unfold _sendToClient.
  destruct (js_get message "topic") as [p| |]; cbn [alloc store_key];
    (eexists; split; [reflexivity|]); by destruct (is_open _ ws).
Qed.

Lemma subscriptions_handleSubscribe ws cd0 cd message now st :
  clientData st !! ws = Some cd0 →
  subscriptions_inv st → subscriptions_inv (_handleSubscribe ws cd message now st).
Proof.
  intros Hcd0 Hinv.
  destruct (enablePubSub (config st)) eqn:Hon.
  - destruct (handleSubscribe_fields ws cd message now st Hon)
      as (k & _ & Hs & Hcd & _).
    intros topic s. rewrite Hs, Hcd. intros Hlook.
    assert (∀ ws', ws' ∈ s → ws' ≠ ws →
              ∃ cd', clientData st !! ws' = Some cd' ∧ topic ∈ cd_subscriptions cd')
      as Hold.
    { intros ws' Hws' Hne.
      apply lookup_insert_Some in Hlook as [[<- <-]|[_ Hlook]].
      - destruct (subscriptions st !! k) as [old|] eqn:Hk; cbn in Hws'; [|set_solver].
        apply (Hinv k old Hk). set_solver.
      - by apply (Hinv topic s Hlook). }
    split.
    + apply lookup_insert_Some in Hlook as [[_ <-]|[_ Hlook]]; [set_solver|].
      by apply (Hinv topic s Hlook).
    + intros ws' Hws'. destruct (decide (ws' = ws)) as [->|Hne].
      * rewrite lookup_alter_eq, Hcd0. eexists. split; [done|]. cbn.
        apply lookup_insert_Some in Hlook as [[<- _]|[_ Hlook]]; [set_solver|].
        destruct (Hinv topic s Hlook) as [_ Hmem].
        destruct (Hmem ws Hws') as (cd' & Hcd' & Hin). set_solver.
      * rewrite lookup_alter_ne by done. by apply Hold.
  - eapply (subscriptions_same nothing); [done| |done].
    unfold _handleSubscribe. rewrite Hon. apply reg_sendToClient.
Qed.

(** What [_handleUnsubscribe] does to the index and to the connection, for
    a topic that can be a key. *)
Lemma handleUnsubscribe_fields ws cd message now st k :
  find_key (js_get message "topic") = Some k →
  let st' := _handleUnsubscribe ws cd message now st in
  subscriptions st' = unsubscribe_topic ws k (subscriptions st)
  ∧ clientData st'
    = alter (λ cd, cd_with_cd_subscriptions (cd_subscriptions cd ∖ {[k]}) cd) ws
        (clientData st)
  ∧ clients st' = clients st
  ∧ readyState st' = readyState st.
Proof.
  intros Hk. cbv zeta. unfold _handleUnsubscribe. rewrite Hk. cbv zeta.
  unfold _sendToClient. by destruct (is_open _ ws).
Qed.

Lemma subscriptions_without ws st k entry :
  subscriptions_inv st → subscriptions st !! k = entry →
  ∀ s, without_subscriber ws entry = Some s →
    s ≠ ∅ ∧ ∀ ws', ws' ∈ s → ws' ≠ ws ∧
      ∃ cd, clientData st !! ws' = Some cd ∧ k ∈ cd_subscriptions cd.
Proof.
  intros Hinv Hk s Hs.
  destruct (without_subscriber_spec ws entry) as (Hnot & Hne & Hsame).
  rewrite Hs in Hnot, Hne, Hsame. cbn in Hnot, Hsame.
  split; [congruence|]. intros ws' Hws'.
  assert (ws' ≠ ws) as Hdiff by (intros ->; done). split; [done|].
  apply Hsame in Hws'; [|done].
  destruct entry as [old|]; cbn in Hws'; [|set_solver].
  by apply (Hinv k old).
Qed.

Lemma subscriptions_handleUnsubscribe ws cd message now st :
  subscriptions_inv st → subscriptions_inv (_handleUnsubscribe ws cd message now st).
Proof.
  intros Hinv.
  destruct (find_key (js_get message "topic")) as [k|] eqn:Hk.
  - destruct (handleUnsubscribe_fields ws cd message now st k Hk) as (Hs & Hcd & _).
    intros topic s. rewrite Hs, Hcd, unsubscribe_topic_lookup. intros Hlook.
    destruct (decide (topic = k)) as [->|Htopic].
    + destruct (subscriptions_without ws st k _ Hinv eq_refl s Hlook) as [Hne Hmem].
      split; [done|]. intros ws' Hws'. destruct (Hmem ws' Hws') as [Hdiff Hcd'].
      by rewrite lookup_alter_ne.
    + destruct (Hinv topic s Hlook) as [Hne Hmem]. split; [done|].
      intros ws' Hws'. destruct (Hmem ws' Hws') as (cd' & Hcd' & Hin).
      destruct (decide (ws' = ws)) as [->|Hdiff].
      * rewrite lookup_alter_eq, Hcd'. eexists. split; [done|]. cbn. set_solver.
      * rewrite lookup_alter_ne by done. eauto.
  - eapply (subscriptions_same nothing); [done| |done].
    unfold _handleUnsubscribe. rewrite Hk. reg.
Qed.

(** After the close event of a known connection the index is consistent
    and the socket is in no subscriber set. *)
Lemma subscriptions_disconnected ws cd st :
  subscriptions_inv st → clientData st !! ws = Some cd →
  ∀ topic s,
    set_fold (unsubscribe_topic ws) (subscriptions st) (cd_subscriptions cd)
      !! topic = Some s →
    s ≠ ∅ ∧ (ws ∉ s)
    ∧ ∀ ws', ws' ∈ s →
        ∃ cd', clientData st !! ws' = Some cd' ∧ topic ∈ cd_subscriptions cd'.
Proof.
  intros Hinv Hcd topic s. rewrite unsubscribe_topics_lookup. intros Hlook.
  destruct (decide (topic ∈ cd_subscriptions cd)) as [Hin|Hnotin].
  - destruct (subscriptions_without ws st topic _ Hinv eq_refl s Hlook) as [Hne Hmem].
    split_and!; [done| |].
    + intros Hws. by destruct (Hmem ws Hws).
    + intros ws' Hws'. by destruct (Hmem ws' Hws').
  - destruct (Hinv topic s Hlook) as [Hne Hmem]. split_and!; [done| |done].
    intros Hws. destruct (Hmem ws Hws) as (cd' & Hcd' & Hin). congruence.
Qed.

Lemma subscriptions_step now ev st :
  known_inv st → subscriptions_inv st → subscriptions_inv (step now ev st).
Proof.
  intros Hknown Hinv.
  pose proof (reg_step now ev st) as Hreg.
  event_cases ev; try (by eapply (subscriptions_same nothing)); clear Hreg.
  - cbn [step]. destruct (isRunning st) eqn:Hrun.
    + destruct (stop_keeps st) as (_ & _ & _ & _ & Hempty).
      intros topic s. by rewrite (Hempty Hrun), lookup_empty.
    + unfold stop. by rewrite Hrun.
  - destruct (step_connection now ws0 clientIP agent clientId st)
      as [->|(_ & Hnew & _ & Hs & [(_ & _ & _ & Hcd & _)|(_ & _ & _ & Hcd & _)])];
      [done|..]; intros topic s; rewrite Hs, Hcd; intros Hlook;
      destruct (Hinv topic s Hlook) as [Hne Hmem]; (split; [done|]);
      [done|].
    intros ws' Hws'. destruct (Hmem ws' Hws') as (cd & Hcd' & Hin).
    rewrite lookup_insert_ne; [eauto|].
    intros <-. by rewrite (Hknown ws0 Hnew) in Hcd'.
  - cbn [step]. destruct (is_live st ws0); [|done].
    destruct (reg_handleClientMessage ws0 rawData now st)
      as [H|(cd & message & st1 & _ & H1 & Hcd1 & [[_ ->]|[->| ->]])].
    + by eapply (subscriptions_same (only Count)).
    + eapply (subscriptions_same (only Auth)); [done|apply reg_handleAuthentication|].
      by eapply (subscriptions_same (only Count)).
    + eapply subscriptions_handleSubscribe; [done|].
      by eapply (subscriptions_same (only Count)).
    + eapply subscriptions_handleUnsubscribe.
      by eapply (subscriptions_same (only Count)).
  - destruct (step_close now ws0 code reason st) as [[_ ->]|(_ & _ & Hcd & _ & Hrest)];
      [done|].
    intros topic s. rewrite Hcd.
    destruct (clientData st !! ws0) as [cd|] eqn:Hws.
    + destruct Hrest as (_ & _ & ->). intros Hlook.
      destruct (subscriptions_disconnected ws0 cd st Hinv Hws topic s Hlook)
        as (? & _ & ?).
      done.
    + destruct Hrest as (_ & _ & ->). apply Hinv.
Qed.

Lemma subscriptions_run evs st :
  known_inv st → subscriptions_inv st → subscriptions_inv (run evs st).
Proof.
  revert st. induction evs as [|[now ev] evs IH]; intros st Hknown Hinv; [done|].
  rewrite run_cons. apply IH; [by apply known_step|by apply subscriptions_step].
Qed.

Lemma subscriptions_constructor cfg dbInstance :
  subscriptions_inv (constructor cfg dbInstance).
Proof.
  intros topic s.
  destruct (constructor_fields cfg dbInstance) as (_ & _ & _ & -> & _).
  by rewrite lookup_empty.
Qed.

(** X2: in every state the server can reach, the subscription index is
    consistent with the connections: a topic on the index has at least one
    subscriber, and each of its subscribers is an accepted connection whose
    own list of subscriptions contains the topic. *)
Theorem subscription_index_is_consistent
    (cfg : Config) (dbInstance : option Db) (evs : list (time * Event)) :
  let st := run evs (constructor cfg dbInstance) in
  ∀ topic subscribers, subscriptions st !! topic = Some subscribers →
    subscribers ≠ ∅
    ∧ ∀ ws, ws ∈ subscribers →
        ∃ cd, clientData st !! ws = Some cd ∧ topic ∈ cd_subscriptions cd.
Proof.
  intros st. apply subscriptions_run;
    [apply known_constructor|apply subscriptions_constructor].
Qed.

Lemma one_subscriber :
  subscriptions
    (run [(0, EvStart); (1, EvConnection 0%nat "10.0.0.7" "agent" "client_1");
          (2, EvMessage 0%nat (text (JObj [("type", JStr "subscribe");
                                           ("topic", JStr "t")])))]
       (constructor default_config None)) !! KPrim (PStr "t")
  = Some {[0%nat]}.
Proof. vm_compute. reflexivity. Qed.

Lemma subscription_index_is_consistent_witness :
  ({[0%nat]} : gset socket) ≠ ∅
  ∧ ∃ cd,
      clientData
        (run [(0, EvStart); (1, EvConnection 0%nat "10.0.0.7" "agent" "client_1");
              (2, EvMessage 0%nat (text (JObj [("type", JStr "subscribe");
                                               ("topic", JStr "t")])))]
           (constructor default_config None)) !! 0%nat = Some cd
      ∧ KPrim (PStr "t") ∈ cd_subscriptions cd.
Proof.
  destruct (subscription_index_is_consistent default_config None
              [(0, EvStart); (1, EvConnection 0%nat "10.0.0.7" "agent" "client_1");
               (2, EvMessage 0%nat (text (JObj [("type", JStr "subscribe");
                                                ("topic", JStr "t")])))]
              (KPrim (PStr "t")) {[0%nat]} one_subscriber) as [Hne Hall].
  split; [exact Hne|]. apply Hall. apply elem_of_singleton. reflexivity.
Defined.

(** X3: in every state the server can reach, the close event of a socket
    takes it out of the subscribers of every topic, whether or not the
    topic is still on the connection's own list. *)
Theorem closed_socket_subscribes_to_nothing
    (cfg : Config) (dbInstance : option Db) (evs : list (time * Event))
    (ws : socket) (code : Z) (reason : string) (now : time) :
  let st := run evs (constructor cfg dbInstance) in
  let st' := step now (EvClose ws code reason) st in
  is_live st ws = true →
  ∀ topic subscribers, subscriptions st' !! topic = Some subscribers →
    ws ∉ subscribers.
Proof.
  intros st st' Hlive topic s.
  assert (subscriptions_inv st) as Hinv
    by (apply subscriptions_run; [apply known_constructor|apply subscriptions_constructor]).
  clearbody st. subst st'.
  destruct (step_close now ws code reason st) as [[Hdead _]|(_ & _ & _ & _ & Hrest)];
    [congruence|].
  destruct (clientData st !! ws) as [cd|] eqn:Hws.
  - destruct Hrest as (_ & _ & ->). intros Hlook.
    by destruct (subscriptions_disconnected ws cd st Hinv Hws topic s Hlook)
      as (_ & ? & _).
  - destruct Hrest as (_ & _ & ->). intros Hlook Hin.
    destruct (Hinv topic s Hlook) as [_ Hmem].
    destruct (Hmem ws Hin) as (cd & Hcd & _). congruence.
Qed.

Lemma closed_socket_subscribes_to_nothing_witness :
  let subscribe := text (JObj [("type", JStr "subscribe"); ("topic", JStr "t")]) in
  let evs := [(0, EvStart); (1, EvConnection 0%nat "10.0.0.7" "agent" "client_1");
              (2, EvConnection 1%nat "10.0.0.8" "agent" "client_2");
              (3, EvMessage 0%nat subscribe); (4, EvMessage 1%nat subscribe)] in
  let st := run evs (constructor default_config None) in
  subscriptions st !! KPrim (PStr "t") = Some {[0%nat; 1%nat]}
  ∧ ∀ topic subscribers,
      subscriptions (step 5 (EvClose 0%nat 1000 "bye") st) !! topic
      = Some subscribers →
      0%nat ∉ subscribers.
Proof.
  intros subscribe evs st. split; [vm_compute; reflexivity|].
  apply (closed_socket_subscribes_to_nothing default_config None evs
           0%nat 1000 "bye" 5).
  vm_compute. reflexivity.
Defined.

(** ** Authentication *)

Lemma handleAuthentication_clientData ws cd message now st :
  clientData (_handleAuthentication ws cd message now st)
  = if enableAuthentication (config st)
       && strict_eq_str (js_get message "token") (authToken (config st))
    then alter (cd_with_isAuthenticated true) ws (clientData st)
    else clientData st.
Proof.
  unfold _handleAuthentication, _sendToClient.
  destruct (enableAuthentication _); cbn [negb andb]; [|by destruct (is_open _ _)].
  destruct (strict_eq_str _ _); by destruct (is_open _ _).
Qed.

(** One event keeps the [clientData] of a connection, and its
    authentication flag unless the event presents the token on it. *)
Lemma step_kept now ev st ws cd :
  known_inv st → clientData st !! ws = Some cd →
  ∃ cd', clientData (step now ev st) !! ws = Some cd'
         ∧ cd_kept (unless_token ws (authToken (config st)) [(now, ev)]) cd cd'.
Proof.
  intros Hknown Hcd.
  assert (∀ free : Part → bool, (∀ p, free p = true → p = Count ∨ p = Subs) →
            same_registry free st (step now ev st) →
            ∃ cd', clientData (step now ev st) !! ws = Some cd'
                   ∧ cd_kept (unless_token ws (authToken (config st)) [(now, ev)]) cd cd')
    as Hframe.
  { intros free Hfree Hsame.
    destruct (kept_of_same free st _ ws cd Hsame Hcd) as (cd' & Hcd' & Hk).
    exists cd'. split; [done|]. revert Hk. apply cd_kept_weaken.
    intros p Hp. by destruct (Hfree p Hp) as [-> | ->]. }
  assert (∃ cd', clientData st !! ws = Some cd'
                 ∧ cd_kept (unless_token ws (authToken (config st)) [(now, ev)]) cd cd')
    as Hsame by (exists cd; split; [done|apply cd_kept_refl]).
  pose proof (reg_step now ev st) as Hreg.
  event_cases ev; try (by apply (Hframe nothing)); clear Hreg.
  - cbn [step]. by destruct (stop_keeps st) as (_ & -> & _).
  - destruct (step_connection now ws0 clientIP agent clientId st)
      as [->|(_ & Hnew & _ & _ & [(_ & _ & _ & -> & _)|(_ & _ & _ & -> & _)])];
      [done..|].
    rewrite lookup_insert_ne; [done|].
    intros ->. by rewrite (Hknown ws Hnew) in Hcd.
  - destruct (is_live st ws0) eqn:Hlive; [|cbn [step]; by rewrite Hlive].
    assert (step now (EvMessage ws0 rawData) st
            = _handleClientMessage ws0 rawData now st) as Hstep
      by (cbn [step]; by rewrite Hlive).
    rewrite Hstep in Hframe |- *. clear Hstep.
    destruct (reg_handleClientMessage ws0 rawData now st)
      as [H|(cd1 & message & st1 & Hparsed & H1 & Hcd1 & [[Hty Heq]|[Heq|Heq]])];
      [|rewrite Heq in Hframe |- *; clear Heq..].
    + apply (Hframe (only Count)); [|done]. intros []; cbn; by auto.
    + destruct (kept_of_same _ st st1 ws cd H1 Hcd) as (cd' & Hcd' & Hk).
      pose proof H1 as (Hcf & _).
      rewrite handleAuthentication_clientData, Hcf.
      destruct (enableAuthentication _ && _) eqn:Hok.
      * destruct (decide (ws0 = ws)) as [->|Hne].
        -- rewrite lookup_alter_eq, Hcd'. eexists. split; [done|].
           apply andb_true_iff in Hok as [_ Hok].
           destruct Hk as (? & ? & ? & ? & _).
           split_and!; try done. cbn. rewrite Hparsed, Hty, Hok.
           by rewrite bool_decide_eq_true_2.
        -- rewrite lookup_alter_ne by done. exists cd'. split; [done|].
           revert Hk. apply cd_kept_weaken. by intros [].
      * exists cd'. split; [done|]. revert Hk. apply cd_kept_weaken. by intros [].
    + apply (Hframe (λ p, negb (only Auth p))); [intros []; cbn; by auto|].
      eapply reg_trans; (eapply reg_weaken; [|done || apply reg_handleSubscribe]);
        by intros [].
    + apply (Hframe (λ p, negb (only Auth p))); [intros []; cbn; by auto|].
      eapply reg_trans; (eapply reg_weaken; [|done || apply reg_handleUnsubscribe]);
        by intros [].
  - by destruct (step_close now ws0 code reason st) as [[_ ->]|(_ & _ & -> & _)].
Qed.

Lemma run_kept evs st ws cd :
  known_inv st → clientData st !! ws = Some cd →
  ∃ cd', clientData (run evs st) !! ws = Some cd'
         ∧ cd_kept (unless_token ws (authToken (config st)) evs) cd cd'.
Proof.
  revert st cd. induction evs as [|[now ev] evs IH]; intros st cd Hknown Hcd.
  { exists cd. split; [done|apply cd_kept_refl]. }
  destruct (step_kept now ev st ws cd Hknown Hcd) as (cd1 & Hcd1 & Hk1).
  destruct (IH (step now ev st) cd1 (known_step now ev st Hknown) Hcd1)
    as (cd' & Hcd' & Hk).
  rewrite config_step in Hk.
  exists cd'. rewrite run_cons. split; [done|].
  eapply cd_kept_trans; (eapply cd_kept_weaken; [|done]).
  - intros [] Hp; try done. cbn in Hp |- *. rewrite orb_false_r in Hp. by rewrite Hp.
  - intros [] Hp; try done. cbn in Hp |- *. rewrite Hp. apply orb_true_r.
Qed.

(** X4: over any run from a state the server can reach, a connection keeps
    its [clientData] object and its id, an authentication once granted is
    never taken back, and the authentication flag does not change at all
    unless a message of type [auth] carrying the configured token arrives
    on that connection. *)
Theorem authentication_changes_only_by_the_token
    (cfg : Config) (dbInstance : option Db) (before evs : list (time * Event))
    (ws : socket) (cd : ClientData) :
  let st := run before (constructor cfg dbInstance) in
  clientData st !! ws = Some cd →
  ∃ cd',
    clientData (run evs st) !! ws = Some cd'
    ∧ cd_id cd' = cd_id cd
    ∧ (isAuthenticated cd = true → isAuthenticated cd' = true)
    ∧ (forallb (λ e, negb (presents_token ws (authToken cfg) e.2)) evs = true →
       isAuthenticated cd' = isAuthenticated cd).
Proof.
  intros st Hcd.
  assert (known_inv st) as Hknown by apply known_run, known_constructor.
  assert (config st = cfg) as Hcf by apply config_run.
  destruct (run_kept evs st ws cd Hknown Hcd)
    as (cd' & Hcd' & Hid & _ & _ & _ & Hmono & Hauth & _).
  exists cd'. split_and!; try done.
  intros Hnone. apply Hauth. cbn. rewrite Hcf.
  clear -Hnone. induction evs as [|e evs IH]; [done|].
  cbn in Hnone |- *. apply andb_true_iff in Hnone as [He Hnone].
  apply negb_true_iff in He. by rewrite He, IH.
Qed.

Lemma connected_with_authentication :
  clientData (run [(0, EvStart); (1, EvConnection 0%nat "10.0.0.7" "agent" "client_1")]
                (constructor auth_config None)) !! 0%nat
  = Some (client_1 auth_config).
Proof. vm_compute. reflexivity. Qed.

Lemma authentication_changes_only_by_the_token_witness :
  ∃ cd',
    clientData
      (run [(2, EvMessage 0%nat (text (JObj [("type", JStr "auth");
                                             ("token", JStr "guess")])));
            (3, EvMessage 0%nat reading)]
         (run [(0, EvStart); (1, EvConnection 0%nat "10.0.0.7" "agent" "client_1")]
            (constructor auth_config None))) !! 0%nat = Some cd'
    ∧ cd_id cd' = "client_1"
    ∧ isAuthenticated cd' = false.
Proof.
  destruct (authentication_changes_only_by_the_token auth_config None
              [(0, EvStart); (1, EvConnection 0%nat "10.0.0.7" "agent" "client_1")]
              [(2, EvMessage 0%nat (text (JObj [("type", JStr "auth");
                                                ("token", JStr "guess")])));
               (3, EvMessage 0%nat reading)]
              0%nat (client_1 auth_config) connected_with_authentication)
    as (cd' & Hcd' & Hid & _ & Hauth).
  exists cd'. split; [exact Hcd'|]. split; [exact Hid|].
  apply Hauth. reflexivity.
Defined.

(** ** The connection limit *)

(** X5: in every state the server can reach, a connection that arrives
    when the counter has reached [maxConnections] is closed with code 1013
    and nothing else happens: no [clientData], no registry entry, no
    welcome, no timer.  The socket has no listeners, so its messages are
    ignored, and its close event changes nothing but the socket's state. *)
Theorem connection_beyond_capacity_is_refused
    (cfg : Config) (dbInstance : option Db) (evs : list (time * Event))
    (ws : socket) (clientIP agent clientId : string) (now : time) :
  let st := run evs (constructor cfg dbInstance) in
  let st' := step now (EvConnection ws clientIP agent clientId) st in
  isRunning st = true → readyState st !! ws = None →
  maxConnections cfg ≤ connectionCount st →
  st' = log (Close ws 1013 "Server overloaded")
          (with_readyState (<[ws := CLOSING]> (readyState st)) st)
  ∧ (∀ rawData now', step now' (EvMessage ws rawData) st' = st')
  ∧ (∀ code reason now',
       step now' (EvClose ws code reason) st'
       = with_readyState (<[ws := CLOSED]> (readyState st')) st').
Proof.
  intros st st' Hrun Hnew Hfull.
  assert (known_inv st) as Hknown by apply known_run, known_constructor.
  assert (config st = cfg) as Hcf by apply config_run.
  clearbody st. subst st' cfg.
  assert (step now (EvConnection ws clientIP agent clientId) st
          = log (Close ws 1013 "Server overloaded")
              (with_readyState (<[ws := CLOSING]> (readyState st)) st)) as ->.
  { cbn [step]. rewrite Hrun, bool_decide_eq_true_2 by done. cbn [andb].
    unfold _handleNewConnection. cbn [config connectionCount with_readyState].
    apply Z.leb_le in Hfull. rewrite Hfull. unfold ws_close, is_open. cbn.
    rewrite lookup_insert_eq, bool_decide_eq_true_2 by done.
    unfold log. cbn. by rewrite insert_insert_eq. }
  pose proof (Hknown ws Hnew) as Hcd.
  split_and!; [done| |].
  - intros rawData now'. cbn [step]. destruct (is_live _ ws); [|done].
    unfold _handleClientMessage. cbn. by rewrite Hcd.
  - intros code reason now'. cbn [step].
    replace (is_live _ ws) with true.
    2:{ symmetry. unfold is_live. cbn. rewrite lookup_insert_eq.
        apply bool_decide_eq_true_2. by right. }
    unfold _handleClientDisconnection. cbn. by rewrite Hcd.
Qed.

Lemma connection_beyond_capacity_is_refused_witness :
  let cfg := {| enableAuthentication := false; authToken := "";
                dbTableName := ""; requiredFields := []; fieldsToEncrypt := [];
                enableHeartbeat := true; heartbeatInterval := 30000;
                maxConnections := 1; enableDataValidation := true;
                enableRequestResponse := true; enablePubSub := true;
                enableRPC := true; enableStreaming := true;
                requestTimeout := 10000; enableBinaryData := true;
                clientTypes := [] |} in
  let evs := [(0, EvStart); (1, EvConnection 0%nat "10.0.0.7" "agent" "client_1")] in
  let st := run evs (constructor cfg None) in
  maxConnections cfg ≤ connectionCount st
  ∧ ∀ rawData now',
      step now' (EvMessage 1%nat rawData)
        (step 2 (EvConnection 1%nat "10.0.0.8" "agent" "client_2") st)
      = step 2 (EvConnection 1%nat "10.0.0.8" "agent" "client_2") st.
Proof.
  intros cfg evs st. split; [vm_compute; discriminate|].
  apply (connection_beyond_capacity_is_refused cfg None evs 1%nat
           "10.0.0.8" "agent" "client_2" 2);
    vm_compute; [reflexivity|reflexivity|discriminate].
Defined.

(** ** The dispatcher *)

(** X6: every message that can be decoded is counted, whatever its type
    and whether or not its handler accepts it or throws: [dataReceived]
    grows by one and [lastDataTime] is the time of arrival.  A frame that
    cannot be decoded is not counted; it is answered with "Invalid message
    format", unless it is a [Buffer] and binary data is enabled, in which
    case nothing is sent. *)
Theorem decodable_messages_are_counted
    (ws : socket) (rawData : RawData) (now : time) (st : Server) (cd0 : ClientData) :
  clientData st !! ws = Some cd0 →
  let st' := _handleClientMessage ws rawData now st in
  match parsed rawData with
  | Some _ =>
      ∃ cd', clientData st' !! ws = Some cd'
             ∧ dataReceived cd' = S (dataReceived cd0)
             ∧ lastDataTime cd' = Some now
  | None =>
      clientData st' = clientData st
      ∧ sent_to ws (trace st')
        = sent_to ws (trace st)
          ++ (if enableBinaryData (config st) && isBuffer rawData then []
              else if is_open st ws then [error "Invalid message format" now]
              else [])
  end.
Proof.
  intros Hcd0. cbv zeta. unfold _handleClientMessage. rewrite Hcd0.
  destruct (parsed rawData) as [message|].
  - cbv zeta. fold (counted now cd0). set (cd := counted now cd0).
    set (st1 := upd_cd ws (λ _, cd) st).
    assert (clientData st1 !! ws = Some cd) as Hcd
      by (subst st1; cbn; by rewrite lookup_alter_eq, Hcd0).
    pose proof (reg_dispatch_count ws cd message now st1) as Hsame.
    assert (∃ cd', clientData (outcome_state (dispatch ws cd message now st1)) !! ws
                   = Some cd'
                   ∧ dataReceived cd' = S (dataReceived cd0)
                   ∧ lastDataTime cd' = Some now) as Hcd'.
    { destruct (kept_of_same _ _ _ ws cd Hsame Hcd)
        as (cd' & Hcd' & _ & _ & _ & _ & _ & _ & _ & Hcount).
      destruct (Hcount eq_refl) as [Hn Ht]. exists cd'. by rewrite Hn, Ht. }
    destruct (dispatch ws cd message now st1) as [st2|st2]; cbn [outcome_state] in Hcd';
      [done|].
    unfold invalid_format, _sendToClient. by destruct (is_open st2 ws).
  - destruct (enableBinaryData _ && _).
    + split; [done|]. unfold _handleBinaryMessage, emit, log. cbn.
      by rewrite sent_to_app, sent_to_Emit.
    + unfold invalid_format, _sendToClient. destruct (is_open st ws).
      * split; [done|]. unfold log. cbn. by rewrite sent_to_app, sent_to_Send.
      * by rewrite app_nil_r.
Qed.

Lemma decodable_messages_are_counted_witness :
  ∃ cd', clientData (_handleClientMessage 0%nat
                       (text (JObj [("type", JStr "no such type")])) 7
                       (one_client default_config None)) !! 0%nat = Some cd'
         ∧ dataReceived cd' = 1%nat
         ∧ lastDataTime cd' = Some 7.
Proof.
  exact (decodable_messages_are_counted 0%nat
           (text (JObj [("type", JStr "no such type")])) 7
           (one_client default_config None) (client_1 default_config)
           one_client_data).
Defined.

(** X7: a decodable message whose [type] is none of the types of the
    protocol (or is missing) is counted and answered with "Unknown message
    type: ..." naming the type as [String] renders it; nothing else
    changes.  (The numbers in the type, if any, are safe integers, which
    [String] renders with all their digits.) *)
Theorem unknown_message_type_is_reported
    (ws : socket) (rawData : RawData) (now : time) (st : Server) (cd0 : ClientData)
    (message ty : JSValue) (t : string) :
  clientData st !! ws = Some cd0 →
  parsed rawData = Some message →
  js_get_checked message "type" = Some ty →
  (∀ s, s ∈ message_types → ty ≠ JStr s) →
  safe_numbers ty = true →
  js_String ty = Some t →
  _handleClientMessage ws rawData now st
  = _sendToClient ws (error ("Unknown message type: " +:+ t) now)
      (upd_cd ws (λ _, counted now cd0) st).
Proof.
  intros Hcd0 Hparsed Hty Hunknown _ Ht.
  unfold _handleClientMessage. rewrite Hcd0, Hparsed. cbv zeta.
  fold (counted now cd0). unfold dispatch. rewrite Hty. cbv zeta.
  assert (Forall (λ s, strict_eq_str ty s = false) message_types) as Hne.
  { apply Forall_forall. intros s Hs. destruct (strict_eq_str ty s) eqn:Heq; [|done].
    apply strict_eq_str_true in Heq. by destruct (Hunknown s Hs). }
  unfold message_types in Hne.
  repeat match goal with
         | H : Forall _ (_ :: _) |- _ =>
             let Heq := fresh in
             apply Forall_cons in H as [Heq H]; rewrite Heq; clear Heq
         end.
  by rewrite Ht.
Qed.

Lemma unknown_message_type_is_reported_witness :
  _handleClientMessage 0%nat (text (JObj [("kind", JStr "data")])) 7
    (one_client default_config None)
  = _sendToClient 0%nat (error "Unknown message type: undefined" 7)
      (upd_cd 0%nat (λ _, counted 7 (client_1 default_config))
         (one_client default_config None)).
Proof.
  apply (unknown_message_type_is_reported 0%nat
           (text (JObj [("kind", JStr "data")])) 7 (one_client default_config None)
           (client_1 default_config) (JObj [("kind", JStr "data")]) JUndef "undefined");
    [exact one_client_data|reflexivity|reflexivity| |reflexivity|reflexivity].
  intros s _. discriminate.
Defined.

(** ** Subscribing and unsubscribing *)

(** A text frame on a socket with listeners: the message is counted and
    dispatched. *)
Lemma step_message now ws message st cd0 :
  is_live st ws = true → clientData st !! ws = Some cd0 →
  step now (EvMessage ws (text message)) st
  = match dispatch ws (counted now cd0) message now
            (upd_cd ws (λ _, counted now cd0) st) with
    | Returned st' => st'
    | Threw st' => invalid_format ws now st'
    end.
Proof.
  intros Hlive Hcd0. cbn [step]. rewrite Hlive.
  unfold _handleClientMessage. by rewrite Hcd0.
Qed.

Lemma dispatch_subscribe ws cd message now st :
  js_get_checked message "type" = Some (JStr "subscribe") →
  dispatch ws cd message now st = Returned (_handleSubscribe ws cd message now st).
Proof. intros Hty. unfold dispatch. by rewrite Hty. Qed.

Lemma dispatch_unsubscribe ws cd message now st :
  js_get_checked message "type" = Some (JStr "unsubscribe") →
  dispatch ws cd message now st = Returned (_handleUnsubscribe ws cd message now st).
Proof. intros Hty. unfold dispatch. by rewrite Hty. Qed.

(** X8: in every state the server can reach, a connection that
    subscribes to a topic it has not subscribed to and then unsubscribes
    leaves the subscription index and its own list of subscriptions as
    they were. *)
Theorem subscribe_then_unsubscribe_restores_the_index
    (cfg : Config) (dbInstance : option Db) (evs : list (time * Event))
    (ws : socket) (cd0 : ClientData) (k : Prim) (now now' : time) :
  let st := run evs (constructor cfg dbInstance) in
  let st1 := step now (EvMessage ws (text (subscribe_to (JPrim k)))) st in
  let st2 := step now' (EvMessage ws (text (unsubscribe_from (JPrim k)))) st1 in
  enablePubSub cfg = true →
  is_live st ws = true →
  clientData st !! ws = Some cd0 →
  KPrim k ∉ cd_subscriptions cd0 →
  subscriptions st2 = subscriptions st
  ∧ (cd_subscriptions <$> clientData st2 !! ws) = Some (cd_subscriptions cd0).
Proof.
  intros st st1 st2 Hon Hlive Hcd0 Hk.
  assert (subscriptions_inv st) as Hinv
    by (apply subscriptions_run; [apply known_constructor|apply subscriptions_constructor]).
  assert (config st = cfg) as Hcf by apply config_run.
  clearbody st. subst cfg.
  assert (st1 = _handleSubscribe ws (counted now cd0) (subscribe_to (JPrim k)) now
                  (upd_cd ws (λ _, counted now cd0) st)) as Hst1.
  { subst st1. rewrite (step_message now ws _ st cd0 Hlive Hcd0).
    by rewrite dispatch_subscribe. }
  set (st0 := upd_cd ws (λ _, counted now cd0) st) in Hst1.
  assert (clientData st0 !! ws = Some (counted now cd0)) as Hcd
    by (subst st0; cbn; by rewrite lookup_alter_eq, Hcd0).
  destruct (handleSubscribe_fields ws (counted now cd0) (subscribe_to (JPrim k)) now st0 Hon)
    as (k1 & Hk1 & Hs1 & Hcd1 & _).
  cbn in Hk1. subst k1. rewrite <- Hst1 in Hs1, Hcd1.
  change (subscriptions st0) with (subscriptions st) in Hs1.
  assert (is_live st1 ws = true) as Hlive1.
  { rewrite Hst1.
    destruct (reg_handleSubscribe ws (counted now cd0) (subscribe_to (JPrim k)) now st0)
      as (_ & _ & _ & _ & -> & _).
    done. }
  set (cd1 := cd_with_cd_subscriptions ({[KPrim k]} ∪ cd_subscriptions (counted now cd0))
                (counted now cd0)).
  assert (clientData st1 !! ws = Some cd1) as Hcd1'
    by (rewrite Hcd1, lookup_alter_eq, Hcd; done).
  assert (st2 = _handleUnsubscribe ws (counted now' cd1) (unsubscribe_from (JPrim k)) now'
                  (upd_cd ws (λ _, counted now' cd1) st1)) as Hst2.
  { subst st2. rewrite (step_message now' ws _ st1 cd1 Hlive1 Hcd1').
    by rewrite dispatch_unsubscribe. }
  destruct (handleUnsubscribe_fields ws (counted now' cd1) (unsubscribe_from (JPrim k)) now'
              (upd_cd ws (λ _, counted now' cd1) st1) (KPrim k) eq_refl) as (Hs2 & Hcd2 & _).
  rewrite <- Hst2 in Hs2, Hcd2.
  change (subscriptions (upd_cd _ _ st1)) with (subscriptions st1) in Hs2.
  clearbody st1 st2 st0.
  split.
  - rewrite Hs2, Hs1.
    assert (ws ∉ default ∅ (subscriptions st !! KPrim k)) as Hws.
    { destruct (subscriptions st !! KPrim k) as [old|] eqn:Hold; cbn; [|set_solver].
      intros Hin. destruct (Hinv _ _ Hold) as [_ Hmem].
      destruct (Hmem ws Hin) as (cd' & Hcd' & Hin'). congruence. }
    unfold unsubscribe_topic. rewrite lookup_insert_eq.
    replace (({[ws]} ∪ default ∅ (subscriptions st !! KPrim k)) ∖ {[ws]})
      with (default ∅ (subscriptions st !! KPrim k)) by set_solver.
    destruct (subscriptions st !! KPrim k) as [old|] eqn:Hold; cbn.
    + destruct (Hinv _ _ Hold) as [Hne _].
      rewrite decide_False;
        [|intros Hz; apply Hne, leibniz_equiv; by apply size_empty_inv].
      rewrite insert_insert_eq. by apply insert_id.
    + rewrite decide_True by apply size_empty.
      rewrite delete_insert_eq. by apply delete_id.
  - rewrite Hcd2. cbn. rewrite lookup_alter_eq, lookup_alter_eq, Hcd1'. cbn.
    f_equal. set_solver.
Qed.

Lemma subscribe_then_unsubscribe_restores_the_index_witness :
  let st := run [(0, EvStart); (1, EvConnection 0%nat "10.0.0.7" "agent" "client_1")]
              (constructor default_config None) in
  subscriptions
    (step 3 (EvMessage 0%nat (text (unsubscribe_from (JStr "t"))))
       (step 2 (EvMessage 0%nat (text (subscribe_to (JStr "t")))) st))
  = subscriptions st.
Proof.
  apply (subscribe_then_unsubscribe_restores_the_index default_config None
           [(0, EvStart); (1, EvConnection 0%nat "10.0.0.7" "agent" "client_1")]
           0%nat (client_1 default_config) (PStr "t") 2 3);
    [reflexivity|vm_compute; reflexivity|vm_compute; reflexivity|].
  apply not_elem_of_empty.
Defined.

Lemma sent_to_recipient ws (l : list socket) (m : OutMsg) :
  NoDup l → ws ∈ l → sent_to ws ((λ w, Send w m) <$> l) = [m].
Proof.
  induction 1 as [|w l Hw Hnd IH]; [by intros ?%elem_of_nil|].
  intros [Heq|Hin]%elem_of_cons.
  - subst w. rewrite fmap_cons.
    change (sent_to ws ([Send ws m] ++ ((λ w, Send w m) <$> l)) = [m]).
    rewrite sent_to_app, sent_to_Send, (sent_to_other ws l (λ _, m)); done.
  - assert (w ≠ ws) by (intros ->; done).
    unfold sent_to in *. cbn. rewrite decide_False by done. by apply IH.
Qed.

(** X9: in every state the server can reach, once an open connection has
    subscribed to a topic, every [publish] on that topic that does not
    exclude its id sends it the payload exactly once; once it has
    unsubscribed, [publish] sends it nothing. *)
Theorem subscription_decides_delivery
    (cfg : Config) (dbInstance : option Db) (evs : list (time * Event))
    (ws : socket) (cd0 : ClientData) (k : Prim) (now now' : time) :
  let st := run evs (constructor cfg dbInstance) in
  let st1 := step now (EvMessage ws (text (subscribe_to (JPrim k)))) st in
  let st2 := step now' (EvMessage ws (text (unsubscribe_from (JPrim k)))) st1 in
  enablePubSub cfg = true →
  is_open st ws = true →
  clientData st !! ws = Some cd0 →
  (∀ data excludeClientId t, excludeClientId ≠ JStr (cd_id cd0) →
     sent_to ws (trace (publish (JPrim k) data excludeClientId t st1).1)
     = sent_to ws (trace st1) ++ [publish_msg (JPrim k) data t])
  ∧ (∀ data excludeClientId t,
       sent_to ws (trace (publish (JPrim k) data excludeClientId t st2).1)
       = sent_to ws (trace st2)).
Proof.
  intros st st1 st2 Hon Hopen Hcd0.
  assert (open_inv st) as Hinv by apply open_run, open_constructor.
  assert (config st = cfg) as Hcf by apply config_run.
  clearbody st. subst cfg.
  pose proof Hopen as Hrs. apply bool_decide_eq_true_1 in Hrs.
  destruct (Hinv ws Hrs) as [Hin _].
  assert (is_live st ws = true) as Hlive
    by (apply bool_decide_eq_true_2; by left).
  (* the state after the subscription *)
  set (st0 := upd_cd ws (λ _, counted now cd0) st).
  assert (st1 = _handleSubscribe ws (counted now cd0) (subscribe_to (JPrim k)) now st0)
    as Hst1.
  { subst st1. rewrite (step_message now ws _ st cd0 Hlive Hcd0).
    by rewrite dispatch_subscribe. }
  destruct (handleSubscribe_fields ws (counted now cd0) (subscribe_to (JPrim k)) now st0 Hon)
    as (k1 & Hk1 & Hs1 & Hcd1 & Hcl1 & Hrs1).
  cbn in Hk1. subst k1. rewrite <- Hst1 in Hs1, Hcd1, Hcl1, Hrs1.
  change (subscriptions st0) with (subscriptions st) in Hs1.
  change (clients st0) with (clients st) in Hcl1.
  change (readyState st0) with (readyState st) in Hrs1.
  set (cd1 := cd_with_cd_subscriptions ({[KPrim k]} ∪ cd_subscriptions (counted now cd0))
                (counted now cd0)).
  assert (clientData st1 !! ws = Some cd1) as Hcd1'.
  { rewrite Hcd1. subst st0. cbn. by rewrite !lookup_alter_eq, Hcd0. }
  assert (is_live st1 ws = true) as Hlive1 by (unfold is_live; by rewrite Hrs1).
  (* the state after the cancellation *)
  assert (st2 = _handleUnsubscribe ws (counted now' cd1) (unsubscribe_from (JPrim k)) now'
                  (upd_cd ws (λ _, counted now' cd1) st1)) as Hst2.
  { subst st2. rewrite (step_message now' ws _ st1 cd1 Hlive1 Hcd1').
    by rewrite dispatch_unsubscribe. }
  destruct (handleUnsubscribe_fields ws (counted now' cd1) (unsubscribe_from (JPrim k)) now'
              (upd_cd ws (λ _, counted now' cd1) st1) (KPrim k) eq_refl)
    as (Hs2 & _).
  rewrite <- Hst2 in Hs2.
  change (subscriptions (upd_cd _ _ st1)) with (subscriptions st1) in Hs2.
  clearbody st1 st2 st0. clear Hst1 Hst2.
  split.
  - intros data exclude t Hexcl.
    destruct (publish_effect st1 (JPrim k) data exclude t)
      as ((rs & Hnd & Hrs' & -> & _) & _ & _).
    cbn [trace with_trace]. rewrite sent_to_app. f_equal.
    apply sent_to_recipient; [done|]. apply Hrs'.
    split_and!.
    + unfold subscribers_of. cbn. rewrite Hs1, lookup_insert_eq. cbn. set_solver.
    + by rewrite Hcl1.
    + unfold is_open. by rewrite Hrs1.
    + exists cd1. by split.
  - intros data exclude t.
    destruct (publish_effect st2 (JPrim k) data exclude t)
      as ((rs & Hnd & Hrs' & -> & _) & _ & _).
    cbn [trace with_trace]. rewrite sent_to_app.
    rewrite (sent_to_other ws rs (λ _, publish_msg (JPrim k) data t)); [by rewrite app_nil_r|].
    intros (Hsub & _)%Hrs'. revert Hsub.
    unfold subscribers_of. cbn. rewrite Hs2, unsubscribe_topic_lookup, decide_True by done.
    by destruct (without_subscriber_spec ws (subscriptions st1 !! KPrim k)) as (? & _).
Qed.

Lemma subscription_decides_delivery_witness :
  let st1 := step 2 (EvMessage 0%nat (text (subscribe_to (JStr "t"))))
               (run [(0, EvStart); (1, EvConnection 0%nat "10.0.0.7" "agent" "client_1")]
                  (constructor default_config None)) in
  sent_to 0%nat (trace (publish (JStr "t") (JNum 5) JUndef 3 st1).1)
  = sent_to 0%nat (trace st1) ++ [publish_msg (JStr "t") (JNum 5) 3].
Proof.
  apply (subscription_decides_delivery default_config None
           [(0, EvStart); (1, EvConnection 0%nat "10.0.0.7" "agent" "client_1")]
           0%nat (client_1 default_config) (PStr "t") 2 3);
    [reflexivity|vm_compute; reflexivity|vm_compute; reflexivity|discriminate].
Defined.

(** ** Remote procedure calls *)

(** X10: a method registered under a name answers the calls of that name,
    whatever was registered under the name before: the handler is invoked
    once with the [params] of the call and its result, or the message of
    what it threw, is sent back under the [requestId] of the call; if it
    returns a promise nothing is sent until the promise settles.  Once the
    name is unregistered a call invokes nothing and is answered with
    "Method ... not found". *)
Theorem registered_method_answers_calls
    (ws : socket) (cd : ClientData) (message : JSValue) (name : string)
    (handler : RpcHandler) (now : time) (st : Server) :
  enableRPC (config st) = true →
  js_get message "method" = JStr name →
  let requestId := js_get message "requestId" in
  let params := js_get message "params" in
  let st1 := registerRPCMethod (JStr name) handler st in
  let invoked := log (Invoke (KPrim (PStr name)) params) st1 in
  let st2 := unregisterRPCMethod (JStr name) st1 in
  _handleRPCCall ws cd message now st1
  = Returned
      match handler (view st1) params cd with
      | RpcReturn v =>
          _sendToClient ws (rpc_response requestId true v JUndef now) invoked
      | RpcThrow msg =>
          _sendToClient ws (rpc_response requestId false JUndef msg now) invoked
      | RpcPromise => await (AwaitRPC ws requestId) invoked
      end
  ∧ _handleRPCCall ws cd message now st2
    = Returned
        (_sendToClient ws
           (rpc_response requestId false JUndef
              (JStr ("Method " +:+ name +:+ " not found")) now) st2).
Proof.
  intros Hon Hmethod. cbv zeta. split.
  - unfold _handleRPCCall.
    change (config (registerRPCMethod (JStr name) handler st)) with (config st).
    rewrite Hon, Hmethod. cbn [negb]. cbv zeta. cbn [find_key mbind option_bind].
    unfold registerRPCMethod at 1. cbn [alloc rpcMethods with_rpcMethods].
    rewrite lookup_insert_eq. cbn [fmap option_fmap option_map].
    by destruct (handler _ _ _).
  - unfold _handleRPCCall.
    change (config (unregisterRPCMethod _ _)) with (config st).
    rewrite Hon, Hmethod. cbn [negb]. cbv zeta. cbn [find_key mbind option_bind].
    unfold unregisterRPCMethod at 1. cbn [find_key rpcMethods with_rpcMethods].
    by rewrite lookup_delete_eq.
Qed.

Lemma registered_method_answers_calls_witness :
  let message := JObj [("type", JStr "rpc_call"); ("requestId", JNum 7);
                       ("method", JStr "double"); ("params", JNum 21)] in
  let st := one_client default_config None in
  _handleRPCCall 0%nat (client_1 default_config) message 5
    (registerRPCMethod (JStr "double") (λ _ _ _, RpcReturn (JNum 42)) st)
  = Returned
      (_sendToClient 0%nat (rpc_response (JNum 7) true (JNum 42) JUndef 5)
         (log (Invoke (KPrim (PStr "double")) (JNum 21))
            (registerRPCMethod (JStr "double") (λ _ _ _, RpcReturn (JNum 42)) st))).
Proof.
  intros message st.
  apply (registered_method_answers_calls 0%nat (client_1 default_config) message
           "double" (λ _ _ _, RpcReturn (JNum 42)) 5 st); reflexivity.
Defined.

(** X11: when the method of a call returns a promise, nothing is sent at
    the time of the call; when the promise settles, the caller's socket is
    sent one [rpc_response] with the [requestId] of the call, successful
    with the value or failed with the message of the rejection, and a
    second settlement event finds nothing to do. *)
Theorem asynchronous_rpc_answers_on_settlement
    (ws : socket) (cd : ClientData) (message : JSValue) (k : Key)
    (handler : RpcHandler) (now now' : time) (st : Server)
    (result : JSValue + JSValue) :
  enableRPC (config st) = true →
  find_key (js_get message "method") = Some k →
  rpcMethods st !! k = Some handler →
  handler (view st) (js_get message "params") cd = RpcPromise →
  let requestId := js_get message "requestId" in
  let promise := nextPromise st in
  let st1 := outcome_state (_handleRPCCall ws cd message now st) in
  let st2 := step now' (EvSettled promise result) st1 in
  sent_to ws (trace st1) = sent_to ws (trace st)
  ∧ st2 = _sendToClient ws
            match result with
            | inl v => rpc_response requestId true v JUndef now'
            | inr msg => rpc_response requestId false JUndef msg now'
            end
            (with_awaiting (delete promise (awaiting st1)) st1)
  ∧ step now' (EvSettled promise result) st2 = st2.
Proof.
  intros Hon Hk Hh Hpromise. cbv zeta.
  assert (_handleRPCCall ws cd message now st
          = Returned (await (AwaitRPC ws (js_get message "requestId"))
                        (log (Invoke k (js_get message "params")) st))) as ->.
  { unfold _handleRPCCall. rewrite Hon. cbn [negb]. cbv zeta.
    rewrite Hk. cbn [mbind option_bind].
    destruct (rpcMethods st !! k) as [h|] eqn:Hh'.
    - assert (h = handler) as -> by (unfold RpcHandler in *; congruence).
      cbn [fmap option_fmap option_map]. by rewrite Hpromise.
    - unfold RpcHandler in *. congruence. }
  cbn [outcome_state].
  set (st1 := await _ _).
  assert (awaiting st1 !! nextPromise st
          = Some (AwaitRPC ws (js_get message "requestId"))) as Hwait
    by (subst st1; cbn; by rewrite lookup_insert_eq).
  split_and!.
  - subst st1. unfold await, log. cbn. rewrite sent_to_app.
    unfold sent_to at 2. cbn. by rewrite app_nil_r.
  - cbn [step]. rewrite Hwait. unfold _handleRPCCall_resume. by destruct result.
  - cbn [step]. rewrite Hwait. unfold _handleRPCCall_resume.
    assert (∀ m, awaiting (_sendToClient ws m
                   (with_awaiting (delete (nextPromise st) (awaiting st1)) st1))
                 !! nextPromise st = None) as Hgone.
    { intros m. unfold _sendToClient. destruct (is_open _ ws); cbn;
        apply lookup_delete_eq. }
    destruct result; by rewrite Hgone.
Qed.

Lemma asynchronous_rpc_answers_on_settlement_witness :
  let message := JObj [("type", JStr "rpc_call"); ("requestId", JNum 7);
                       ("method", JStr "slow"); ("params", JNull)] in
  let st := registerRPCMethod (JStr "slow") (λ _ _ _, RpcPromise)
              (one_client default_config None) in
  let st1 := outcome_state (_handleRPCCall 0%nat (client_1 default_config) message 5 st) in
  sent_to 0%nat (trace st1) = sent_to 0%nat (trace st).
Proof.
  intros message st.
  apply (asynchronous_rpc_answers_on_settlement 0%nat (client_1 default_config)
           message (KPrim (PStr "slow")) (λ _ _ _, RpcPromise) 5 6 st (inl JNull));
    reflexivity.
Defined.

(** ** Streams *)

(** X12: after a client has started a stream, [sendStreamData] forwards
    to the socket of that client and reports success; [endStream] sends
    [stream_end] there and removes the session, after which both report
    failure and change nothing. *)
Theorem started_stream_can_be_fed_and_ended
    (ws : socket) (cd : ClientData) (message : JSValue) (k : Prim)
    (now t t' t'' : time) (data sequenceNumber : JSValue) (st : Server) :
  enableStreaming (config st) = true →
  js_get message "streamId" = JPrim k →
  let st1 := _handleStreamStart ws cd message now st in
  let st2 := (endStream (JPrim k) t' st1).1 in
  sendStreamData (JPrim k) data sequenceNumber t st1
  = (_sendToClient ws (stream_data_msg (JPrim k) data sequenceNumber t) st1, true)
  ∧ endStream (JPrim k) t' st1
    = (with_streams (delete (KPrim k) (streams st1))
         (_sendToClient ws (stream_end_msg (JPrim k) t') st1), true)
  ∧ sendStreamData (JPrim k) data sequenceNumber t'' st2 = (st2, false)
  ∧ endStream (JPrim k) t'' st2 = (st2, false).
Proof.
  intros Hon Hid. cbv zeta.
  assert (streams (_handleStreamStart ws cd message now st) !! KPrim k
          = Some {| s_clientId := cd_id cd; s_ws := ws;
                    streamType := js_get message "streamType"; startedAt := now |})
    as Hs.
  { unfold _handleStreamStart, _sendToClient. rewrite Hon, Hid. cbn.
    destruct (is_open _ ws); cbn; apply lookup_insert_eq. }
  set (st1 := _handleStreamStart ws cd message now st) in *. clearbody st1.
  assert (endStream (JPrim k) t' st1
          = (with_streams (delete (KPrim k) (streams st1))
               (_sendToClient ws (stream_end_msg (JPrim k) t') st1), true)) as Hend.
  { unfold endStream. cbn. rewrite Hs. cbn. unfold _sendToClient.
    by destruct (is_open st1 ws). }
  rewrite Hend. cbn [fst].
  assert (streams (with_streams (delete (KPrim k) (streams st1))
                     (_sendToClient ws (stream_end_msg (JPrim k) t') st1)) !! KPrim k
          = None) as Hgone by apply lookup_delete_eq.
  split_and!; [|done| |].
  - unfold sendStreamData. cbn. by rewrite Hs.
  - unfold sendStreamData. cbn [find_key mbind option_bind]. by rewrite Hgone.
  - unfold endStream. cbn [find_key mbind option_bind]. by rewrite Hgone.
Qed.

Lemma started_stream_can_be_fed_and_ended_witness :
  let message := JObj [("type", JStr "stream_start"); ("streamId", JStr "s");
                       ("streamType", JStr "video")] in
  let st1 := _handleStreamStart 0%nat (client_1 default_config) message 3
               (one_client default_config None) in
  sendStreamData (JStr "s") (JNum 1) JNull 9 st1
  = (_sendToClient 0%nat (stream_data_msg (JStr "s") (JNum 1) JNull 9) st1, true).
Proof.
  intros message.
  apply (started_stream_can_be_fed_and_ended 0%nat (client_1 default_config) message
           (PStr "s") 3 9 10 11 (JNum 1) JNull (one_client default_config None));
    reflexivity.
Defined.

(** X13: [stream_end] is honoured whoever sends it: after one client has
    started a stream, a [stream_end] with the same id from any connection
    removes the session, acknowledges success to the sender whether or not
    streaming is enabled, and [sendStreamData] fails from then on. *)
Theorem stream_end_is_not_restricted_to_the_owner
    (owner sender : socket) (cd cd' : ClientData) (start finish : JSValue)
    (k : Prim) (now now' t : time) (data sequenceNumber : JSValue) (st : Server) :
  js_get start "streamId" = JPrim k →
  js_get finish "streamId" = JPrim k →
  let st1 := _handleStreamStart owner cd start now st in
  let st2 := _handleStreamEnd sender cd' finish now' st1 in
  streams st2 !! KPrim k = None
  ∧ sent_to sender (trace st2)
    = sent_to sender (trace st1)
      ++ (if is_open st1 sender then [stream_end_response (JPrim k) now'] else [])
  ∧ sendStreamData (JPrim k) data sequenceNumber t st2 = (st2, false).
Proof.
  intros Hstart Hfinish. cbv zeta.
  set (st1 := _handleStreamStart owner cd start now st). clearbody st1.
  assert (streams (_handleStreamEnd sender cd' finish now' st1) !! KPrim k = None
          ∧ sent_to sender (trace (_handleStreamEnd sender cd' finish now' st1))
            = sent_to sender (trace st1)
              ++ (if is_open st1 sender then [stream_end_response (JPrim k) now'] else []))
    as [Hgone Hsent].
  { unfold _handleStreamEnd. rewrite Hfinish. cbn [find_key]. cbv zeta.
    unfold _sendToClient, emit, log.
    destruct (bool_decide (is_Some (streams st1 !! KPrim k))) eqn:Hhas.
    - change (is_open (with_trace _ (with_streams _ st1)) sender)
        with (is_open st1 sender).
      destruct (is_open st1 sender); cbn; rewrite lookup_delete_eq;
        rewrite ?sent_to_app, ?sent_to_Emit, ?sent_to_Send, ?app_nil_r; done.
    - apply bool_decide_eq_false_1 in Hhas.
      assert (streams st1 !! KPrim k = None) as Hnone
        by (destruct (streams st1 !! KPrim k); [by destruct Hhas|done]).
      destruct (is_open st1 sender); cbn;
        rewrite ?sent_to_app, ?sent_to_Send, ?app_nil_r; done. }
  split_and!; [done..|].
  unfold sendStreamData. cbn [find_key mbind option_bind]. by rewrite Hgone.
Qed.

Lemma stream_end_is_not_restricted_to_the_owner_witness :
  let start := JObj [("type", JStr "stream_start"); ("streamId", JStr "s")] in
  let finish := JObj [("type", JStr "stream_end"); ("streamId", JStr "s")] in
  streams (_handleStreamEnd 1%nat client_2 finish 4
             (_handleStreamStart 0%nat (client_1 default_config) start 3
                (one_client default_config None))) !! KPrim (PStr "s")
  = None.
Proof.
  intros start finish.
  apply (stream_end_is_not_restricted_to_the_owner 0%nat 1%nat
           (client_1 default_config) client_2 start finish (PStr "s") 3 4 5
           JNull JNull (one_client default_config None)); reflexivity.
Defined.

(** What [_getClientByIdAndSocket] finds: a registered connection with the
    id, if there is one. *)
Lemma _getClientByIdAndSocket_spec clientId st :
  match _getClientByIdAndSocket clientId st with
  | Some (ws, cd) =>
      ws ∈ clients st ∧ clientData st !! ws = Some cd ∧ clientId = JStr (cd_id cd)
  | None =>
      ∀ ws cd, ws ∈ clients st → clientData st !! ws = Some cd →
               clientId ≠ JStr (cd_id cd)
  end.
Proof.
  unfold _getClientByIdAndSocket.
  destruct (list_find _ _) as [[i [ws cd]]|] eqn:Hfind; cbn.
  - apply list_find_Some in Hfind as (Hi & Heq & _).
    apply strict_eq_str_true in Heq. cbn in Heq.
    apply list_elem_of_lookup_2, list_elem_of_omap in Hi as (ws' & Hin & Hws').
    destruct (clientData st !! ws') as [cd''|] eqn:Hcd; [|done].
    cbn in Hws'. injection Hws' as <- <-.
    split_and!; [by apply elem_of_elements|done..].
  - intros ws cd Hin Hcd Heq.
    apply list_find_None in Hfind. rewrite Forall_forall in Hfind.
    apply (Hfind (ws, cd)).
    + apply list_elem_of_omap. exists ws. split; [by apply elem_of_elements|].
      by rewrite Hcd.
    + cbn. by apply strict_eq_str_true.
Qed.

(** X14: [startStream] reaches the client exactly when a registered
    connection has the given id: the result is [true] and [stream_start]
    goes to the socket of such a connection, or the result is [false] and
    nothing changes.  In neither case is a stream session created, so
    [sendStreamData] with the id of a stream started this way fails. *)
Theorem startStream_registers_no_session
    (clientId streamId streamType : JSValue) (now : time) (st : Server) :
  let r := startStream clientId streamId streamType now st in
  ((∃ ws cd, ws ∈ clients st ∧ clientData st !! ws = Some cd
             ∧ clientId = JStr (cd_id cd)
             ∧ r = (_sendToClient ws (stream_start_msg streamId streamType now) st, true))
   ∨ ((∀ ws cd, ws ∈ clients st → clientData st !! ws = Some cd →
                clientId ≠ JStr (cd_id cd))
      ∧ r = (st, false)))
  ∧ streams r.1 = streams st
  ∧ ∀ data sequenceNumber t,
      (find_key streamId ≫= λ k, streams st !! k) = None →
      sendStreamData streamId data sequenceNumber t r.1 = (r.1, false).
Proof.
  cbv zeta. unfold startStream.
  pose proof (_getClientByIdAndSocket_spec clientId st) as Hspec.
  destruct (_getClientByIdAndSocket clientId st) as [[ws cd]|].
  - destruct Hspec as (Hin & Hcd & Hid).
    assert (streams (_sendToClient ws (stream_start_msg streamId streamType now) st)
            = streams st) as Hs
      by (unfold _sendToClient; by destruct (is_open st ws)).
    split_and!; [left; by exists ws, cd|done|].
    intros data sequenceNumber t Hnone. cbn [fst]. unfold sendStreamData.
    by rewrite Hs, Hnone.
  - split_and!; [by right|done|].
    intros data sequenceNumber t Hnone. cbn [fst]. unfold sendStreamData.
    by rewrite Hnone.
Qed.

(** X15: [sendToClient] looks the client up without passing the id, so it
    finds nobody: whatever the id and whoever is connected, it returns
    [false] and sends nothing. *)
Theorem sendToClient_never_sends
    (clientId data : JSValue) (now : time) (st : Server) :
  sendToClient clientId data now st = (st, false).
Proof. unfold sendToClient. by rewrite _getClientByIdAndSocket_undefined. Qed.

(** ** Persistence *)










(** X18: when the store answers a call made for a data message, the
    sender is acknowledged once, under the request id of the message: with
    success and the [insertId] of the result, or, if the call was rejected
    or its result has no properties to read, with "Database error".  A
    second answer for the same call finds nothing to do.  (The log lines
    render the [insertId] and the [message] of the rejection, which are
    taken to have a string form.) *)
Theorem store_answer_is_acknowledged_once
    (ws : socket) (cd : ClientData) (data requestId : JSValue) (promise : nat)
    (result : JSValue + JSValue) (now now' : time) (st : Server) :
  awaiting st !! promise = Some (AwaitPostData ws data requestId) →
  clientData st !! ws = Some cd →
  is_open st ws = true →
  (∀ r insertId, result = inl r → js_get_checked r "insertId" = Some insertId →
     is_Some (js_String insertId)) →
  (∀ e, result = inr e →
     ∃ m, js_get_checked e "message" = Some m ∧ is_Some (js_String m)) →
  let st' := step now (EvSettled promise result) st in
  sent_to ws (trace st')
  = sent_to ws (trace st)
    ++ [match result with
        | inl r =>
            match js_get_checked r "insertId" with
            | Some insertId => data_response true None (Some insertId) requestId now
            | None => data_response false (Some "Database error") None requestId now
            end
        | inr _ => data_response false (Some "Database error") None requestId now
        end]
  ∧ awaiting st' = delete promise (awaiting st)
  ∧ (∀ result', step now' (EvSettled promise result') st' = st').
Proof.
  intros Hwait Hcd Hopen _ _. cbv zeta. cbn [step]. rewrite Hwait.
  set (st0 := with_awaiting _ st).
  assert (∀ m name fields,
            let r := emit name fields (_sendToClient ws m st0) in
            sent_to ws (trace r) = sent_to ws (trace st) ++ [m]
            ∧ awaiting r = delete promise (awaiting st)) as Hreply.
  { intros m name fields. cbv zeta. unfold _sendToClient, emit, log.
    change (is_open st0 ws) with (is_open st ws). rewrite Hopen. cbn.
    by rewrite !sent_to_app, sent_to_Send, sent_to_Emit, app_nil_r. }
  assert (∃ m name fields,
            _saveToDatabase_resume ws data requestId result now st0
            = emit name fields (_sendToClient ws m st0)
            ∧ m = match result with
                  | inl r =>
                      match js_get_checked r "insertId" with
                      | Some insertId =>
                          data_response true None (Some insertId) requestId now
                      | None =>
                          data_response false (Some "Database error") None requestId now
                      end
                  | inr _ =>
                      data_response false (Some "Database error") None requestId now
                  end) as (m & name & fields & -> & <-).
  { unfold _saveToDatabase_resume, database_error.
    change (clientData st0) with (clientData st). rewrite Hcd.
    destruct result as [r|e]; [destruct (js_get_checked r "insertId")|]; eauto. }
  destruct (Hreply m name fields) as [Hsent Hgone]. split_and!; [done..|].
  intros result'. cbn [step]. by rewrite Hgone, lookup_delete_eq.
Qed.

Lemma reading_sent_pending :
  ∃ saved, awaiting reading_sent !! 0%nat = Some (AwaitPostData 0%nat saved JNull).
Proof. eexists. vm_compute. reflexivity. Qed.

Lemma reading_sent_client :
  ∃ cd, clientData reading_sent !! 0%nat = Some cd.
Proof. eexists. vm_compute. reflexivity. Qed.

Lemma store_answer_is_acknowledged_once_witness :
  sent_to 0%nat (trace (step 5 (EvSettled 0%nat (inl (JObj [("insertId", JNum 17)])))
                          reading_sent))
  = sent_to 0%nat (trace reading_sent)
    ++ [data_response true None (Some (JNum 17)) JNull 5].
Proof.
  destruct reading_sent_pending as [saved Hsaved].
  destruct reading_sent_client as [cd Hcd].
  apply (store_answer_is_acknowledged_once 0%nat cd saved JNull 0%nat
           (inl (JObj [("insertId", JNum 17)])) 5 6 reading_sent Hsaved Hcd).
  - vm_compute. reflexivity.
  - intros r insertId [= <-] [= <-]. by eexists.
  - intros e [=].
Defined.

(** ** A failed authentication *)

Lemma dispatch_auth ws cd message now st :
  js_get_checked message "type" = Some (JStr "auth") →
  dispatch ws cd message now st
  = Returned (_handleAuthentication ws cd message now st).
Proof. intros Hty. unfold dispatch. by rewrite Hty. Qed.

(** X19: a wrong token is answered with a failure and arms a timer of one
    second that closes the socket with code 1008 if it is still open.  The
    timer is not cancelled by anything: a connection that presents the
    right token before the second is over is authenticated, and is closed
    all the same when the timer fires. *)
Theorem failed_attempt_closes_the_connection_even_after_success
    (ws : socket) (cd0 : ClientData) (wrong : JSValue) (now now1 now2 : time)
    (st : Server) :
  enableAuthentication (config st) = true →
  strict_eq_str wrong (authToken (config st)) = false →
  clientData st !! ws = Some cd0 →
  is_open st ws = true →
  let st1 := step now (EvMessage ws (text (auth_with wrong))) st in
  let st2 := step now1 (EvMessage ws (text (auth_with (JStr (authToken (config st))))))
               st1 in
  let st3 := step now2 (EvTimer (nextTimer st)) st2 in
  sent_to ws (trace st1)
  = sent_to ws (trace st) ++ [auth_response false "Invalid authentication token" now]
  ∧ timers st1 = <[nextTimer st := AuthClose ws 1000]> (timers st)
  ∧ (isAuthenticated <$> clientData st1 !! ws) = Some (isAuthenticated cd0)
  ∧ (isAuthenticated <$> clientData st2 !! ws) = Some true
  ∧ trace st3 = trace st2 ++ [Close ws 1008 "Authentication failed"]
  ∧ readyState st3 !! ws = Some CLOSING.
Proof.
  intros Hon Hwrong Hcd0 Hopen. cbv zeta.
  assert (is_live st ws = true) as Hlive.
  { apply bool_decide_eq_true_1 in Hopen. apply bool_decide_eq_true_2. by left. }
  (* the failed attempt *)
  rewrite (step_message now ws _ st cd0 Hlive Hcd0), dispatch_auth by done.
  set (st0 := upd_cd ws (λ _, counted now cd0) st).
  assert (_handleAuthentication ws (counted now cd0) (auth_with wrong) now st0
          = with_nextTimer (S (nextTimer st))
              (with_timers (<[nextTimer st := AuthClose ws 1000]> (timers st))
                 (log (Send ws (auth_response false "Invalid authentication token" now))
                    st0))) as ->.
  { unfold _handleAuthentication.
    change (config st0) with (config st). rewrite Hon.
    change (js_get (auth_with wrong) "token") with wrong. rewrite Hwrong.
    unfold _sendToClient. change (is_open st0 ws) with (is_open st ws).
    by rewrite Hopen. }
  set (st1 := with_nextTimer _ _).
  assert (clientData st1 !! ws = Some (counted now cd0)) as Hcd1
    by (subst st1 st0; cbn; by rewrite lookup_alter_eq, Hcd0).
  assert (is_live st1 ws = true) as Hlive1 by done.
  (* the successful one *)
  rewrite (step_message now1 ws _ st1 _ Hlive1 Hcd1), dispatch_auth by done.
  set (cd1 := counted now1 (counted now cd0)).
  set (st1' := upd_cd ws (λ _, cd1) st1).
  assert (_handleAuthentication ws cd1 (auth_with (JStr (authToken (config st)))) now1 st1'
          = emit "client-authenticated" [("clientId", JStr (cd_id cd1))]
              (log (Send ws (auth_response true "Authentication successful" now1))
                 (upd_cd ws (cd_with_isAuthenticated true) st1'))) as ->.
  { unfold _handleAuthentication.
    change (config st1') with (config st). rewrite Hon. cbn [negb].
    change (js_get (auth_with _) "token") with (JStr (authToken (config st))).
    cbn [strict_eq_str]. rewrite String.eqb_refl.
    unfold _sendToClient.
    change (is_open (upd_cd _ _ st1') ws) with (is_open st ws). by rewrite Hopen. }
  set (st2 := emit _ _ _).
  assert (timers st2 !! nextTimer st = Some (AuthClose ws 1000)) as Htimer
    by (subst st2 st1' st1; cbn; apply lookup_insert_eq).
  split_and!.
  - subst st1 st0. unfold log. cbn.
    by rewrite sent_to_app, sent_to_Send.
  - done.
  - by rewrite Hcd1.
  - subst st2 st1'. unfold emit, log, upd_cd.
    cbn [clientData with_trace with_clientData]. by rewrite !lookup_alter_eq, Hcd1.
  - cbn [step]. rewrite Htimer. unfold authCloseTimeout, ws_close.
    change (is_open (clearTimer _ st2) ws) with (is_open st ws). by rewrite Hopen.
  - cbn [step]. rewrite Htimer. unfold authCloseTimeout, ws_close.
    change (is_open (clearTimer _ st2) ws) with (is_open st ws). rewrite Hopen.
    cbn. apply lookup_insert_eq.
Qed.

Lemma failed_attempt_closes_the_connection_even_after_success_witness :
  let st := one_client auth_config None in
  let st2 := step 3 (EvMessage 0%nat (text (auth_with (JStr "secret"))))
               (step 2 (EvMessage 0%nat (text (auth_with (JStr "guess")))) st) in
  trace (step 4 (EvTimer (nextTimer st)) st2)
  = trace st2 ++ [Close 0%nat 1008 "Authentication failed"].
Proof.
  intros st.
  apply (failed_attempt_closes_the_connection_even_after_success 0%nat
           (client_1 auth_config) (JStr "guess") 2 3 4 st);
    [reflexivity|reflexivity|exact one_client_auth_data|vm_compute; reflexivity].
Defined.

(** ** The handshake *)

Lemma add_capabilities_fold ws caps st :
  let r := foldl (add_capability ws) st caps in
  trace r = trace st ∧ readyState r = readyState st ∧ config r = config st
  ∧ ∀ cd, clientData st !! ws = Some cd →
      ∃ cd', clientData r !! ws = Some cd'
             ∧ clientType cd' = clientType cd
             ∧ capabilities cd ⊆ capabilities cd'.
Proof.
  cbv zeta. revert st. induction caps as [|cap caps IH]; intros st.
  { split_and!; try done. intros cd Hcd. by exists cd. }
  cbn [foldl].
  destruct (IH (add_capability ws st cap)) as (Htr & Hrs & Hcf & Hcd).
  assert (trace (add_capability ws st cap) = trace st
          ∧ readyState (add_capability ws st cap) = readyState st
          ∧ config (add_capability ws st cap) = config st
          ∧ ∃ k, clientData (add_capability ws st cap)
                 = alter (λ cd, cd_with_capabilities ({[k]} ∪ capabilities cd) cd) ws
                     (clientData st)) as (Htr1 & Hrs1 & Hcf1 & k & Hcd1).
  { unfold add_capability. destruct cap as [p| |]; cbn; eauto 10. }
  split_and!; [congruence..|].
  intros cd Hws.
  destruct (Hcd (cd_with_capabilities ({[k]} ∪ capabilities cd) cd))
    as (cd' & Hcd' & Hty & Hcaps).
  { by rewrite Hcd1, lookup_alter_eq, Hws. }
  exists cd'. split_and!; [done|done|]. cbn in Hcaps. set_solver.
Qed.

(** X20: a handshake never fails.  It sets the client type only to a
    non-empty string that is on the configured list, and leaves the type
    as it was otherwise; it only ever adds capabilities; and it is always
    answered with [handshake_response].  With an empty list of client
    types, which is what the manager configures when [WS_CLIENT_TYPES] is
    not set (its default list is never used), no handshake changes the
    type of a client. *)
Theorem handshake_sets_only_configured_client_types
    (ws : socket) (cd cd0 : ClientData) (message : JSValue) (now : time)
    (st : Server) :
  clientData st !! ws = Some cd0 →
  let st' := _handleHandshake ws cd message now st in
  (∃ cd',
     clientData st' !! ws = Some cd'
     ∧ clientType cd'
       = match js_get message "clientType" with
         | JPrim (PStr s) =>
             if negb (String.eqb s "") && bool_decide (s ∈ clientTypes (config st))
             then s else clientType cd0
         | _ => clientType cd0
         end
     ∧ capabilities cd0 ⊆ capabilities cd'
     ∧ (clientTypes (config st) = getWebsocketConfig_clientTypes None →
        clientType cd' = clientType cd0))
  ∧ sent_to ws (trace st')
    = sent_to ws (trace st)
      ++ (if is_open st ws then [handshake_response (cd_id cd) now] else []).
Proof.
  intros Hcd0. cbv zeta. unfold _handleHandshake. cbv zeta.
  set (st1 := match js_get message "clientType" with
              | JPrim (PStr s) => _
              | _ => st
              end).
  assert (trace st1 = trace st ∧ readyState st1 = readyState st
          ∧ config st1 = config st
          ∧ ∃ cd1, clientData st1 !! ws = Some cd1
                   ∧ capabilities cd1 = capabilities cd0
                   ∧ clientType cd1
                     = match js_get message "clientType" with
                       | JPrim (PStr s) =>
                           if negb (String.eqb s "")
                              && bool_decide (s ∈ clientTypes (config st))
                           then s else clientType cd0
                       | _ => clientType cd0
                       end) as (Htr1 & Hrs1 & Hcf1 & cd1 & Hcd1 & Hcaps1 & Hty1).
  { subst st1. destruct (js_get message "clientType") as [[| | | |s]| |];
      try (split_and!; [done..|by exists cd0]).
    cbn [truthy]. destruct (negb (String.eqb s "") && _).
    - split_and!; [done..|]. eexists. cbn. by rewrite lookup_alter_eq, Hcd0.
    - split_and!; [done..|by exists cd0]. }
  clearbody st1.
  set (st2 := match js_get message "capabilities" with
              | JArr caps => _
              | _ => st1
              end).
  assert (trace st2 = trace st ∧ readyState st2 = readyState st
          ∧ ∃ cd2, clientData st2 !! ws = Some cd2
                   ∧ clientType cd2 = clientType cd1
                   ∧ capabilities cd0 ⊆ capabilities cd2)
    as (Htr2 & Hrs2 & cd2 & Hcd2 & Hty2 & Hcaps2).
  { subst st2. destruct (js_get message "capabilities") as [|caps|];
      try (split_and!; [done..|exists cd1; by rewrite Hcaps1]).
    destruct (add_capabilities_fold ws caps st1) as (-> & -> & _ & Hfold).
    destruct (Hfold cd1 Hcd1) as (cd2 & ? & ? & ?).
    split_and!; [done..|]. exists cd2. by rewrite <- Hcaps1. }
  clearbody st2.
  assert (is_open st2 ws = is_open st ws) as Hopen by (unfold is_open; by rewrite Hrs2).
  unfold _sendToClient, emit, log. rewrite Hopen. split.
  - exists cd2. split_and!.
    + by destruct (is_open st ws).
    + by rewrite Hty2, Hty1.
    + done.
    + intros Hlist. rewrite Hty2, Hty1, Hlist.
      destruct (js_get message "clientType") as [[| | | |s]| |]; try done.
      by rewrite andb_false_r.
  - destruct (is_open st ws); cbn; rewrite Htr2, !sent_to_app, ?sent_to_Send, sent_to_Emit;
      by rewrite ?app_nil_r.
Qed.

Lemma handshake_sets_only_configured_client_types_witness :
  let message := JObj [("type", JStr "handshake"); ("clientType", JStr "robot")] in
  sent_to 0%nat (trace (_handleHandshake 0%nat (client_1 default_config) message 2
                          (one_client default_config None)))
  = sent_to 0%nat (trace (one_client default_config None))
    ++ [handshake_response "client_1" 2].
Proof.
  intros message.
  apply (handshake_sets_only_configured_client_types 0%nat (client_1 default_config)
           (client_1 default_config) message 2 (one_client default_config None)
           one_client_data).
Defined.

(** ** Lists in environment variables *)

Lemma string_app_cons a s t : String a s +:+ t = String a (s +:+ t).
Proof. done. Qed.

Lemma string_app_nil_r s : s +:+ "" = s.
Proof. induction s as [|a s IH]; [done|]. by rewrite string_app_cons, IH. Qed.

Lemma string_app_assoc s t u : s +:+ (t +:+ u) = (s +:+ t) +:+ u.
Proof. induction s as [|a s IH]; [done|]. by rewrite !string_app_cons, IH. Qed.

Lemma rev_app_app s acc : String.rev_app s acc = String.rev s +:+ acc.
Proof.
  unfold String.rev. revert acc. induction s as [|a s IH]; intros acc; [done|].
  cbn [String.rev_app]. rewrite IH, (IH (String a "")).
  by rewrite <- string_app_assoc.
Qed.

Lemma rev_cons a s : String.rev (String a s) = String.rev s +:+ String a "".
Proof. unfold String.rev at 1. cbn [String.rev_app]. apply rev_app_app. Qed.

Lemma rev_app s t : String.rev (s +:+ t) = String.rev t +:+ String.rev s.
Proof.
  induction s as [|a s IH].
  - change ("" +:+ t) with t. change (String.rev "") with "".
    by rewrite string_app_nil_r.
  - by rewrite string_app_cons, !rev_cons, IH, string_app_assoc.
Qed.

Lemma rev_involutive s : String.rev (String.rev s) = s.
Proof.
  induction s as [|a s IH]; [done|].
  by rewrite rev_cons, rev_app, IH.
Qed.

Lemma trimStart_clean s : starts_clean (trimStart s).
Proof.
  induction s as [|a s IH]; cbn; [done|].
  by destruct (is_white_space a) eqn:Ha.
Qed.

Lemma trimStart_id s : starts_clean s → trimStart s = s.
Proof. destruct s as [|a s]; cbn; [done|]. by intros ->. Qed.

Lemma starts_clean_app s t : s ≠ "" → starts_clean s → starts_clean (s +:+ t).
Proof. by destruct s. Qed.

(** Dropping white space at the start keeps the end as it is. *)
Lemma trimStart_end s :
  starts_clean (String.rev s) → starts_clean (String.rev (trimStart s)).
Proof.
  induction s as [|a s IH]; [done|]. cbn [trimStart].
  destruct (is_white_space a) eqn:Ha; [|done].
  rewrite rev_cons. intros Hend. apply IH.
  destruct s as [|b s]; [cbn in Hend; congruence|].
  destruct (String.rev (String b s)) as [|c r] eqn:Hr; [|done].
  apply (f_equal String.rev) in Hr. by rewrite rev_involutive in Hr.
Qed.

Lemma trim_trimmed s : trimmed (trim s).
Proof.
  unfold trim, trimEnd. split; [apply trimStart_clean|].
  apply trimStart_end. rewrite rev_involutive. apply trimStart_clean.
Qed.

Lemma trim_id s : trimmed s → trim s = s.
Proof.
  intros [Hstart Hend]. unfold trim, trimEnd.
  by rewrite (trimStart_id _ Hend), rev_involutive, trimStart_id.
Qed.

Lemma split_nonempty sep s : split sep s ≠ [].
Proof.
  induction s as [|a s IH]; cbn; [done|].
  destruct (Ascii.eqb a sep); [done|]. by destruct (split sep s).
Qed.

Lemma split_free sep s : free_of sep s → split sep s = [s].
Proof.
  induction s as [|a s IH]; cbn; [done|].
  intros [Ha Hs]. apply Ascii.eqb_neq in Ha. by rewrite Ha, IH.
Qed.

Lemma split_app sep s t :
  free_of sep s → split sep (s +:+ String sep t) = s :: split sep t.
Proof.
  induction s as [|a s IH].
  - intros _. change ("" +:+ String sep t) with (String sep t).
    cbn [split]. by rewrite Ascii.eqb_refl.
  - intros [Ha Hs]. rewrite string_app_cons. cbn [split].
    apply Ascii.eqb_neq in Ha. by rewrite Ha, IH.
Qed.

Lemma split_join sep l :
  l ≠ [] → Forall (free_of sep) l → split sep (join (String sep "") l) = l.
Proof.
  induction l as [|s l IH]; [done|]. intros _ Hfree.
  apply Forall_cons in Hfree as [Hs Hl].
  destruct l as [|t l]; [by apply split_free|].
  change (join (String sep "") (s :: t :: l))
    with (s +:+ String sep "" +:+ join (String sep "") (t :: l)).
  change (String sep "" +:+ join (String sep "") (t :: l))
    with (String sep (join (String sep "") (t :: l))).
  rewrite split_app by done. by rewrite IH.
Qed.

(** X21: every name [_parseEnvArray] returns is non-empty and has no white
    space at either end; a variable that is not set, or empty, gives the
    empty list.  Conversely, a non-empty list of names that are non-empty,
    without comma and without white space at the ends is what
    [_parseEnvArray] reads back from the names joined by commas.  The list
    it returns is what [getWebsocketConfig] configures as [clientTypes]:
    an array is always truthy, so the default list after [||] is never
    used. *)
Theorem parseEnvArray_reads_trimmed_names (envValue : option string) :
  (∀ item, item ∈ _parseEnvArray envValue → item ≠ "" ∧ trimmed item)
  ∧ _parseEnvArray None = []
  ∧ _parseEnvArray (Some "") = []
  ∧ (∀ names, names ≠ [] →
       Forall (λ name, name ≠ "" ∧ trimmed name ∧ free_of "," name) names →
       _parseEnvArray (Some (join "," names)) = names)
  ∧ getWebsocketConfig_clientTypes envValue = _parseEnvArray envValue.
Proof.
  split_and!; [|done..| |done].
  - intros item. unfold _parseEnvArray.
    destruct envValue as [s|]; [|by intros ?%elem_of_nil].
    destruct (negb (truthy (JStr s))); [by intros ?%elem_of_nil|].
    intros Hin. apply list_elem_of_In, filter_In in Hin as [Hin Hne].
    apply list_elem_of_In, list_elem_of_fmap in Hin as (piece & -> & _).
    split; [|apply trim_trimmed].
    cbn in Hne. intros Heq. by rewrite Heq in Hne.
  - intros names Hne Hnames. unfold _parseEnvArray.
    assert (join "," names ≠ "") as Hjoin.
    { destruct names as [|name names]; [done|].
      apply Forall_cons in Hnames as [(Hname & _) _].
      destruct names; cbn; [done|]. by destruct name. }
    cbn [truthy]. apply String.eqb_neq in Hjoin. rewrite Hjoin. cbn [negb].
    rewrite split_join; [|done|].
    2:{ eapply Forall_impl; [exact Hnames|]. by intros name (_ & _ & ?). }
    clear Hne Hjoin. induction Hnames as [|name names (Hname & Htrim & _) _ IH]; [done|].
    cbn [fmap list_fmap List.filter]. rewrite (trim_id name Htrim).
    cbn [truthy]. apply String.eqb_neq in Hname. rewrite Hname. cbn [negb].
    f_equal. exact IH.
Qed.

(** ** The heartbeat timer after the connection has closed *)

(** X22: the close event of a connection does not cancel its heartbeat
    timer: every timer is still set afterwards.  The timer is removed by
    its own next tick, which finds the socket closed and does nothing
    else. *)
Theorem heartbeat_timer_outlives_the_connection
    (ws : socket) (cd : ClientData) (h : nat) (interval : Z) (code : Z)
    (reason : string) (now now' : time) (st : Server) :
  timers st !! h = Some (Heartbeat ws interval) →
  clientData st !! ws = Some cd →
  is_live st ws = true →
  let st1 := step now (EvClose ws code reason) st in
  timers st1 = timers st
  ∧ step now' (EvTimer h) st1 = clearTimer h st1.
Proof.
  intros Htimer Hcd Hlive. cbv zeta.
  destruct (step_close now ws code reason st)
    as [[Hdead _]|(_ & _ & Hcd1 & Hrs1 & _)]; [congruence|].
  assert (timers (step now (EvClose ws code reason) st) = timers st) as Htimers.
  { cbn [step]. rewrite Hlive.
    by destruct (same_handleClientDisconnection ws code reason now
                   (with_readyState (<[ws := CLOSED]> (readyState st)) st))
      as (_ & -> & _). }
  set (st1 := step now (EvClose ws code reason) st) in *. clearbody st1.
  split; [done|]. cbn [step]. rewrite Htimers, Htimer.
  unfold heartbeatTick. rewrite Hcd1, Hcd.
  assert (is_open st1 ws = false) as ->; [|done].
  unfold is_open. rewrite Hrs1, lookup_insert_eq. by apply bool_decide_eq_false_2.
Qed.

Lemma heartbeat_timer_outlives_the_connection_witness :
  let st := one_client default_config None in
  timers (step 5 (EvClose 0%nat 1000 "bye") st) = timers st.
Proof.
  intros st.
  apply (heartbeat_timer_outlives_the_connection 0%nat (client_1 default_config)
           0%nat 30000 1000 "bye" 5 6 st);
    [vm_compute; reflexivity|exact one_client_data|vm_compute; reflexivity].
Defined.

(** ** Logging *)

(** X23: [_log] falls back to level 1 when the configured level is
    unknown, and also when it is [debug], whose number is 0: a server
    configured with [logLevel: 'debug'] logs exactly what it logs with
    ['info'], and a message of level [debug] is printed under no
    configuration.  A message whose level is none of the four is never
    printed either. *)
Theorem debug_messages_are_never_logged (logLevel level : string) :
  _log logLevel "debug" = false
  ∧ _log "debug" level = _log "info" level
  ∧ (levels logLevel = JUndef → _log logLevel level = _log "info" level)
  ∧ (level ≠ "info" → level ≠ "warn" → level ≠ "error" →
     _log logLevel level = false).
Proof.
  assert (∀ name, levels name = JNum 0 ∨ levels name = JNum 1
                  ∨ levels name = JNum 2 ∨ levels name = JNum 3
                  ∨ levels name = JObj [] ∨ levels name = JUndef) as Hlevels.
  { intros name. unfold levels.
    repeat match goal with
           | |- context [String.eqb ?a ?b] => destruct (String.eqb a b); [by auto 10|]
           end.
    destruct (bool_decide _); by auto 10. }
  assert (_log logLevel "debug" = false) as Hdebug.
  { unfold _log. change (levels "debug") with (JNum 0).
    destruct (Hlevels logLevel) as [-> |[-> |[-> |[-> |[-> | ->]]]]]; done. }
  split_and!.
  - exact Hdebug.
  - done.
  - intros Hunknown. unfold _log. by rewrite Hunknown.
  - intros Hinfo Hwarn Herror.
    assert (levels level = JNum 0 ∨ levels level = JObj [] ∨ levels level = JUndef)
      as Hlevel.
    { unfold levels.
      destruct (String.eqb_spec level "debug"); [by left|].
      destruct (String.eqb_spec level "info"); [done|].
      destruct (String.eqb_spec level "warn"); [done|].
      destruct (String.eqb_spec level "error"); [done|].
      destruct (bool_decide _); auto. }
    unfold _log.
    destruct Hlevel as [Hl|[Hl|Hl]]; rewrite Hl;
      destruct (Hlevels logLevel) as [-> |[-> |[-> |[-> |[-> | ->]]]]]; done.
Qed.

(** ** Requests routed by the manager *)

(** X24: a request for an endpoint that [String] names [e], on an open
    socket, with the manager listening.  When request-response is disabled
    the handler of the server answers with an error and emits no [request]
    event.  Otherwise the handler of the server sends nothing itself, and
    - without a handler for the endpoint, for instance after it has been
      unregistered, the manager answers at once with one failure [response]
      saying "Endpoint '...' not found";
    - a handler that throws is answered at once with the failure;
    - a handler that returns is awaited, and nothing is sent until its
      promise has settled; then one [response] with the request id carries
      the result or the failure, if the socket is still open, and nothing
      is sent if it is not. *)
Theorem request_is_answered_once
    (requestHandlers : gmap Key RequestHandler) (ws : socket) (cd : ClientData)
    (message clientInfo : JSValue) (e : string) (now : time) (st : Server) :
  is_open st ws = true →
  js_get message "endpoint" = JStr e →
  let requestId := js_get message "requestId" in
  let data := js_get message "data" in
  let st1 := _handleRequest ws cd message now st in
  let failure thrown :=
    response requestId (negb (truthy thrown)) JNull
      (if truthy thrown then js_or (js_get thrown "message") JNull else JNull) in
  if enableRequestResponse (config st) then
    sent_to ws (trace st1) = sent_to ws (trace st)
    ∧ match requestHandlers !! KPrim (PStr e) with
      | None =>
          ∃ st2,
            _handleIncomingRequest requestHandlers ws clientInfo requestId
              (JStr e) data now st1 = Answered st2
            ∧ sent_to ws (trace st2)
              = sent_to ws (trace st)
                ++ [response requestId false JNull
                      (JStr ("Endpoint '" +:+ e +:+ "' not found")) now]
      | Some handler =>
          match handler data clientInfo with
          | HandlerThrows thrown =>
              ∃ st2,
                _handleIncomingRequest requestHandlers ws clientInfo requestId
                  (JStr e) data now st1 = Answered st2
                ∧ sent_to ws (trace st2) = sent_to ws (trace st) ++ [failure thrown now]
          | HandlerAwaited =>
              _handleIncomingRequest requestHandlers ws clientInfo requestId
                (JStr e) data now st1 = AwaitsHandler
              ∧ ∀ (result : JSValue + JSValue) (later : time) (st2 : Server),
                  sent_to ws
                    (trace (_handleIncomingRequest_resume ws requestId result later st2))
                  = sent_to ws (trace st2)
                    ++ (if is_open st2 ws
                        then [match result with
                              | inl r => response requestId true r JNull later
                              | inr thrown => failure thrown later
                              end]
                        else [])
          end
      end
  else
    st1 = log (Send ws (error "Request-response not enabled" now)) st.
Proof.
  intros Hopen He. cbv zeta. unfold _handleRequest, _sendToClient. rewrite Hopen.
  destruct (enableRequestResponse (config st)); cbn [negb]; [|done].
  unfold emit, log. cbn [trace with_trace]. rewrite sent_to_app, sent_to_Emit, app_nil_r.
  split; [done|].
  set (st1 := with_trace _ st).
  assert (∀ responseData err later st2,
            sent_to ws (trace (respond ws (js_get message "requestId") responseData err
                                 later st2))
            = sent_to ws (trace st2)
              ++ (if is_open st2 ws
                  then [response (js_get message "requestId") (bool_decide (err = None))
                          responseData
                          (match err with Some msg => js_or msg JNull | None => JNull end)
                          later]
                  else [])) as Hrespond.
  { intros responseData err later st2. unfold respond, _sendToClient.
    destruct (is_open st2 ws); [|by rewrite app_nil_r].
    unfold log. cbn [trace with_trace]. by rewrite sent_to_app, sent_to_Send. }
  assert (sent_to ws (trace st1) = sent_to ws (trace st)) as Hst1.
  { subst st1. cbn [trace with_trace]. by rewrite sent_to_app, sent_to_Emit, app_nil_r. }
  assert (is_open st1 ws = true) as Hopen1 by exact Hopen.
  assert (∀ thrown,
            response (js_get message "requestId")
              (bool_decide (respond_error thrown = None)) JNull
              (match respond_error thrown with
               | Some msg => js_or msg JNull
               | None => JNull
               end)
            = response (js_get message "requestId") (negb (truthy thrown)) JNull
                (if truthy thrown then js_or (js_get thrown "message") JNull else JNull))
    as Hfailure.
  { intros thrown. unfold respond_error. by destruct (truthy thrown). }
  unfold _handleIncomingRequest. cbn [find_key mbind option_bind].
  destruct (requestHandlers !! KPrim (PStr e)) as [handler|].
  - destruct (handler _ _) as [thrown|].
    + eexists. split; [done|]. by rewrite Hrespond, Hopen1, Hst1, Hfailure.
    + split; [done|]. intros result later st2. unfold _handleIncomingRequest_resume.
      destruct result as [r|thrown]; rewrite Hrespond;
        (destruct (is_open st2 ws); [|done]); [done|by rewrite Hfailure].
  - cbn [js_String]. eexists. split; [done|]. by rewrite Hrespond, Hopen1, Hst1.
Qed.

Lemma request_is_answered_once_witness :
  let message := JObj [("type", JStr "request"); ("requestId", JNum 3);
                       ("endpoint", JStr "status")] in
  let st := one_client default_config None in
  let st1 := _handleRequest 0%nat (client_1 default_config) message 4 st in
  is_open st 0%nat = true
  ∧ ∃ st2,
      _handleIncomingRequest
        (unregisterRequestHandler "status"
           (registerRequestHandler "status" (λ _ _, HandlerAwaited) ∅))
        0%nat JNull (JNum 3) (JStr "status") JUndef 4 st1 = Answered st2
      ∧ sent_to 0%nat (trace st2)
        = sent_to 0%nat (trace st)
          ++ [response (JNum 3) false JNull (JStr "Endpoint 'status' not found") 4].
Proof.
  intros message st. split; [reflexivity|].
  pose proof (request_is_answered_once
                (unregisterRequestHandler "status"
                   (registerRequestHandler "status" (λ _ _, HandlerAwaited) ∅))
                0%nat (client_1 default_config) message JNull "status" 4 st
                eq_refl eq_refl) as [_ H].
  exact H.
Defined.
